(** * Soft Actor-Critic (mushroom/algorithms/actor_critic/sac.py)

    A shallow embedding of [SACPolicy] and [SAC] and the properties of
    their update loop.

    Numbers are real numbers: the arithmetic of torch and numpy is
    followed exactly, without rounding or overflow.  The two places where
    exact arithmetic itself leaves the finite numbers, a logarithm of a
    non-positive number and a division by zero, are kept: they end a
    computation with the outcome [NonFinite].  Python exceptions are the
    outcome [Raise].  Random draws are inputs: a noise function gives the
    standard normal draw behind every cell of a sample.

    torch and numpy compute with IEEE floating-point numbers.  Where the
    result of a line in floating point differs in kind from its result
    over the reals (a bound missed by a rounding, an overflow to an
    infinity, a NaN), the arithmetic of the line is written once more, on
    one cell and over an arithmetic, and read over the reals and over the
    floating-point formats: see the cell arithmetic at the end of the
    definitions. *)

From Stdlib Require Import Reals Lra Lia Floats.SpecFloat.
From stdpp Require Import gmap strings list.

Open Scope R_scope.

(** ** Outcomes of a computation *)

Inductive exn : Set :=
| AssertionError
| IndexError
| KeyError
| ValueError
| RuntimeError
| NotImplementedError
| AttributeError.

Inductive outcome (A : Type) : Type :=
| Ok (a : A)
| Raise (e : exn)
| NonFinite.

Arguments Ok {A} a.
Arguments Raise {A} e.
Arguments NonFinite {A}.

#[global] Instance outcome_ret : MRet outcome := fun _ a => Ok a.

#[global] Instance outcome_bind : MBind outcome := fun _ _ f m =>
  match m with
  | Ok a => f a
  | Raise e => Raise e
  | NonFinite => NonFinite
  end.

Definition of_option {A} (e : exn) (o : option A) : outcome A :=
  match o with
  | Some a => Ok a
  | None => Raise e
  end.

Fixpoint for_each {A B} (f : A -> outcome B) (l : list A) : outcome (list B) :=
  match l with
  | [] => Ok []
  | a :: l' => b ← f a; bs ← for_each f l'; Ok (b :: bs)
  end.

(** ** Elementwise operations with broadcasting

    numpy and torch align two axes when their sizes agree or when one of
    them is 1, and raise otherwise. *)

Definition bcast2 {A B C} (f : A -> B -> outcome C)
    (x : list A) (y : list B) : outcome (list C) :=
  if decide (length x = length y) then
    for_each (fun p => f p.1 p.2) (zip x y)
  else
    match x, y with
    | _, [b] => for_each (fun a => f a b) x
    | [a], _ => for_each (fun b => f a b) y
    | _, _ => Raise ValueError
    end.

(** An in-place operation [x op= y] keeps the shape of [x]: [y] may be
    broadcast to it, [x] may not grow. *)
Definition bcast_into {A B} (f : A -> B -> outcome A)
    (x : list A) (y : list B) : outcome (list A) :=
  if decide (length x = length y) then
    for_each (fun p => f p.1 p.2) (zip x y)
  else
    match y with
    | [b] => for_each (fun a => f a b) x
    | _ => Raise ValueError
    end.

Definition pure2 {A B C} (f : A -> B -> C) : A -> B -> outcome C :=
  fun a b => Ok (f a b).

(** One-dimensional numpy arrays. *)
Definition np_binop (f : R -> R -> R) (x y : list R) : outcome (list R) :=
  bcast2 (pure2 f) x y.

Definition np_inplace (f : R -> R -> R) (x y : list R) : outcome (list R) :=
  bcast_into (pure2 f) x y.

Definition np_scale (c : R) (x : list R) : list R := fmap (Rmult c) x.

Definition sum_list_R (l : list R) : R := foldr Rplus 0 l.

(** ** Tensors

    A tensor is a matrix of numbers (one row per batch element; a vector
    is a matrix of one row, a scalar a matrix of one cell) together with
    the leaves of the autograd graph it is attached to: the parameters
    with respect to which [backward] would differentiate it. *)

Inductive leaf : Set :=
| MuWeights
| SigmaWeights
| LogAlpha
| CriticWeights (i : nat).

#[global] Instance leaf_eq_dec : EqDecision leaf.
Proof. solve_decision. Defined.

Definition leaf_code (l : leaf) : nat :=
  match l with
  | MuWeights => 0
  | SigmaWeights => 1
  | LogAlpha => 2
  | CriticWeights i => 3 + i
  end.

Definition leaf_decode (n : nat) : leaf :=
  match n with
  | O => MuWeights
  | S O => SigmaWeights
  | S (S O) => LogAlpha
  | S (S (S i)) => CriticWeights i
  end.

#[global] Instance leaf_countable : Countable leaf.
Proof.
  apply (inj_countable' leaf_code leaf_decode).
  intros []; reflexivity.
Defined.

Record tensor : Type := Tensor {
  data : list (list R);
  graph : gset leaf
}.

Definition from_numpy (v : list R) : tensor := Tensor [v] ∅.

Definition scalar (x : R) (g : gset leaf) : tensor := Tensor [[x]] g.

Definition detach (t : tensor) : tensor := Tensor (data t) ∅.

Definition t_map (f : R -> R) (t : tensor) : tensor :=
  Tensor (fmap (fmap (M := list) f) (data t)) (graph t).

Definition t_check (f : R -> outcome R) (t : tensor) : outcome tensor :=
  d ← for_each (for_each f) (data t); Ok (Tensor d (graph t)).

Definition t_binop (f : R -> R -> outcome R) (s t : tensor) : outcome tensor :=
  d ← bcast2 (bcast2 f) (data s) (data t); Ok (Tensor d (graph s ∪ graph t)).

Definition t_inplace (f : R -> R -> outcome R) (s t : tensor) : outcome tensor :=
  d ← bcast_into (bcast_into f) (data s) (data t);
  Ok (Tensor d (graph s ∪ graph t)).

(** [torch.log]: minus infinity at 0, NaN below. *)
Definition log_checked (x : R) : outcome R :=
  if Rlt_dec 0 x then Ok (ln x) else NonFinite.

(** Division: an infinity or a NaN at a zero divisor. *)
Definition div_checked (x y : R) : outcome R :=
  if Req_dec_T y 0 then NonFinite else Ok (x / y).

Definition torch_log : tensor -> outcome tensor := t_check log_checked.
Definition torch_exp : tensor -> tensor := t_map exp.
(** Over the reals [tanh] stays strictly between -1 and 1; in floating
    point it is rounded and reaches them (see the cell arithmetic). *)
Definition torch_tanh : tensor -> tensor := t_map tanh.
Definition t_add : tensor -> tensor -> outcome tensor := t_binop (pure2 Rplus).
Definition t_sub : tensor -> tensor -> outcome tensor := t_binop (pure2 Rminus).
Definition t_mul : tensor -> tensor -> outcome tensor := t_binop (pure2 Rmult).
Definition t_div : tensor -> tensor -> outcome tensor := t_binop div_checked.
Definition torch_min : tensor -> tensor -> outcome tensor := t_binop (pure2 Rmin).

(** [t.sum(dim=1, keepdim=True)] *)
Definition sum_dim1_keepdim (t : tensor) : tensor :=
  Tensor (fmap (fun row => [sum_list_R row]) (data t)) (graph t).

(** [t.flatten()] *)
Definition flatten (t : tensor) : tensor :=
  Tensor [concat (data t)] (graph t).

(** [t.mean()]: a scalar; NaN over no cell at all. *)
Definition mean (t : tensor) : outcome tensor :=
  let cells := concat (data t) in
  m ← div_checked (sum_list_R cells) (INR (length cells));
  Ok (scalar m (graph t)).

(** [t.detach().cpu().numpy()] of a vector. *)
Definition to_numpy1 (t : tensor) : list R := concat (data t).

(** ** Python values, dictionaries and the store of dictionaries *)

Inductive pyval : Set :=
| PInt (z : Z)
| PStr (s : string)
| PBool (b : bool)
| PNone
| PObj (id : positive).

#[global] Instance pyval_eq_dec : EqDecision pyval.
Proof. solve_decision. Defined.

(** Python's [==] on these values: a bool compares as the integer 0 or 1,
    an object is equal to itself only. *)
Definition py_eq (a b : pyval) : bool :=
  match a, b with
  | PInt x, PInt y => bool_decide (x = y)
  | PInt x, PBool c | PBool c, PInt x => bool_decide (x = Z.b2z c)
  | PBool c, PBool d => bool_decide (c = d)
  | PStr s, PStr t => bool_decide (s = t)
  | PNone, PNone => true
  | PObj i, PObj j => bool_decide (i = j)
  | _, _ => false
  end.

Abbreviation pydict := (gmap string pyval).

(** A dictionary is passed by reference: the store maps the identity of
    every live dictionary to its content. *)
Abbreviation ref := positive.
Abbreviation store := (gmap ref pydict).

(** ** Transitions and batches *)

Record transition : Type := Transition {
  t_state : list R;
  t_action : list R;
  t_reward : R;
  t_next_state : list R;
  t_absorbing : R;
  t_last : R
}.

(** Standard normal draws, one for every cell (row, column) of a sample. *)
Abbreviation noise := (nat -> nat -> R).

(** What the autograd graph of the actor loss is built from. *)
Record actor_loss_inputs : Type := ActorLossInputs {
  li_state : list (list R);
  li_noise : noise;
  li_critic : list (list R);
  li_log_alpha : R;
  li_loss : R
}.

(** ** Collaborators *)

(** Modelled from the spec: the approximator networks with their
    regression step, the optimizers and the replay memory
    ([mushroom.approximators], [torch.optim],
    [mushroom.utils.replay_memory], [ReparametrizationAC]) are not part of
    sac.py.  Section 6 of the specification gives their interface; what
    they compute is left open, so they are fields of a class. *)
Class Collaborators : Type := {
  (** [TorchApproximator] built from [params]: the initial weight vector of a
      network, drawn from the seed. *)
  init_weights : pydict -> nat -> list R;
  (** The network on one input row: the mean or log-scale network on a
      state, the critic on a state and an action. *)
  forward : pydict -> list R -> list R -> list R;
  q_value : pydict -> list R -> list R -> list R -> R;
  (** [fit(state, action, target, **fit_params)] of one member. *)
  fit_member : pydict -> pydict -> list R ->
               list (list R) -> list (list R) -> list R -> list R;
  (** The actor optimizer: [zero_grad], [loss.backward()], [step] over the
      weights of the mean and log-scale networks. *)
  actor_optimizer : Type;
  actor_optimizer_new : pydict -> actor_optimizer;
  actor_optimizer_step : actor_optimizer -> actor_loss_inputs ->
                         list R * list R -> list R * list R * actor_optimizer;
  (** [optim.Adam([log_alpha], lr)] and one step of it on a gradient. *)
  adam : Type;
  adam_new : R -> adam;
  adam_step : adam -> R -> R -> R * adam;
  (** [ReplayMemory(initial_size, max_size)]. *)
  memory : Type;
  rm_new : Z -> Z -> memory;
  rm_add : memory -> list transition -> memory;
  rm_initialized : memory -> bool;
  rm_size : memory -> Z;
  rm_get : memory -> Z -> nat -> list transition
}.

(** ** Regressor *)

(** Modelled from the spec: [Regressor(TorchApproximator, ...)] keeps the
    parameters it was built from and one weight vector per member;
    [len] is the number of members. *)
Record Regressor : Type := MkRegressor {
  params : pydict;
  model : list (list R)
}.

(** Modelled from the spec: the number of members asked for, one when the
    key is absent. *)
Definition n_models (p : pydict) : nat :=
  match p !! "n_models"%string with
  | Some (PInt n) => Z.to_nat n
  | _ => 1%nat
  end.

Section WithCollaborators.
Context {C : Collaborators}.

(** Modelled from the spec: every member is a network of its own,
    initialised from its own seed. *)
Definition Regressor_new (p : pydict) (seed : nat) : Regressor :=
  MkRegressor p (fmap (fun k => init_weights p (seed + k)) (seq 0 (n_models p))).

(** Modelled from the spec: [model[i].get_weights()]. *)
Definition get_weights (r : Regressor) (i : nat) : outcome (list R) :=
  of_option IndexError (model r !! i).

(** Modelled from the spec: [model[i].set_weights(w)]. *)
Definition set_weights (r : Regressor) (i : nat) (w : list R) : outcome Regressor :=
  if decide (i < length (model r))%nat
  then Ok (MkRegressor (params r) (<[i := w]> (model r)))
  else Raise IndexError.

(** Modelled from the spec: [predict(state, output_tensor=True)] of a
    single network, one row of output per state, attached to the weights
    of the network. *)
Definition predict_tensor (r : Regressor) (l : leaf) (state : list (list R))
  : outcome tensor :=
  w ← get_weights r 0;
  Ok (Tensor (fmap (forward (params r) w) state) {[ l ]}).

(** Modelled from the spec:
    [critic(state, action, output_tensor=True, idx=i)] evaluates member
    [i] alone and gives a vector of one value per row. *)
Definition predict_idx (r : Regressor) (i : nat)
    (state action : list (list R)) (g : gset leaf) : outcome tensor :=
  w ← get_weights r i;
  Ok (Tensor [zip_with (q_value (params r) w) state action] g).

(** Modelled from the spec: [predict(state, action)] with
    [prediction='min'] is the minimum over the members, row by row; numpy
    raises on an empty ensemble. *)
Definition predict_min (r : Regressor) (state action : list (list R))
  : outcome (list R) :=
  match fmap (fun w => zip_with (q_value (params r) w) state action) (model r) with
  | [] => Raise ValueError
  | q :: qs => Ok (foldl (zip_with Rmin) q qs)
  end.

(** Modelled from the spec: [model.network.parameters()], which line 154
    reads of the two regressors of the actor.  A regressor of one member
    is that approximator, whose network has the weights as parameters; a
    regressor of several members is an ensemble, reached through
    [model[i]], which has no attribute [network]. *)
Definition network_parameters (r : Regressor) : outcome (list R) :=
  match model r with
  | [w] => Ok w
  | _ => Raise AttributeError
  end.

(** Modelled from the spec: [fit(state, action, target, ...)] fits every
    member to the same target. *)
Definition Regressor_fit (r : Regressor) (fit_params : pydict)
    (state action : list (list R)) (target : list R) : Regressor :=
  MkRegressor (params r)
    (fmap (fun w => fit_member (params r) fit_params w state action target)
         (model r)).

End WithCollaborators.

(** ** torch.distributions.Normal *)

Record Normal : Type := MkNormal {
  loc : tensor;
  scale : tensor
}.

(** The constraint of [Normal] on its scale: positive. *)
Definition validate_positive (x : R) : outcome R :=
  if Rlt_dec 0 x then Ok x else Raise ValueError.

(** [broadcast_all]: both parameters are expanded to their common shape;
    each keeps its own graph.  The arguments are then validated: a scale
    that is not positive in every cell is a [ValueError] (the other
    constraint, a mean that is a number, always holds of a real). *)
Definition Normal_new (mu sigma : tensor) : outcome Normal :=
  l ← bcast2 (bcast2 (fun a _ => Ok a)) (data mu) (data sigma);
  s ← bcast2 (bcast2 (fun _ b => Ok b)) (data mu) (data sigma);
  s ← for_each (for_each validate_positive) s;
  Ok (MkNormal (Tensor l (graph mu)) (Tensor s (graph sigma))).

(** [sample()] draws under [torch.no_grad()]: the result is attached to
    nothing.  Cell (i, j) is [loc + scale * eps i j]. *)
Definition Normal_sample (d : Normal) (eps : noise) : tensor :=
  Tensor
    (imap (fun i rows =>
             imap (fun j p => p.1 + p.2 * eps i j) (zip rows.1 rows.2))
          (zip (data (loc d)) (data (scale d))))
    ∅.

(** [rsample()], which sac.py does not call: the same cells, attached to
    the parameters. *)
Definition Normal_rsample (d : Normal) (eps : noise) : tensor :=
  Tensor (data (Normal_sample d eps)) (graph (loc d) ∪ graph (scale d)).

(** [log_prob(value)]:
    [-((value - loc) ** 2) / (2 * var) - log_scale - log(sqrt(2 * pi))]
    with [var = scale ** 2] and [log_scale = scale.log()].  Over the
    reals the squares neither overflow nor underflow; for one cell and
    over any arithmetic this is [normal_log_prob_cell]. *)
Definition Normal_log_prob (d : Normal) (value : tensor) : outcome tensor :=
  let var := t_map (fun s => s ^ 2) (scale d) in
  log_scale ← torch_log (scale d);
  diff ← t_sub value (loc d);
  q ← t_div (t_map Ropp (t_map (fun x => x ^ 2) diff)) (t_map (Rmult 2) var);
  r ← t_sub q log_scale;
  Ok (t_map (fun x => x - ln (sqrt (2 * PI))) r).

(** ** SACPolicy *)

Record SACPolicy : Type := MkSACPolicy {
  _mu_approximator : Regressor;
  _sigma_approximator : Regressor;
  _delta_a : tensor;
  _central_a : tensor
}.

Section Policy.
Context {C : Collaborators}.

(** [SACPolicy.__init__] *)
Definition SACPolicy_init (mu_approximator sigma_approximator : Regressor)
    (min_a max_a : list R) : outcome SACPolicy :=
  range ← np_binop Rminus max_a min_a;
  total ← np_binop Rplus max_a min_a;
  Ok (MkSACPolicy mu_approximator sigma_approximator
        (from_numpy (np_scale 0.5 range))
        (from_numpy (np_scale 0.5 total))).

(** [SACPolicy.__call__] *)
Definition SACPolicy_call {A} (self : SACPolicy) : outcome A :=
  Raise NotImplementedError.

(** [SACPolicy.distribution] *)
Definition distribution (self : SACPolicy) (state : list (list R))
  : outcome Normal :=
  mu ← predict_tensor (_mu_approximator self) MuWeights state;
  log_sigma ← predict_tensor (_sigma_approximator self) SigmaWeights state;
  Normal_new mu (torch_exp log_sigma).

(** [SACPolicy.compute_action_and_log_prob_t] returns the pair of the
    action and its log-probability, or the action alone when
    [compute_log_prob] is false. *)
Definition returned (compute_log_prob : bool) : Type :=
  if compute_log_prob then (tensor * tensor)%type else tensor.

Definition compute_action_and_log_prob_t (self : SACPolicy)
    (state : list (list R)) (compute_log_prob : bool) (eps : noise)
  : outcome (returned compute_log_prob) :=
  dist ← distribution self state;
  let a_raw := Normal_sample dist eps in
  let a := torch_tanh a_raw in
  scaled ← t_mul a (_delta_a self);
  a_true ← t_add scaled (_central_a self);
  if compute_log_prob as b return outcome (returned b) then
    log_prob ← Normal_log_prob dist a_raw;
    correction ← torch_log (t_map (fun x => 1 - x ^ 2 + 1e-6) a);
    log_prob ← t_inplace (pure2 Rminus) log_prob correction;
    Ok (a_true, sum_dim1_keepdim log_prob)
  else
    Ok a_true.

(** The action in what [compute_action_and_log_prob_t] returns. *)
Definition returned_action {b : bool} : returned b -> tensor :=
  match b with
  | true => fun r => r.1
  | false => fun r => r
  end.

(** [SACPolicy.draw_action] *)
Definition draw_action (self : SACPolicy) (state : list (list R)) (eps : noise)
  : outcome (list (list R)) :=
  a ← compute_action_and_log_prob_t self state false eps;
  Ok (data (detach a)).

(** [SACPolicy.compute_action_and_log_prob]: numpy arrays, cut from the
    graph. *)
Definition compute_action_and_log_prob (self : SACPolicy)
    (state : list (list R)) (eps : noise)
  : outcome (list (list R) * list R) :=
  r ← compute_action_and_log_prob_t self state true eps;
  let log_prob := flatten r.2 in
  Ok (data (detach r.1), to_numpy1 (detach log_prob)).

(** [SACPolicy.reset] *)
Definition reset (self : SACPolicy) : SACPolicy := self.

End Policy.

(** ** SAC *)

(** Modelled from the spec: of [mdp_info] the agent reads the bounds of the
    action box, one number per action dimension, and the discount. *)
Record MDPInfo : Type := MkMDPInfo {
  action_low : list R;
  action_high : list R;
  gamma : R
}.

(** [mdp_info.action_space.shape]: a box over vectors has one axis. *)
Definition action_shape (m : MDPInfo) : list nat := [length (action_low m)].

(** The random draws one call of [fit] consumes: the seed of the replay
    sample and the noise of the two policy samples. *)
Record draws : Type := MkDraws {
  batch_seed : nat;
  actor_noise : noise;
  next_noise : noise
}.

(** [for i in range: body], on the state the body updates. *)
Fixpoint for_range {S} (body : nat -> S -> outcome S) (range : list nat) (s : S)
  : outcome S :=
  match range with
  | [] => Ok s
  | i :: rest => s' ← body i s; for_range body rest s'
  end.

Section Agent.
Context {C : Collaborators}.

Record SAC : Type := MkSAC {
  _critic_fit_params : ref;
  _batch_size : Z;
  _warmup_transitions : Z;
  _tau : R;
  _target_entropy : Z;
  _replay_memory : memory;
  _critic_approximator : Regressor;
  _target_critic_approximator : Regressor;
  _log_alpha : R;
  _alpha_optim : adam;
  policy : SACPolicy;
  _optimizer : actor_optimizer;
  mdp_info : MDPInfo
}.

Definition with_replay_memory (m : memory) (s : SAC) : SAC :=
  MkSAC (_critic_fit_params s) (_batch_size s) (_warmup_transitions s) (_tau s)
    (_target_entropy s) m (_critic_approximator s)
    (_target_critic_approximator s) (_log_alpha s) (_alpha_optim s) (policy s)
    (_optimizer s) (mdp_info s).

Definition with_critic (r : Regressor) (s : SAC) : SAC :=
  MkSAC (_critic_fit_params s) (_batch_size s) (_warmup_transitions s) (_tau s)
    (_target_entropy s) (_replay_memory s) r
    (_target_critic_approximator s) (_log_alpha s) (_alpha_optim s) (policy s)
    (_optimizer s) (mdp_info s).

Definition with_target_critic (r : Regressor) (s : SAC) : SAC :=
  MkSAC (_critic_fit_params s) (_batch_size s) (_warmup_transitions s) (_tau s)
    (_target_entropy s) (_replay_memory s) (_critic_approximator s)
    r (_log_alpha s) (_alpha_optim s) (policy s)
    (_optimizer s) (mdp_info s).

Definition with_alpha (log_alpha : R) (opt : adam) (s : SAC) : SAC :=
  MkSAC (_critic_fit_params s) (_batch_size s) (_warmup_transitions s) (_tau s)
    (_target_entropy s) (_replay_memory s) (_critic_approximator s)
    (_target_critic_approximator s) log_alpha opt (policy s)
    (_optimizer s) (mdp_info s).

Definition with_actor (p : SACPolicy) (opt : actor_optimizer) (s : SAC) : SAC :=
  MkSAC (_critic_fit_params s) (_batch_size s) (_warmup_transitions s) (_tau s)
    (_target_entropy s) (_replay_memory s) (_critic_approximator s)
    (_target_critic_approximator s) (_log_alpha s) (_alpha_optim s) p
    opt (mdp_info s).

(** [SAC._alpha] and [SAC._alpha_np] *)
Definition _alpha (self : SAC) : tensor :=
  torch_exp (scalar (_log_alpha self) {[ LogAlpha ]}).

Definition _alpha_np (self : SAC) : R := exp (_log_alpha self).

(** [SAC._init_target] *)
Definition _init_target (self : SAC) : outcome SAC :=
  target ←
    for_range
      (fun i target =>
         w ← get_weights (_critic_approximator self) i;
         set_weights target i w)
      (seq 0 (length (model (_critic_approximator self))))
      (_target_critic_approximator self);
  Ok (with_target_critic target self).

(** [SAC._update_target]; the arithmetic of one weight, over any
    arithmetic, is [soft_update_cell]. *)
Definition _update_target (self : SAC) : outcome SAC :=
  target ←
    for_range
      (fun i target =>
         online ← get_weights (_critic_approximator self) i;
         let critic_weights_i := np_scale (_tau self) online in
         old ← get_weights target i;
         critic_weights_i ←
           np_inplace Rplus critic_weights_i (np_scale (1 - _tau self) old);
         set_weights target i critic_weights_i)
      (seq 0 (length (model (_target_critic_approximator self))))
      (_target_critic_approximator self);
  Ok (with_target_critic target self).

(** [SAC._loss] *)
Definition _loss (self : SAC) (state : list (list R))
    (action_new log_prob : tensor) : outcome tensor :=
  q_0 ← predict_idx (_critic_approximator self) 0 state (data action_new)
         ({[ CriticWeights 0 ]} ∪ graph action_new);
  q_1 ← predict_idx (_critic_approximator self) 1 state (data action_new)
         ({[ CriticWeights 1 ]} ∪ graph action_new);
  q ← torch_min q_0 q_1;
  weighted ← t_mul (_alpha self) log_prob;
  diff ← t_sub weighted q;
  mean diff.

(** Modelled from the spec: [ReparametrizationAC._optimize_actor_parameters]
    is one step of the actor optimizer on the loss, over the weights of
    the mean and of the log-scale network. *)
Definition _optimize_actor_parameters (self : SAC) (inputs : actor_loss_inputs)
  : outcome SAC :=
  let p := policy self in
  w_mu ← get_weights (_mu_approximator p) 0;
  w_sigma ← get_weights (_sigma_approximator p) 0;
  let '(w_mu', w_sigma', opt) :=
    actor_optimizer_step (_optimizer self) inputs (w_mu, w_sigma) in
  mu ← set_weights (_mu_approximator p) 0 w_mu';
  sigma ← set_weights (_sigma_approximator p) 0 w_sigma';
  Ok (with_actor (MkSACPolicy mu sigma (_delta_a p) (_central_a p)) opt self).

(** [SAC._update_alpha]: the loss is
    [-(log_alpha * (log_prob + target_entropy)).mean()], so its gradient in
    [log_alpha] is [-(log_prob + target_entropy).mean()]. *)
Definition _update_alpha (self : SAC) (log_prob : tensor) : outcome SAC :=
  m ← mean (t_map (fun x => x + IZR (_target_entropy self)) log_prob);
  let grad := - sum_list_R (concat (data m)) in
  let '(log_alpha, opt) := adam_step (_alpha_optim self) (_log_alpha self) grad in
  Ok (with_alpha log_alpha opt self).

(** [SAC._next_q] *)
Definition _next_q (self : SAC) (next_state : list (list R))
    (absorbing : list R) (eps : noise) : outcome (list R) :=
  r ← compute_action_and_log_prob (policy self) next_state eps;
  let '(a, log_prob_next) := r in
  predicted ← predict_min (_target_critic_approximator self) next_state a;
  q ← np_binop Rminus predicted (np_scale (_alpha_np self) log_prob_next);
  np_inplace Rmult q (fmap (fun b => 1 - b) absorbing).

(** Lines 170 and 171 of [fit]: the regression target of the critic,
    [reward + gamma * q_next]. *)
Definition critic_target (self : SAC) (reward : list R)
    (next_state : list (list R)) (absorbing : list R) (eps : noise)
  : outcome (list R) :=
  q_next ← _next_q self next_state absorbing eps;
  np_binop Rplus reward (np_scale (gamma (mdp_info self)) q_next).

(** Lines 165 to 168 of [fit]: the actor and temperature updates. *)
Definition update_actor_and_alpha (self : SAC) (state : list (list R))
    (eps : noise) : outcome SAC :=
  r ← compute_action_and_log_prob_t (policy self) state true eps;
  let '(action_new, log_prob) := r in
  loss ← _loss self state action_new log_prob;
  self ← _optimize_actor_parameters self
           (ActorLossInputs state eps (model (_critic_approximator self))
              (_log_alpha self) (sum_list_R (concat (data loss))));
  _update_alpha self (detach log_prob).

(** [SAC.fit].  The store is read for the fit parameters of the critic. *)
Definition fit (h : store) (self : SAC) (dataset : list transition)
    (rnd : draws) : outcome SAC :=
  let self := with_replay_memory (rm_add (_replay_memory self) dataset) self in
  if rm_initialized (_replay_memory self) then
    let batch :=
      rm_get (_replay_memory self) (_batch_size self) (batch_seed rnd) in
    let state := fmap t_state batch in
    let action := fmap t_action batch in
    let reward := fmap t_reward batch in
    let next_state := fmap t_next_state batch in
    let absorbing := fmap t_absorbing batch in
    self ←
      (if bool_decide (_warmup_transitions self < rm_size (_replay_memory self))%Z
       then update_actor_and_alpha self state (actor_noise rnd)
       else Ok self);
    q ← critic_target self reward next_state absorbing (next_noise rnd);
    let self :=
      with_critic
        (Regressor_fit (_critic_approximator self)
           (h !!! _critic_fit_params self) state action q)
        self in
    _update_target self
  else
    Ok self.

End Agent.

(** ** SAC.__init__

    The dictionaries of the caller are passed by reference, so the
    constructor runs on the store. *)

Record init_args : Type := MkInitArgs {
  arg_mdp_info : MDPInfo;
  arg_batch_size : Z;
  arg_initial_replay_size : Z;
  arg_max_replay_size : Z;
  arg_warmup_transitions : Z;
  arg_tau : R;
  arg_lr_alpha : R;
  arg_actor_mu_params : ref;
  arg_actor_sigma_params : ref;
  arg_actor_optimizer : ref;
  arg_critic_params : ref;
  arg_critic_fit_params : option ref;
  (** seeds of the four weight initialisations *)
  seed_critic : nat;
  seed_target : nat;
  seed_mu : nat;
  seed_sigma : nat
}.

(** A new dictionary object: [dict()] or [deepcopy]. *)
Definition alloc (h : store) (d : pydict) : store * ref :=
  let l := fresh (dom h) in (<[l := d]> h, l).

(** [if k in d.keys(): assert d[k] == v  else: d[k] = v] on the dictionary
    at [l]. *)
Definition assert_or_set (h : store) (l : ref) (k : string) (v : pyval)
  : outcome store :=
  let d : pydict := h !!! l in
  match d !! k with
  | Some x => if py_eq x v then Ok h else Raise AssertionError
  | None => Ok (<[l := <[k := v]> d]> h)
  end.

Section Construction.
Context {C : Collaborators}.

(** The optimizer of the actor is built by [super().__init__], after
    [_init_target], which does not read it, from the parameters of the
    two networks of the actor, which lines 154 and 155 collect. *)
Definition SAC_init (h : store) (a : init_args) : outcome (store * SAC) :=
  let '(h, critic_fit_params) :=
    match arg_critic_fit_params a with
    | Some l => (h, l)
    | None => alloc h ∅
    end in
  dim ← of_option IndexError (action_shape (arg_mdp_info a) !! 0%nat);
  let target_entropy := (- Z.of_nat dim)%Z in
  let replay_memory :=
    rm_new (arg_initial_replay_size a) (arg_max_replay_size a) in
  h ← assert_or_set h (arg_critic_params a) "n_models" (PInt 2);
  h ← assert_or_set h (arg_critic_params a) "prediction" (PStr "min");
  let '(h, target_critic_params) := alloc h (h !!! arg_critic_params a) in
  let critic := Regressor_new (h !!! arg_critic_params a) (seed_critic a) in
  let target := Regressor_new (h !!! target_critic_params) (seed_target a) in
  let log_alpha := 0 in
  let alpha_optim := adam_new (arg_lr_alpha a) in
  let actor_mu_approximator :=
    Regressor_new (h !!! arg_actor_mu_params a) (seed_mu a) in
  let actor_sigma_approximator :=
    Regressor_new (h !!! arg_actor_sigma_params a) (seed_sigma a) in
  policy ← SACPolicy_init actor_mu_approximator actor_sigma_approximator
             (action_low (arg_mdp_info a)) (action_high (arg_mdp_info a));
  self ← _init_target
           (MkSAC critic_fit_params (arg_batch_size a)
              (arg_warmup_transitions a) (arg_tau a) target_entropy
              replay_memory critic target log_alpha alpha_optim policy
              (actor_optimizer_new (h !!! arg_actor_optimizer a))
              (arg_mdp_info a));
  _ ← network_parameters actor_mu_approximator;
  _ ← network_parameters actor_sigma_approximator;
  Ok (h, self).

End Construction.

(** ** The formulas of the specification

    What the specification says the policy, the critic target, the soft
    update and the constructor produce, cell by cell, to be compared with
    what the code above computes. *)

(** The raw sample of a row: [mu + sigma * eps] with
    [sigma = exp(log_sigma)]. *)
Definition raw_row (mu log_sigma : list R) (e : nat -> R) : list R :=
  imap (fun j p => p.1 + p.2 * e j) (zip mu (fmap exp log_sigma)).

(** [a = tanh(a_raw)], [a_true = a * half_range + center]. *)
Definition squash_row (half_range center raw : list R) : list R :=
  zip_with Rplus (zip_with Rmult (fmap tanh raw) half_range) center.

(** The density of the normal distribution of mean [m] and standard
    deviation [s]. *)
Definition normal_density (m s x : R) : R :=
  / (s * sqrt (2 * PI)) * exp (- (x - m) ^ 2 / (2 * s ^ 2)).

(** The log-density of a raw cell minus the correction of the squashing. *)
Definition log_prob_cell (m log_sigma x : R) : R :=
  ln (normal_density m (exp log_sigma) x) - ln (1 - tanh x ^ 2 + 1e-6).

(** The sum across the action dimension. *)
Definition log_prob_row (mu log_sigma raw : list R) : R :=
  sum_list_R (zip_with (fun x p => log_prob_cell p.1 p.2 x) raw (zip mu log_sigma)).

(** The cells of a row of the log-probability in the order in which the
    tensor code produces them, before they are summed. *)
Definition code_cells (mu ls raw : list R) : list R :=
  zip_with Rminus
    ((fun x => x - ln (sqrt (2 * PI))) <$>
       zip_with Rminus
         (zip_with Rdiv (Ropp <$> ((fun x => x ^ 2) <$> zip_with Rminus raw mu))
            (Rmult 2 <$> ((fun s => s ^ 2) <$> (exp <$> ls))))
         (ln <$> (exp <$> ls)))
    (ln <$> ((fun x => 1 - x ^ 2 + 1e-6) <$> (tanh <$> raw))).


(** The soft update of one member in the words of the specification:
    [tau * online + (1 - tau) * target], weight by weight. *)
Definition soft_update (tau : R) (online target : list R) : list R :=
  zip_with (fun o t => tau * o + (1 - tau) * t) online target.

(** Two ensembles are aligned when they have as many members and the
    members have as many weights, as the ensembles of one architecture
    have. *)
Definition aligned (online target : list (list R)) : Prop :=
  Forall2 (fun a b => length a = length b) online target.

(** The dictionary [d] with the two keys of the critic forced. *)
Definition forced (d : pydict) : pydict :=
  <["prediction"%string := PStr "min"]> (<["n_models"%string := PInt 2]> d).

(** The dictionary at [l] is a live dictionary of the caller, another
    object than the one at [lc], that asks for a single network. *)
Definition single_network (h : store) (lc l : ref) : Prop :=
  is_Some (h !! l) /\ l <> lc /\ n_models (h !!! l) = 1%nat.

(** The dictionary [d] has key [k] with a value other than [v]. *)
Definition violates (k : string) (v : pyval) (d : pydict) : Prop :=
  exists x, d !! k = Some x /\ x <> v.

(** The networks of the policy fit a batch: both have a weight vector and
    return [d] numbers on every state of the batch. *)
Definition networks_shaped {C : Collaborators} (mu sigma : Regressor)
    (state : list (list R)) (w_mu w_sigma : list R) (d : nat) : Prop :=
  model mu !! 0%nat = Some w_mu /\
  model sigma !! 0%nat = Some w_sigma /\
  Forall (fun s => length (forward (params mu) w_mu s) = d /\
                   length (forward (params sigma) w_sigma s) = d) state.

(** The policy is well shaped for a batch: its networks fit the batch and
    the bounds have as many components as an action. *)
Definition well_shaped {C : Collaborators} (p : SACPolicy)
    (state : list (list R)) (w_mu w_sigma half_range center : list R) : Prop :=
  networks_shaped (_mu_approximator p) (_sigma_approximator p) state
    w_mu w_sigma (length half_range) /\
  data (_delta_a p) = [half_range] /\
  data (_central_a p) = [center] /\
  length center = length half_range.

(** ** A small instance of the collaborators

    One-weight networks, used to run the agent on concrete inputs: the
    mean and log-scale networks return their weights, the critic returns
    its weight, a regression step moves the weight half of the way to the
    first target, the optimizers are plain gradient steps, and the replay
    memory is a bounded list sampled from its front. *)

Record list_memory : Type := MkListMemory {
  initial_size : Z;
  max_size : Z;
  buffer : list transition
}.

Definition list_memory_add (m : list_memory) (dataset : list transition)
  : list_memory :=
  let all := buffer m ++ dataset in
  MkListMemory (initial_size m) (max_size m)
    (drop (length all - Z.to_nat (max_size m)) all).

Definition half_step (w : list R) (target : list R) : list R :=
  match w, target with
  | [w0], t :: _ => [w0 + (t - w0) / 2]
  | _, _ => w
  end.

Definition small_collaborators : Collaborators := {|
  init_weights := fun _ seed => [INR seed];
  forward := fun _ w _ => w;
  q_value := fun _ w _ _ => sum_list_R w;
  fit_member := fun _ _ w _ _ target => half_step w target;
  actor_optimizer := unit;
  actor_optimizer_new := fun _ => tt;
  actor_optimizer_step := fun _ inputs w =>
    (fmap (fun x => x - li_loss inputs) w.1, w.2, tt);
  adam := R;
  adam_new := fun lr => lr;
  adam_step := fun lr p g => (p - lr * g, lr);
  memory := list_memory;
  rm_new := fun initial maximum => MkListMemory initial maximum [];
  rm_add := list_memory_add;
  rm_initialized := fun m =>
    bool_decide (initial_size m < Z.of_nat (length (buffer m)))%Z;
  rm_size := fun m => Z.of_nat (length (buffer m));
  rm_get := fun m n _ => take (Z.to_nat n) (buffer m)
|}.

(** ** Concrete inputs *)

Definition example_mu : Regressor := MkRegressor ∅ [[1]].

Definition example_sigma : Regressor := MkRegressor ∅ [[0]].

(** The policy the constructor builds from [example_mu], [example_sigma]
    and the bounds [-1] and [1]. *)
Definition example_policy : SACPolicy :=
  MkSACPolicy example_mu example_sigma
    (from_numpy (np_scale 0.5 (zip_with Rminus [1] [-1])))
    (from_numpy (np_scale 0.5 (zip_with Rplus [1] [-1]))).

Definition example_state : list (list R) := [[0]; [2]].

Definition example_noise : noise := fun i j => INR i.

(** A transition into an absorbing state, with reward 0. *)
Definition terminal_transition : transition := Transition [0] [0] 0 [0] 1 1.

(** A transition with reward 1 into a state that is not absorbing. *)
Definition rewarded_transition : transition := Transition [0] [0] 1 [0] 0 0.

Definition example_draws : draws := MkDraws 0 example_noise example_noise.

(** An agent over the small collaborators whose critic weights are all
    zero: batches of one transition, a replay memory that holds [stored]
    and is initialized above [initial_size] transitions, a warm-up of 10
    transitions, and the fit parameters of [example_store]. *)
Definition example_agent (initial_size : Z) (tau : R) (stored : list transition)
  : SAC (C := small_collaborators) :=
  MkSAC (C := small_collaborators) 5%positive 1 10 tau (-1)
    (MkListMemory initial_size 100 stored)
    (MkRegressor ∅ [[0]; [0]]) (MkRegressor ∅ [[0]; [0]])
    0 0.0003 example_policy tt (MkMDPInfo [-1] [1] 0.99).

(** An agent in warm-up with [tau = 1/2] whose memory holds an absorbing
    transition of reward 0. *)
Definition quiet_agent : SAC (C := small_collaborators) :=
  example_agent 0 (1 / 2) [terminal_transition].

(** An agent in warm-up with [tau = 0]. *)
Definition frozen_agent : SAC (C := small_collaborators) :=
  example_agent 0 0 [rewarded_transition].

(** A transition with reward 1 into an absorbing state. *)
Definition paying_terminal_transition : transition :=
  Transition [0] [0] 1 [0] 1 1.

(** An agent whose replay memory is one transition short of being
    initialized. *)
Definition filling_agent : SAC (C := small_collaborators) :=
  example_agent 1 (1 / 2) [paying_terminal_transition].

(** An agent in warm-up whose replay memory holds as many transitions as
    the warm-up lasts, and draws whose actor noise is -1 everywhere, which
    puts the raw sample of [example_policy] at 0. *)
Definition crossing_agent : SAC (C := small_collaborators) :=
  example_agent 0 (1 / 2) (replicate 10 terminal_transition).

Definition crossing_draws : draws := MkDraws 0 (fun _ _ => -1) example_noise.

(** A store with the five dictionaries of a caller: the parameters of the
    critic (without ["n_models"] and ["prediction"]), of the mean network,
    of the log-scale network, of the actor optimizer and of the fit of the
    critic. *)
Definition example_store : store :=
  {[ 1%positive := {[ "network"%string := PObj 1; "output_shape"%string := PInt 1 ]};
     2%positive := {[ "network"%string := PObj 2 ]};
     3%positive := {[ "network"%string := PObj 3 ]};
     4%positive := {[ "class"%string := PObj 4 ]};
     5%positive := ∅ ]}.

Definition example_args : init_args :=
  MkInitArgs (MkMDPInfo [-1] [1] 0.99) 1 0 100 10 (1 / 2) 0.0003
    2 3 4 1 None 7 11 1 0.

(** The same caller with ["n_models"] set to 3. *)
Definition three_models_store : store :=
  <[ 1%positive := {[ "n_models"%string := PInt 3 ]} ]> example_store.

(** ** The temperature loss and repeated soft updates *)

Section Compositions.
Context {C : Collaborators}.

(** Line 198 of [_update_alpha]: the loss of the temperature,
    [-(log_alpha * (log_prob + target_entropy)).mean()], at a value of
    [log_alpha]. *)
Definition alpha_loss (self : SAC) (log_alpha : R) (log_prob : tensor)
  : outcome tensor :=
  prod ← t_mul (scalar log_alpha {[ LogAlpha ]})
            (t_map (fun x => x + IZR (_target_entropy self)) log_prob);
  m ← mean prod;
  Ok (t_map Ropp m).

(** [n] calls of [_update_target] in a row. *)
Fixpoint soft_updates (n : nat) (self : SAC) : outcome SAC :=
  match n with
  | O => Ok self
  | S n' => self ← _update_target self; soft_updates n' self
  end.

End Compositions.

(** A target member whose distance to the online member was multiplied
    [n] times by [1 - tau]. *)
Definition decayed (tau : R) (n : nat) (online target : list R) : list R :=
  zip_with (fun o t => o + (1 - tau) ^ n * (t - o)) online target.

(** The log-probability of a row in terms of the noise that produced the
    raw sample: the normal part is [- e^2 / 2 - log_sigma - ln (sqrt (2 pi))]. *)
Definition log_prob_of_noise (mu log_sigma : list R) (e : nat -> R) : R :=
  sum_list_R
    (imap (fun j p =>
             - e j ^ 2 / 2 - p.2 - ln (sqrt (2 * PI))
             - ln (1 - tanh (p.1 + exp p.2 * e j) ^ 2 + 1e-6))
          (zip mu log_sigma)).

(** The configuration of an agent: the hyper-parameters, the reference to
    the fit parameters of the critic, the bounds kept by the policy, the
    parameters the four approximators were built from and their numbers
    of members. *)
Definition same_configuration {C : Collaborators} (self self' : SAC) : Prop :=
  _batch_size self' = _batch_size self /\
  _warmup_transitions self' = _warmup_transitions self /\
  _tau self' = _tau self /\
  _target_entropy self' = _target_entropy self /\
  mdp_info self' = mdp_info self /\
  _critic_fit_params self' = _critic_fit_params self /\
  _delta_a (policy self') = _delta_a (policy self) /\
  _central_a (policy self') = _central_a (policy self) /\
  Forall2 (fun r' r => params r' = params r /\
                       length (model r') = length (model r))
    [_critic_approximator self'; _target_critic_approximator self';
     _mu_approximator (policy self'); _sigma_approximator (policy self')]
    [_critic_approximator self; _target_critic_approximator self;
     _mu_approximator (policy self); _sigma_approximator (policy self)].

(** Lines 123 to 131 of [SAC.__init__] together with the store they leave
    behind, which is the store a caller that catches the [AssertionError]
    goes on with: a failing [assert] changes no dictionary. *)
Definition checked_critic_params (h : store) (l : ref) : store * outcome unit :=
  match assert_or_set h l "n_models" (PInt 2) with
  | Ok h1 =>
      match assert_or_set h1 l "prediction" (PStr "min") with
      | Ok h2 => (h2, Ok ())
      | Raise e => (h1, Raise e)
      | NonFinite => (h1, NonFinite)
      end
  | Raise e => (h, Raise e)
  | NonFinite => (h, NonFinite)
  end.

(** The caller of [example_store] with ["prediction"] set to ["max"] and
    no ["n_models"]. *)
Definition wrong_prediction_store : store :=
  <[ 1%positive := {[ "prediction"%string := PStr "max" ]} ]> example_store.

(** The caller of [example_args] passing the dictionary of the critic as
    the dictionary of the mean network too. *)
Definition shared_args : init_args :=
  MkInitArgs (MkMDPInfo [-1] [1] 0.99) 1 0 100 10 (1 / 2) 0.0003
    1 3 4 1 None 7 11 1 0.

(** ** The cell arithmetic, over the reals and in floating point

    The arithmetic of one cell of the lines of the policy and of the soft
    update, over any arithmetic: the embedding above is its reading over
    the reals, what torch and numpy compute is its reading over a
    floating-point format, single precision for the tensors of the
    networks and the weights, double precision for the arrays numpy
    builds from Python numbers. *)

Record arithmetic : Type := Arithmetic {
  num : Type;
  n_add : num -> num -> num;
  n_sub : num -> num -> num;
  n_mul : num -> num -> num;
  n_div : num -> num -> num;
  n_opp : num -> num;
  (** The number of the arithmetic for a constant of the program, given
      as a ratio of two integers: the nearest one. *)
  n_ratio : Z -> Z -> num
}.

Definition real_arithmetic : arithmetic :=
  Arithmetic R Rplus Rminus Rmult Rdiv Ropp (fun p q => IZR p / IZR q).

(** A binary floating-point format of IEEE 754: the number of bits of the
    significand and the bound of the exponent. *)
Record format : Set := Format {
  precision : Z;
  exponent_max : Z
}.

Definition binary32 : format := Format 24 128.

Definition binary64 : format := Format 53 1024.

(** The number of a format nearest to an integer. *)
Definition float_of_Z (f : format) (z : Z) : spec_float :=
  binary_normalize (precision f) (exponent_max f) z 0 false.

(** The arithmetic of a format: every operation is rounded to the nearest
    number of the format, it overflows to an infinity, and it gives a
    NaN where IEEE 754 does (an infinity divided by an infinity). *)
Definition ieee (f : format) : arithmetic :=
  Arithmetic spec_float
    (SFadd (precision f) (exponent_max f))
    (SFsub (precision f) (exponent_max f))
    (SFmul (precision f) (exponent_max f))
    (SFdiv (precision f) (exponent_max f))
    SFopp
    (fun p q => SFdiv (precision f) (exponent_max f)
                  (float_of_Z f p) (float_of_Z f q)).

Section CellArithmetic.
Variable A : arithmetic.

(** Lines 42 and 43: [0.5*(max_a - min_a)] and [0.5*(max_a + min_a)]. *)
Definition delta_cell (min_a max_a : num A) : num A :=
  n_mul A (n_ratio A 1 2) (n_sub A max_a min_a).

Definition central_cell (min_a max_a : num A) : num A :=
  n_mul A (n_ratio A 1 2) (n_add A max_a min_a).

(** Line 60: [a*self._delta_a + self._central_a]. *)
Definition rescale_cell (a min_a max_a : num A) : num A :=
  n_add A (n_mul A a (delta_cell min_a max_a)) (central_cell min_a max_a).

(** The raw sample: [loc + scale * eps]. *)
Definition raw_cell (loc scale eps : num A) : num A :=
  n_add A loc (n_mul A scale eps).

(** [Normal.log_prob], given the two logarithms it takes:
    [-((value - loc) ** 2) / (2 * var) - log_scale - log(sqrt(2 * pi))]
    with [var = scale ** 2]. *)
Definition normal_log_prob_cell
    (value loc scale log_scale log_sqrt_2pi : num A) : num A :=
  let var := n_mul A scale scale in
  let diff := n_sub A value loc in
  n_sub A
    (n_sub A
       (n_div A (n_opp A (n_mul A diff diff)) (n_mul A (n_ratio A 2 1) var))
       log_scale)
    log_sqrt_2pi.

(** Line 64: the argument of the logarithm, [1. - a.pow(2) + 1e-6], and
    the same without the stabilizer. *)
Definition correction_argument (a : num A) : num A :=
  n_add A (n_sub A (n_ratio A 1 1) (n_mul A a a)) (n_ratio A 1 1000000).

Definition unstabilized_argument (a : num A) : num A :=
  n_sub A (n_ratio A 1 1) (n_mul A a a).

(** Lines 63 and 64: the log-probability of one cell, given the
    logarithms. *)
Definition log_prob_cell_of
    (value loc scale log_scale log_sqrt_2pi log_correction : num A) : num A :=
  n_sub A (normal_log_prob_cell value loc scale log_scale log_sqrt_2pi)
    log_correction.

(** Lines 209 and 210: [tau * online + (1 - tau) * target], where Python
    computes [1 - tau] before numpy sees it. *)
Definition soft_update_cell (tau one_minus_tau online target : num A) : num A :=
  n_add A (n_mul A tau online) (n_mul A one_minus_tau target).

End CellArithmetic.

(** The single-precision number nearest to [e^50], which is what the
    exponential of a log-scale of 50 is in single precision:
    9209887 * 2^49, about 5.1847e21. *)
Definition exp_50_single : spec_float := S754_finite false 9209887 49.

(** An agent over the small collaborators whose target critic is away from
    its online critic: online weights 2 and 4, target weights 0 and 10,
    [tau = 1/2]. *)
Definition drifted_agent : SAC (C := small_collaborators) :=
  with_target_critic (MkRegressor ∅ [[0]; [10]])
    (with_critic (MkRegressor ∅ [[2]; [4]]) (example_agent 0 (1 / 2) [])).

(** * Properties *)

#[local] Arguments pow : simpl never.

(** ** Outcomes, loops over lists and broadcasting *)

Lemma tanh_bounds x : -1 < tanh x < 1.
Proof.
  unfold tanh, sinh, cosh.
  pose proof (exp_pos x) as Hp. pose proof (exp_pos (- x)) as Hn.
  set (c := (exp x + exp (- x)) / 2).
  assert (Hc : 0 < c) by (unfold c; lra).
  assert (E : (exp x - exp (- x)) / 2 / c * c = (exp x - exp (- x)) / 2)
    by (field; lra).
  split; apply Rmult_lt_reg_r with c; try exact Hc; rewrite E; unfold c; lra.
Qed.

Lemma for_each_imap {A B X} (F : A -> outcome B) (f : nat -> X -> A)
    (g : nat -> X -> B) (l : list X) :
  (forall i s, l !! i = Some s -> F (f i s) = Ok (g i s)) ->
  for_each F (imap f l) = Ok (imap g l).
Proof.
  revert f g. induction l as [|x l IH]; intros f g H; [reflexivity|].
  simpl. rewrite (H 0%nat x eq_refl). simpl.
  rewrite (IH (f ∘ S) (g ∘ S)); [reflexivity|].
  intros i s Hi. apply (H (S i)). exact Hi.
Qed.

Lemma zip_imap {A B X} (f : nat -> X -> A) (g : nat -> X -> B) (l : list X) :
  zip (imap f l) (imap g l) = imap (fun i s => (f i s, g i s)) l.
Proof.
  revert f g. induction l as [|x l IH]; intros f g; [reflexivity|].
  simpl. f_equal. apply IH.
Qed.

Lemma bcast2_imap {A B D X} (F : A -> B -> outcome D) (f1 : nat -> X -> A)
    (f2 : nat -> X -> B) (g : nat -> X -> D) (l : list X) :
  (forall i s, l !! i = Some s -> F (f1 i s) (f2 i s) = Ok (g i s)) ->
  bcast2 F (imap f1 l) (imap f2 l) = Ok (imap g l).
Proof.
  intros H. unfold bcast2. rewrite !length_imap.
  destruct (decide (length l = length l)) as [_|n]; [|congruence].
  rewrite zip_imap. apply for_each_imap. exact H.
Qed.

Lemma bcast_into_imap {A B X} (F : A -> B -> outcome A) (f1 : nat -> X -> A)
    (f2 : nat -> X -> B) (g : nat -> X -> A) (l : list X) :
  (forall i s, l !! i = Some s -> F (f1 i s) (f2 i s) = Ok (g i s)) ->
  bcast_into F (imap f1 l) (imap f2 l) = Ok (imap g l).
Proof.
  intros H. unfold bcast_into. rewrite !length_imap.
  destruct (decide (length l = length l)) as [_|n]; [|congruence].
  rewrite zip_imap. apply for_each_imap. exact H.
Qed.

Lemma bcast2_single {A B D} (F : A -> B -> outcome D) (x : list A) (v : B) :
  bcast2 F x [v] = for_each (fun a => F a v) x.
Proof.
  unfold bcast2. destruct (decide (length x = length [v])) as [e|n].
  - destruct x as [|a [|a' x]]; simpl in e; try discriminate. reflexivity.
  - destruct x as [|a [|a' x]]; reflexivity.
Qed.

Lemma bcast2_imap_row {A B D X} (F : A -> B -> outcome D) (f1 : nat -> X -> A)
    (v : B) (g : nat -> X -> D) (l : list X) :
  (forall i s, l !! i = Some s -> F (f1 i s) v = Ok (g i s)) ->
  bcast2 F (imap f1 l) [v] = Ok (imap g l).
Proof.
  intros H. rewrite bcast2_single. apply for_each_imap. exact H.
Qed.

Lemma for_each_pure {A B} (g : A -> B) (l : list A) :
  for_each (fun a => Ok (g a)) l = Ok (fmap g l).
Proof. induction l as [|a l IH]; simpl; [|rewrite IH]; reflexivity. Qed.

Lemma bind_Ok_inv {A B} (m : outcome A) (f : A -> outcome B) (b : B) :
  (a ← m; f a) = Ok b -> exists a, m = Ok a /\ f a = Ok b.
Proof. destruct m as [a| |]; try discriminate. intros H. eauto. Qed.

Lemma for_each_fmap {A B X} (F : A -> outcome B) (f : X -> A) (g : X -> B)
    (l : list X) :
  (forall x, F (f x) = Ok (g x)) -> for_each F (f <$> l) = Ok (g <$> l).
Proof.
  intros H. induction l as [|x l IH]; [reflexivity|].
  cbn [fmap list_fmap for_each]. rewrite H. cbn [mbind outcome_bind].
  rewrite IH. reflexivity.
Qed.

Lemma for_each_Forall {A B} (F : A -> outcome B) (g : A -> B) (l : list A) :
  Forall (fun a => F a = Ok (g a)) l -> for_each F l = Ok (fmap g l).
Proof.
  induction 1 as [|a l Ha _ IH]; simpl; [reflexivity|].
  rewrite Ha. simpl. rewrite IH. reflexivity.
Qed.

Lemma bcast2_Forall2 {A B D} (F : A -> B -> outcome D) (g : A -> B -> D)
    (x : list A) (y : list B) :
  Forall2 (fun a b => F a b = Ok (g a b)) x y ->
  bcast2 F x y = Ok (zip_with g x y).
Proof.
  intros H. unfold bcast2.
  rewrite decide_True by (eapply Forall2_length; exact H).
  induction H as [|a b x y Hab _ IH]; simpl; [reflexivity|].
  rewrite Hab. simpl. rewrite IH. reflexivity.
Qed.

Lemma bcast2_pure {A B D} (g : A -> B -> D) (x : list A) (y : list B) :
  length x = length y -> bcast2 (pure2 g) x y = Ok (zip_with g x y).
Proof.
  intros H. apply bcast2_Forall2. apply Forall2_same_length_lookup_2; [exact H|].
  reflexivity.
Qed.

Lemma bcast_into_Forall2 {A B} (F : A -> B -> outcome A) (g : A -> B -> A)
    (x : list A) (y : list B) :
  Forall2 (fun a b => F a b = Ok (g a b)) x y ->
  bcast_into F x y = Ok (zip_with g x y).
Proof.
  intros H. unfold bcast_into.
  rewrite decide_True by (eapply Forall2_length; exact H).
  induction H as [|a b x y Hab _ IH]; simpl; [reflexivity|].
  rewrite Hab. simpl. rewrite IH. reflexivity.
Qed.

(** ** The primitives on small inputs *)

Example broadcast_one : np_binop Rplus [1; 2] [10] = Ok [1 + 10; 2 + 10].
Proof. reflexivity. Qed.

Example broadcast_mismatch : np_binop Rplus [1; 2] [1; 2; 3] = Raise ValueError.
Proof. reflexivity. Qed.

Example inplace_cannot_grow : np_inplace Rmult [5] [1; 2] = Raise ValueError.
Proof. reflexivity. Qed.

Example bool_is_an_int : py_eq (PBool true) (PInt 1) = true.
Proof. reflexivity. Qed.

Example int_is_no_string : py_eq (PInt 2) (PStr "2") = false.
Proof. reflexivity. Qed.

Example log_of_zero : log_checked 0 = NonFinite.
Proof. unfold log_checked. destruct (Rlt_dec 0 0); [lra|reflexivity]. Qed.

Example mean_of_nothing : mean (Tensor [] ∅) = NonFinite.
Proof.
  unfold mean, div_checked. simpl.
  destruct (Req_dec_T 0 0); [reflexivity|contradiction].
Qed.

(** ** Tensors whose rows are indexed by a batch *)

Lemma map_imap {A B X} (h : A -> B) (f : nat -> X -> A) (l : list X) :
  fmap h (imap f l) = imap (fun i s => h (f i s)) l.
Proof.
  revert f. induction l as [|x l IH]; intros f; [reflexivity|].
  simpl. f_equal. apply IH.
Qed.

Lemma imap_imap {A B X} (h : nat -> A -> B) (f : nat -> X -> A) (l : list X) :
  imap h (imap f l) = imap (fun i s => h i (f i s)) l.
Proof.
  revert f h. induction l as [|x l IH]; intros f h; [reflexivity|].
  simpl. f_equal. apply IH.
Qed.

Lemma map_as_imap {A X} (f : X -> A) (l : list X) :
  fmap f l = imap (fun _ s => f s) l.
Proof. induction l as [|x l IH]; [reflexivity|]. simpl. f_equal. exact IH. Qed.

Section TensorLemmas.

Lemma t_map_imap {X} (f : R -> R) (r : nat -> X -> list R) (l : list X) g :
  t_map f (Tensor (imap r l) g) = Tensor (imap (fun i s => fmap f (r i s)) l) g.
Proof. unfold t_map. simpl. rewrite map_imap. reflexivity. Qed.

Lemma t_check_imap {X} (f : R -> outcome R) (r r' : nat -> X -> list R)
    (l : list X) g :
  (forall i s, l !! i = Some s -> for_each f (r i s) = Ok (r' i s)) ->
  t_check f (Tensor (imap r l) g) = Ok (Tensor (imap r' l) g).
Proof.
  intros H. unfold t_check. simpl.
  rewrite (for_each_imap _ _ r' l H). reflexivity.
Qed.

Lemma t_binop_imap {X} (f : R -> R -> outcome R) (r1 r2 r' : nat -> X -> list R)
    (l : list X) g1 g2 :
  (forall i s, l !! i = Some s -> bcast2 f (r1 i s) (r2 i s) = Ok (r' i s)) ->
  t_binop f (Tensor (imap r1 l) g1) (Tensor (imap r2 l) g2)
  = Ok (Tensor (imap r' l) (g1 ∪ g2)).
Proof.
  intros H. unfold t_binop. simpl.
  rewrite (bcast2_imap _ _ _ r' l H). reflexivity.
Qed.

Lemma t_binop_imap_row {X} (f : R -> R -> outcome R) (r1 r' : nat -> X -> list R)
    (v : list R) (l : list X) g1 (t : tensor) :
  data t = [v] ->
  (forall i s, l !! i = Some s -> bcast2 f (r1 i s) v = Ok (r' i s)) ->
  t_binop f (Tensor (imap r1 l) g1) t
  = Ok (Tensor (imap r' l) (g1 ∪ graph t)).
Proof.
  intros E H. unfold t_binop. simpl. rewrite E.
  rewrite (bcast2_imap_row _ _ _ r' l H). reflexivity.
Qed.

Lemma t_inplace_imap {X} (f : R -> R -> outcome R) (r1 r2 r' : nat -> X -> list R)
    (l : list X) g1 g2 :
  (forall i s, l !! i = Some s -> bcast_into f (r1 i s) (r2 i s) = Ok (r' i s)) ->
  t_inplace f (Tensor (imap r1 l) g1) (Tensor (imap r2 l) g2)
  = Ok (Tensor (imap r' l) (g1 ∪ g2)).
Proof.
  intros H. unfold t_inplace. simpl.
  rewrite (bcast_into_imap _ _ _ r' l H). reflexivity.
Qed.

End TensorLemmas.

Lemma bcast2_fst {A B} (x : list A) (y : list B) :
  length x = length y -> bcast2 (fun a _ => Ok a) x y = Ok x.
Proof.
  intros H. rewrite (bcast2_Forall2 _ (fun a _ => a)).
  - f_equal. revert y H. induction x as [|a x IH]; intros [|b y] H;
      simpl in *; try discriminate; [reflexivity|]. f_equal. apply IH. lia.
  - apply Forall2_same_length_lookup_2; [exact H|]. reflexivity.
Qed.

Lemma bcast2_snd {A B} (x : list A) (y : list B) :
  length x = length y -> bcast2 (fun _ b => Ok b) x y = Ok y.
Proof.
  intros H. rewrite (bcast2_Forall2 _ (fun _ b => b)).
  - f_equal. revert y H. induction x as [|a x IH]; intros [|b y] H;
      simpl in *; try discriminate; [reflexivity|]. f_equal. apply IH. lia.
  - apply Forall2_same_length_lookup_2; [exact H|]. reflexivity.
Qed.


(** ** Running the policy on a well-shaped batch *)

(** The two steps from the raw sample to the action: [tanh], then the
    product with the half range and the sum with the center, both
    broadcast over the rows. *)
Ltac squash_steps Hd Hc Hraw :=
  unfold torch_tanh; rewrite t_map_imap; unfold t_mul;
  erewrite (t_binop_imap_row _ _ _ _ _ _ _ Hd);
  [|intros ? ? ?; apply bcast2_pure; rewrite length_fmap; auto];
  simpl; unfold t_add;
  erewrite (t_binop_imap_row _ _ _ _ _ _ _ Hc);
  [|let Hi := fresh in
    intros ? ? Hi; apply bcast2_pure;
    rewrite length_zip_with, length_fmap, (Hraw _ _ Hi); lia];
  simpl.

Section PolicyExec.
Context {C : Collaborators}.

Lemma get_weights_lookup (r : Regressor) i w :
  model r !! i = Some w -> get_weights r i = Ok w.
Proof. unfold get_weights. intros ->. reflexivity. Qed.

Lemma length_raw_row mu ls e :
  length mu = length ls -> length (raw_row mu ls e) = length mu.
Proof.
  intros H. unfold raw_row. rewrite length_imap, length_zip, length_fmap. lia.
Qed.

Variables (p : SACPolicy) (state : list (list R)).
Variables (w_mu w_sigma half_range center : list R).
Hypothesis Hshape : well_shaped p state w_mu w_sigma half_range center.

Let fmu := forward (params (_mu_approximator p)) w_mu.
Let fls := forward (params (_sigma_approximator p)) w_sigma.

Lemma shape_rows i s :
  state !! i = Some s ->
  length (fmu s) = length half_range /\ length (fls s) = length half_range.
Proof.
  intros Hi. destruct Hshape as ((_ & _ & HF) & _).
  rewrite Forall_lookup in HF. exact (HF i s Hi).
Qed.

Lemma distribution_exec :
  distribution p state =
  Ok (MkNormal (Tensor (imap (fun _ s => fmu s) state) {[ MuWeights ]})
               (Tensor (imap (fun _ s => fmap exp (fls s)) state) {[ SigmaWeights ]})).
Proof.
  destruct Hshape as ((Hm & Hs & _) & _).
  unfold distribution, predict_tensor.
  rewrite (get_weights_lookup _ _ _ Hm), (get_weights_lookup _ _ _ Hs). simpl.
  unfold Normal_new, torch_exp, t_map. simpl.
  rewrite !(map_as_imap _ state), map_imap.
  rewrite (bcast2_imap (bcast2 (fun a _ => Ok a)) _ _ (fun _ s => fmu s)).
  2:{ intros i s Hi. apply bcast2_fst. rewrite length_fmap.
      destruct (shape_rows i s Hi). fold fmu fls. lia. }
  simpl.
  rewrite (bcast2_imap (bcast2 (fun _ b => Ok b)) _ _ (fun _ s => fmap exp (fls s))).
  2:{ intros i s Hi. apply bcast2_snd. rewrite length_fmap.
      destruct (shape_rows i s Hi). fold fmu fls. lia. }
  cbn [mbind outcome_bind].
  rewrite (for_each_imap (for_each validate_positive) _
             (fun _ s => fmap exp (fls s))).
  2:{ intros i s _. rewrite (for_each_fmap _ _ exp); [reflexivity|].
      intros x. unfold validate_positive.
      destruct (Rlt_dec 0 (exp x)) as [|n]; [reflexivity|].
      exfalso. apply n. apply exp_pos. }
  reflexivity.
Qed.

Lemma sample_exec eps :
  Normal_sample
    (MkNormal (Tensor (imap (fun _ s => fmu s) state) {[ MuWeights ]})
              (Tensor (imap (fun _ s => fmap exp (fls s)) state) {[ SigmaWeights ]}))
    eps
  = Tensor (imap (fun i s => raw_row (fmu s) (fls s) (eps i)) state) ∅.
Proof.
  unfold Normal_sample. simpl. rewrite zip_imap, imap_imap. reflexivity.
Qed.

(** With [rsample()] in the place of [sample()] the raw sample would be
    attached to the weights of both networks. *)
Lemma rsample_is_attached eps :
  graph (Normal_rsample
           (MkNormal (Tensor (imap (fun _ s => fmu s) state) {[ MuWeights ]})
                     (Tensor (imap (fun _ s => exp <$> fls s) state) {[ SigmaWeights ]}))
           eps)
  = {[ MuWeights; SigmaWeights ]}.
Proof. reflexivity. Qed.

Lemma for_each_log (l : list R) :
  Forall (fun a => 0 < a) l -> for_each log_checked l = Ok (ln <$> l).
Proof.
  intros H. apply for_each_Forall. eapply Forall_impl; [exact H|].
  intros a Ha. unfold log_checked. destruct (Rlt_dec 0 a); [reflexivity|lra].
Qed.

Lemma bcast2_div (x y : list R) :
  length x = length y -> Forall (fun b => b <> 0) y ->
  bcast2 div_checked x y = Ok (zip_with Rdiv x y).
Proof.
  intros Hl Hy. apply bcast2_Forall2.
  apply Forall2_same_length_lookup_2; [exact Hl|].
  intros i a b _ Hb. rewrite Forall_lookup in Hy. specialize (Hy i b Hb).
  unfold div_checked. destruct (Req_dec_T b 0); [contradiction|reflexivity].
Qed.

Lemma policy_exec eps :
  compute_action_and_log_prob_t p state true eps =
  Ok (Tensor (imap (fun i s => squash_row half_range center
                                 (raw_row (fmu s) (fls s) (eps i))) state)
             (∅ ∪ graph (_delta_a p) ∪ graph (_central_a p)),
      Tensor (imap (fun i s => [sum_list_R (code_cells (fmu s) (fls s)
                                 (raw_row (fmu s) (fls s) (eps i)))]) state)
             {[ MuWeights; SigmaWeights ]}).
Proof.
  unfold compute_action_and_log_prob_t.
  rewrite distribution_exec. simpl. rewrite sample_exec.
  destruct Hshape as (_ & Hd & Hc & Hlen).
  assert (Hraw : forall i s, state !! i = Some s ->
            length (raw_row (fmu s) (fls s) (eps i)) = length half_range).
  { intros i s Hi. destruct (shape_rows i s Hi).
    rewrite length_raw_row; lia. }
  squash_steps Hd Hc Hraw.
  unfold Normal_log_prob. simpl.
  unfold torch_log, t_sub, t_div.
  erewrite t_check_imap.
  2:{ intros i s Hi. apply for_each_log. apply Forall_fmap, Forall_forall.
      intros x _. apply exp_pos. }
  simpl.
  erewrite t_binop_imap.
  2:{ intros i s Hi. apply bcast2_pure. destruct (shape_rows i s Hi).
      rewrite (Hraw i s Hi). lia. }
  simpl. rewrite !t_map_imap.
  erewrite t_binop_imap.
  2:{ intros i s Hi. destruct (shape_rows i s Hi). apply bcast2_div.
      - rewrite !length_fmap, length_zip_with, (Hraw i s Hi). lia.
      - rewrite <- !list_fmap_compose. apply Forall_fmap, Forall_forall.
        intros x _. simpl. pose proof (exp_pos x). nra. }
  simpl.
  erewrite t_binop_imap.
  2:{ intros i s Hi. destruct (shape_rows i s Hi). apply bcast2_pure.
      rewrite length_zip_with, !length_fmap, length_zip_with, (Hraw i s Hi). lia. }
  simpl. rewrite !t_map_imap.
  erewrite t_check_imap.
  2:{ intros i s Hi. apply for_each_log.
      rewrite <- list_fmap_compose. apply Forall_fmap, Forall_forall.
      intros x _. simpl. pose proof (tanh_bounds x). nra. }
  simpl.
  erewrite t_inplace_imap.
  2:{ intros i s Hi. destruct (shape_rows i s Hi). apply bcast_into_Forall2.
      apply Forall2_same_length_lookup_2; [|reflexivity].
      rewrite !length_fmap, length_zip_with, length_zip_with, !length_fmap,
        length_zip_with, (Hraw i s Hi). lia. }
  simpl. unfold sum_dim1_keepdim. simpl. rewrite map_imap.
  apply f_equal, f_equal2; [reflexivity|]. apply f_equal. set_solver.
Qed.

Lemma action_exec (b : bool) eps :
  exists r, compute_action_and_log_prob_t p state b eps = Ok r /\
    returned_action r =
      Tensor (imap (fun i s => squash_row half_range center
                                 (raw_row (fmu s) (fls s) (eps i))) state)
             (∅ ∪ graph (_delta_a p) ∪ graph (_central_a p)).
Proof.
  destruct b.
  - eexists. split; [apply policy_exec|]. reflexivity.
  - unfold compute_action_and_log_prob_t.
    rewrite distribution_exec. simpl. rewrite sample_exec.
    destruct Hshape as (_ & Hd & Hc & Hlen).
    assert (Hraw : forall i s, state !! i = Some s ->
              length (raw_row (fmu s) (fls s) (eps i)) = length half_range).
    { intros i s Hi. destruct (shape_rows i s Hi).
      rewrite length_raw_row; lia. }
    squash_steps Hd Hc Hraw.
    eexists. split; reflexivity.
Qed.

End PolicyExec.

(** ** The log-density and the bounds of a squashed row *)

Lemma correction_argument_positive (a : R) :
  -1 <= a <= 1 -> 1e-6 <= 1 - a ^ 2 + 1e-6.
Proof. intros [H1 H2]. nra. Qed.

Lemma ln_normal_density (m ls x : R) :
  ln (normal_density m (exp ls) x)
  = - (x - m) ^ 2 / (2 * exp ls ^ 2) - ln (exp ls) - ln (sqrt (2 * PI)).
Proof.
  unfold normal_density.
  pose proof (exp_pos ls) as Hs.
  assert (Hc : 0 < sqrt (2 * PI)) by (apply sqrt_lt_R0; pose proof PI_RGT_0; lra).
  assert (Hsc : 0 < exp ls * sqrt (2 * PI)) by (apply Rmult_lt_0_compat; assumption).
  rewrite ln_mult; [|apply Rinv_0_lt_compat; exact Hsc|apply exp_pos].
  rewrite ln_Rinv by exact Hsc.
  rewrite ln_mult by assumption.
  rewrite (ln_exp (- (x - m) ^ 2 / (2 * exp ls ^ 2))). rewrite ln_exp. lra.
Qed.

Lemma code_cells_spec (mu ls raw : list R) :
  code_cells mu ls raw
  = zip_with (fun x p => log_prob_cell p.1 p.2 x) raw (zip mu ls).
Proof.
  unfold code_cells. apply list_eq. intros j.
  repeat (rewrite lookup_zip_with || rewrite list_lookup_fmap).
  destruct (raw !! j) as [x|], (mu !! j) as [m|], (ls !! j) as [l|];
    simpl; try reflexivity.
  f_equal. unfold log_prob_cell. rewrite ln_normal_density.
  unfold Rdiv. lra.
Qed.

Lemma squash_row_bounds (min_a max_a raw : list R) :
  Forall2 Rle min_a max_a ->
  length raw = length min_a ->
  Forall2 (fun x b => b.1 <= x <= b.2)
    (squash_row (np_scale 0.5 (zip_with Rminus max_a min_a))
                (np_scale 0.5 (zip_with Rplus max_a min_a)) raw)
    (zip min_a max_a).
Proof.
  intros H. revert raw. induction H as [|lo hi min_a max_a Hle _ IH];
    intros [|x raw] Hlen; simpl in Hlen; try discriminate.
  - constructor.
  - unfold squash_row, np_scale. simpl. constructor.
    + simpl. pose proof (tanh_bounds x). nra.
    + apply IH. lia.
Qed.

(** ** The cell arithmetic over the reals is the arithmetic of the
       embedding *)

Lemma rescale_cell_real (a lo hi : R) :
  rescale_cell real_arithmetic a lo hi = a * (0.5 * (hi - lo)) + 0.5 * (hi + lo).
Proof.
  unfold rescale_cell, delta_cell, central_cell.
  cbn [n_add n_sub n_mul n_ratio real_arithmetic]. lra.
Qed.

Lemma squash_row_cells (min_a max_a raw : list R) :
  squash_row (np_scale 0.5 (zip_with Rminus max_a min_a))
             (np_scale 0.5 (zip_with Rplus max_a min_a)) raw
  = zip_with (fun x bound => rescale_cell real_arithmetic (tanh x) bound.1 bound.2)
      raw (zip min_a max_a).
Proof.
  unfold squash_row, np_scale.
  revert min_a max_a. induction raw as [|x raw IH]; intros [|lo min_a] [|hi max_a];
    try reflexivity.
  cbn [fmap list_fmap zip_with zip fst snd]. f_equal.
  - rewrite rescale_cell_real. reflexivity.
  - apply IH.
Qed.

Lemma correction_argument_real (a : R) :
  correction_argument real_arithmetic a = 1 - a ^ 2 + 1e-6.
Proof.
  unfold correction_argument, pow.
  cbn [n_add n_sub n_mul n_ratio real_arithmetic]. lra.
Qed.

Lemma log_prob_cell_kernel (m ls x : R) :
  log_prob_cell m ls x
  = log_prob_cell_of real_arithmetic x m (exp ls) (ln (exp ls))
      (ln (sqrt (2 * PI)))
      (ln (correction_argument real_arithmetic (tanh x))).
Proof.
  unfold log_prob_cell, log_prob_cell_of, normal_log_prob_cell.
  rewrite ln_normal_density, correction_argument_real.
  cbn [n_sub n_div n_opp n_mul n_ratio real_arithmetic].
  f_equal. f_equal. f_equal. unfold pow.
  pose proof (exp_pos ls). field. lra.
Qed.

Lemma correction_argument_at_least (x : R) :
  1e-6 <= correction_argument real_arithmetic (tanh x).
Proof.
  rewrite correction_argument_real. apply correction_argument_positive.
  pose proof (tanh_bounds x). lra.
Qed.

(** ** Where the exponential and the hyperbolic tangent leave the
       floating-point formats *)

Lemma exp_pow (x : R) (n : nat) : exp (INR n * x) = exp x ^ n.
Proof.
  induction n as [|n IH].
  - simpl. rewrite Rmult_0_l. apply exp_0.
  - rewrite S_INR. replace ((INR n + 1) * x) with (x + INR n * x) by ring.
    rewrite exp_plus, IH. reflexivity.
Qed.

Lemma exp_at_least_power_of_two (n : nat) : 2 ^ n <= exp (INR n).
Proof.
  replace (INR n) with (INR n * 1) by ring. rewrite exp_pow.
  pose proof (exp_ineq1_le 1). apply pow_incr. lra.
Qed.

(** [e^50] is below the largest number of single precision and its square
    is above it. *)
Lemma exp_50_fits_and_its_square_does_not :
  exp 50 < 2 ^ 127 /\ 2 ^ 128 < exp 50 * exp 50.
Proof.
  split.
  - replace 50 with (INR 50 * 1) by (simpl; lra). rewrite exp_pow.
    pose proof exp_le_3 as H. pose proof (exp_pos 1) as H0.
    assert (H1 : exp 1 ^ 50 <= 3 ^ 50) by (apply pow_incr; lra).
    assert (H2 : 3 ^ 50 < 2 ^ 127) by lra.
    lra.
  - rewrite <- exp_plus.
    replace (50 + 50) with (INR 400 * (1 / 4)) by (simpl; lra).
    rewrite exp_pow.
    pose proof (exp_ineq1_le (1 / 4)) as H.
    assert (H1 : (5 / 4) ^ 400 <= exp (1 / 4) ^ 400) by (apply pow_incr; lra).
    assert (H2 : 2 ^ 128 < (5 / 4) ^ 400) by lra.
    lra.
Qed.

(** [tanh (-100)] is nearer to -1 than half the distance from -1 to the
    next number of double precision, and of single precision. *)
Lemma tanh_saturates : -1 < tanh (-100) < -1 + (/ 2) ^ 54.
Proof.
  assert (HE : 2 ^ 100 <= exp 100).
  { replace 100 with (INR 100) by (simpl; lra).
    apply exp_at_least_power_of_two. }
  split; [apply tanh_bounds|].
  unfold tanh, sinh, cosh. replace (- -100) with 100 by lra.
  set (E := exp 100) in *.
  assert (Hm : exp (-100) = / E).
  { replace (-100) with (Ropp 100) by lra. unfold E. apply exp_Ropp. }
  rewrite Hm.
  assert (HE0 : 0 < E) by (unfold E; apply exp_pos).
  assert (Hinv : 0 < / E) by (apply Rinv_0_lt_compat; exact HE0).
  set (c := (/ E + E) / 2).
  assert (Hc : 0 < c) by (unfold c; lra).
  assert (Hq : forall x, x / c * c = x).
  { intros x. unfold Rdiv. rewrite Rmult_assoc, Rinv_l by lra. ring. }
  apply (Rmult_lt_reg_r c); [exact Hc|]. rewrite Hq. unfold c.
  assert (Hbig : 2 < (/ 2) ^ 54 * E).
  { assert (2 ^ 100 * (/ 2) ^ 54 <= E * (/ 2) ^ 54).
    { apply Rmult_le_compat_r; [|exact HE]. apply pow_le. lra. }
    assert (2 ^ 100 * (/ 2) ^ 54 = 2 ^ 46) by (field_simplify; lra).
    assert (2 < 2 ^ 46) by lra. lra. }
  assert (0 < (/ 2) ^ 54 * / E).
  { apply Rmult_lt_0_compat; [apply pow_lt; lra|exact Hinv]. }
  assert (/ E < 1).
  { rewrite <- Rinv_1. apply Rinv_lt_contravar; lra. }
  lra.
Qed.

(** [e^-200] is positive and below half of the least positive number of
    single precision, [2^-149]. *)
Lemma exp_underflows : 0 < exp (-200) < (/ 2) ^ 150.
Proof.
  split; [apply exp_pos|].
  assert (HE : 2 ^ 200 <= exp 200).
  { replace 200 with (INR 200) by (simpl; lra).
    apply exp_at_least_power_of_two. }
  replace (-200) with (Ropp 200) by lra. rewrite exp_Ropp.
  assert (H2 : (/ 2) ^ 150 = / 2 ^ 150) by (rewrite pow_inv; reflexivity).
  rewrite H2. apply Rinv_lt_contravar.
  - apply Rmult_lt_0_compat; [apply pow_lt; lra|apply exp_pos].
  - assert (2 ^ 150 < 2 ^ 200) by lra. lra.
Qed.

(** ** The policy: actions, log-probabilities and their graph *)

Section PolicyClaims.
Context {C : Collaborators}.

Lemma SACPolicy_init_Ok mu sigma (min_a max_a : list R) :
  length min_a = length max_a ->
  SACPolicy_init mu sigma min_a max_a
  = Ok (MkSACPolicy mu sigma
          (from_numpy (np_scale 0.5 (zip_with Rminus max_a min_a)))
          (from_numpy (np_scale 0.5 (zip_with Rplus max_a min_a)))).
Proof.
  intros H. unfold SACPolicy_init, np_binop.
  rewrite !bcast2_pure by lia. reflexivity.
Qed.

Lemma init_well_shaped mu sigma (min_a max_a : list R) p state w_mu w_sigma :
  SACPolicy_init mu sigma min_a max_a = Ok p ->
  length min_a = length max_a ->
  networks_shaped mu sigma state w_mu w_sigma (length min_a) ->
  well_shaped p state w_mu w_sigma
    (np_scale 0.5 (zip_with Rminus max_a min_a))
    (np_scale 0.5 (zip_with Rplus max_a min_a))
  /\ graph (_delta_a p) = ∅ /\ graph (_central_a p) = ∅.
Proof.
  intros Hp Hlen Hn. rewrite SACPolicy_init_Ok in Hp by exact Hlen.
  injection Hp as <-. simpl.
  assert (E : length (np_scale 0.5 (zip_with Rminus max_a min_a)) = length min_a).
  { unfold np_scale. rewrite length_fmap, length_zip_with. lia. }
  split; [|split; reflexivity].
  unfold well_shaped. simpl. rewrite E.
  split; [exact Hn|]. split; [reflexivity|]. split; [reflexivity|].
  unfold np_scale. rewrite !length_fmap, !length_zip_with. lia.
Qed.

(** C6, amended: over the reals, for a policy built by the constructor
    from bounds with [min_a <= max_a] in every component,
    [compute_action_and_log_prob_t], with or without the log-probability,
    returns one row per state, whose cells are the rescaled hyperbolic
    tangents of the raw sample, [tanh(a_raw) * 0.5*(max_a - min_a) +
    0.5*(max_a + min_a)], and every cell lies in [[min_a, max_a]], for
    every state batch and every draw of the noise.  In floating point the
    same arithmetic can round to a number outside of the bounds. *)
Theorem action_within_bounds mu sigma (min_a max_a : list R) p
    (state : list (list R)) (b : bool) (eps : noise) w_mu w_sigma :
  SACPolicy_init mu sigma min_a max_a = Ok p ->
  Forall2 Rle min_a max_a ->
  networks_shaped mu sigma state w_mu w_sigma (length min_a) ->
  exists r,
    compute_action_and_log_prob_t p state b eps = Ok r /\
    data (returned_action r) =
      imap (fun i s =>
              zip_with (fun x bound =>
                          rescale_cell real_arithmetic (tanh x) bound.1 bound.2)
                (raw_row (forward (params mu) w_mu s)
                         (forward (params sigma) w_sigma s) (eps i))
                (zip min_a max_a)) state /\
    length (data (returned_action r)) = length state /\
    Forall (fun row => length row = length min_a /\
                       Forall2 (fun x bound => bound.1 <= x <= bound.2)
                         row (zip min_a max_a))
           (data (returned_action r)).
Proof.
  intros Hp Hle Hn.
  pose proof (Forall2_length _ _ _ Hle) as Hlen.
  destruct (init_well_shaped _ _ _ _ _ _ _ _ Hp Hlen Hn) as (Hw & _ & _).
  rewrite SACPolicy_init_Ok in Hp by exact Hlen. injection Hp as <-.
  destruct (action_exec _ state _ _ _ _ Hw b eps) as (r & Hr & Ha).
  cbn [_mu_approximator _sigma_approximator] in Ha.
  exists r. split; [exact Hr|]. rewrite Ha. cbn [data].
  split; [|split].
  - apply imap_ext. intros i s _. apply squash_row_cells.
  - apply length_imap.
  - apply Forall_lookup. intros i row Hi.
    rewrite list_lookup_imap in Hi.
    destruct (state !! i) as [s|] eqn:Es; [|discriminate].
    injection Hi as <-.
    assert (HB : Forall2 (fun x bound => bound.1 <= x <= bound.2)
                   (squash_row (np_scale 0.5 (zip_with Rminus max_a min_a))
                      (np_scale 0.5 (zip_with Rplus max_a min_a))
                      (raw_row (forward (params mu) w_mu s)
                         (forward (params sigma) w_sigma s) (eps i)))
                   (zip min_a max_a)).
    { apply squash_row_bounds; [exact Hle|].
      destruct Hn as (_ & _ & HF). rewrite Forall_lookup in HF.
      destruct (HF i s Es) as [H1 H2].
      rewrite length_raw_row; lia. }
    split; [|exact HB].
    apply Forall2_length in HB. rewrite HB, length_zip. lia.
Qed.

(** C5, amended: on a well-shaped policy, and over the reals,
    [compute_action_and_log_prob_t] with [compute_log_prob=True] returns
    normally, so that no logarithm was taken outside its domain and no
    division was by zero; the log-probability has one row of one cell per
    state, which is the sum over the action dimension of the normal
    log-density of the raw sample minus [ln (1 - tanh(a_raw)^2 + 1e-6)],
    each cell being the cell arithmetic of [Normal.log_prob] and of line
    64 over the reals.  The argument of the logarithm of the correction
    is at least 1e-6 in every cell.  In single precision too it is
    positive where the hyperbolic tangent is saturated at 1 or -1: it is
    the stabilizer itself there, and would be zero without it.  That the
    whole log-probability is finite holds over the reals only. *)
Theorem log_prob_formula_and_finite p (state : list (list R)) (eps : noise)
    w_mu w_sigma half_range center :
  well_shaped p state w_mu w_sigma half_range center ->
  let mu := forward (params (_mu_approximator p)) w_mu in
  let log_sigma := forward (params (_sigma_approximator p)) w_sigma in
  (exists a_true log_prob,
     compute_action_and_log_prob_t p state true eps = Ok (a_true, log_prob) /\
     data log_prob =
       imap (fun i s =>
               [log_prob_row (mu s) (log_sigma s)
                  (raw_row (mu s) (log_sigma s) (eps i))]) state) /\
  (forall m ls x,
     log_prob_cell m ls x
     = log_prob_cell_of real_arithmetic x m (exp ls) (ln (exp ls))
         (ln (sqrt (2 * PI)))
         (ln (correction_argument real_arithmetic (tanh x)))) /\
  (forall i s, state !! i = Some s ->
     Forall (fun x => 1e-6 <= correction_argument real_arithmetic (tanh x))
       (raw_row (mu s) (log_sigma s) (eps i))) /\
  (forall a, a = float_of_Z binary32 1 \/ a = float_of_Z binary32 (-1) ->
     correction_argument (ieee binary32) a
       = n_ratio (ieee binary32) 1 1000000 /\
     SFltb (float_of_Z binary32 0) (correction_argument (ieee binary32) a)
       = true /\
     unstabilized_argument (ieee binary32) a = float_of_Z binary32 0).
Proof.
  intros Hw mu log_sigma.
  split; [|split; [|split]].
  - eexists _, _. split; [apply (policy_exec _ _ _ _ _ _ Hw)|].
    simpl. apply imap_ext. intros i s _. simpl.
    rewrite code_cells_spec. reflexivity.
  - apply log_prob_cell_kernel.
  - intros i s _. apply Forall_forall. intros x _.
    apply correction_argument_at_least.
  - intros a [-> | ->]; repeat split; vm_compute; reflexivity.
Qed.

(** C1, as the code behaves: the action is [tanh] of the raw sample,
    rescaled, and the log-probability is attached to the weights of both
    networks, but the action is attached to nothing.  [dist.sample()]
    draws without gradient, so the returned action is a constant for
    [backward], not a differentiable function of the outputs of the mean
    and log-scale networks. *)
Theorem sampled_action_is_detached mu sigma (min_a max_a : list R) p
    (state : list (list R)) (eps : noise) w_mu w_sigma :
  SACPolicy_init mu sigma min_a max_a = Ok p ->
  length min_a = length max_a ->
  networks_shaped mu sigma state w_mu w_sigma (length min_a) ->
  exists a_true log_prob,
    compute_action_and_log_prob_t p state true eps = Ok (a_true, log_prob) /\
    data a_true =
      imap (fun i s =>
              squash_row (np_scale 0.5 (zip_with Rminus max_a min_a))
                         (np_scale 0.5 (zip_with Rplus max_a min_a))
                (raw_row (forward (params mu) w_mu s)
                         (forward (params sigma) w_sigma s) (eps i))) state /\
    graph a_true = ∅ /\
    graph log_prob = {[ MuWeights; SigmaWeights ]}.
Proof.
  intros Hp Hlen Hn.
  destruct (init_well_shaped _ _ _ _ _ _ _ _ Hp Hlen Hn) as (Hw & Hgd & Hgc).
  eexists _, _. split; [apply (policy_exec _ _ _ _ _ _ Hw)|].
  rewrite SACPolicy_init_Ok in Hp by exact Hlen. injection Hp as <-.
  simpl. repeat split; reflexivity.
Qed.

End PolicyClaims.

Lemma example_networks_shaped :
  networks_shaped (C := small_collaborators) example_mu example_sigma
    example_state [1] [0] 1.
Proof.
  unfold networks_shaped. repeat split; try reflexivity.
  repeat constructor.
Defined.

Lemma action_within_bounds_witness :
  exists p,
    SACPolicy_init example_mu example_sigma [-1] [1] = Ok p /\
    Forall2 Rle [-1] [1] /\
    exists r,
      compute_action_and_log_prob_t (C := small_collaborators) p example_state
        true example_noise = Ok r /\
      data (returned_action r) =
        imap (fun i _ =>
                zip_with (fun x bound =>
                            rescale_cell real_arithmetic (tanh x)
                              bound.1 bound.2)
                  (raw_row [1] [0] (example_noise i)) (zip [-1] [1]))
          example_state /\
      length (data (returned_action r)) = 2%nat.
Proof.
  assert (Hle : Forall2 Rle [-1] [1]) by (repeat constructor; lra).
  eexists. split; [reflexivity|]. split; [exact Hle|].
  destruct (action_within_bounds (C := small_collaborators) example_mu
              example_sigma [-1] [1] _ example_state true example_noise [1] [0]
              eq_refl Hle example_networks_shaped) as (r & H1 & H2 & H3 & _).
  exists r. split; [exact H1|]. split; [exact H2|exact H3].
Defined.

(** ** Loops over the members of an ensemble and the target updates *)

(** A loop over the members of a regressor that rewrites member [i] from
    its old value rewrites every member. *)
Lemma for_range_members (body : nat -> Regressor -> outcome Regressor)
    (G : nat -> list R -> list R) (orig : list (list R)) :
  (forall i r t, length (model r) = length orig ->
     model r !! i = Some t -> orig !! i = Some t ->
     body i r = Ok (MkRegressor (params r) (<[i := G i t]> (model r)))) ->
  forall m k r,
    (k + m = length orig)%nat -> length (model r) = length orig ->
    drop k (model r) = drop k orig ->
    for_range body (seq k m) r
    = Ok (MkRegressor (params r)
            (take k (model r) ++ imap (fun j => G (k + j)%nat) (drop k (model r)))).
Proof.
  intros Hbody. induction m as [|m IH]; intros k r Hk Hlen Hdrop.
  - simpl. rewrite take_ge, drop_ge by lia. simpl. rewrite app_nil_r.
    destruct r; reflexivity.
  - simpl.
    destruct (lookup_lt_is_Some_2 (model r) k) as [t Ht]; [lia|].
    assert (Ho : orig !! k = Some t).
    { pose proof (f_equal (fun l => l !! 0%nat) Hdrop) as E. simpl in E.
      rewrite !lookup_drop, Nat.add_0_r in E. rewrite <- E. exact Ht. }
    rewrite (Hbody k r t) by assumption. simpl.
    rewrite IH; simpl; rewrite ?length_insert; try lia.
    2:{ rewrite drop_insert_lt by lia.
        replace (S k) with (k + 1)%nat by lia.
        rewrite <- !drop_drop. rewrite Hdrop. reflexivity. }
    f_equal. f_equal.
    rewrite (take_S_r _ k (G k t)).
    2:{ apply list_lookup_insert_eq. lia. }
    rewrite take_insert_ge by lia.
    rewrite drop_insert_lt by lia.
    rewrite (drop_S _ t k Ht). rewrite imap_cons.
    rewrite <- app_assoc. simpl. rewrite Nat.add_0_r.
    do 2 f_equal. apply imap_ext. intros j x _. simpl. f_equal. lia.
Qed.

Lemma for_range_all (body : nat -> Regressor -> outcome Regressor)
    (G : nat -> list R -> list R) (r : Regressor) :
  (forall i r' t, length (model r') = length (model r) ->
     model r' !! i = Some t -> model r !! i = Some t ->
     body i r' = Ok (MkRegressor (params r') (<[i := G i t]> (model r')))) ->
  for_range body (seq 0 (length (model r))) r
  = Ok (MkRegressor (params r) (imap G (model r))).
Proof.
  intros Hbody.
  rewrite (for_range_members body G (model r) Hbody
             (length (model r)) 0%nat r) by (reflexivity || lia).
  simpl. rewrite drop_0. reflexivity.
Qed.

Section Targets.
Context {C : Collaborators}.

Lemma set_weights_Ok r i t w :
  model r !! i = Some t ->
  set_weights r i w = Ok (MkRegressor (params r) (<[i := w]> (model r))).
Proof.
  intros H. unfold set_weights.
  rewrite decide_True by (eapply lookup_lt_Some; exact H). reflexivity.
Qed.

Lemma np_inplace_same f (x y : list R) :
  length x = length y -> np_inplace f x y = Ok (zip_with f x y).
Proof.
  intros H. unfold np_inplace. apply bcast_into_Forall2.
  apply Forall2_same_length_lookup_2; [exact H|]. reflexivity.
Qed.

Lemma imap_zip_with {A B D} (f : A -> B -> D) (x : list A) (y : list B) (d : A) :
  length x = length y ->
  imap (fun i b => match x !! i with Some a => f a b | None => f d b end) y
  = zip_with f x y.
Proof.
  revert y. induction x as [|a x IH]; intros [|b y] H; simpl in H;
    try discriminate; [reflexivity|].
  rewrite imap_cons. simpl. f_equal. apply IH. lia.
Qed.

Lemma _update_target_exec (self : SAC) :
  aligned (model (_critic_approximator self))
          (model (_target_critic_approximator self)) ->
  _update_target self
  = Ok (with_target_critic
          (MkRegressor (params (_target_critic_approximator self))
             (zip_with (soft_update (_tau self))
                (model (_critic_approximator self))
                (model (_target_critic_approximator self))))
          self).
Proof.
  intros Hal. unfold _update_target.
  set (on := model (_critic_approximator self)) in *.
  set (tg := _target_critic_approximator self) in *.
  pose proof (Forall2_length _ _ _ Hal) as Hn.
  rewrite (for_range_all _
    (fun i t => match on !! i with
                | Some o => soft_update (_tau self) o t
                | None => soft_update (_tau self) [] t end)).
  - rewrite (imap_zip_with (soft_update (_tau self)) on (model tg) [])
      by exact Hn.
    reflexivity.
  - intros i r' t Hlen Ht Ht'.
    destruct (lookup_lt_is_Some_2 on i) as [o Ho].
    { rewrite Hn. eapply lookup_lt_Some. exact Ht'. }
    unfold get_weights. fold on. rewrite Ho, Ht. simpl.
    unfold aligned in Hal. rewrite Forall2_lookup in Hal.
    specialize (Hal i). rewrite Ho, Ht' in Hal. inversion Hal as [? ? Hl|]; subst.
    rewrite np_inplace_same by (unfold np_scale; rewrite !length_fmap; exact Hl).
    simpl. rewrite (set_weights_Ok _ _ t) by exact Ht.
    do 2 f_equal. f_equal.
    unfold soft_update, np_scale.
    rewrite zip_with_fmap_l, zip_with_fmap_r. reflexivity.
Qed.

Lemma soft_update_one (online target : list R) :
  length online = length target -> soft_update 1 online target = online.
Proof.
  revert target. induction online as [|o online IH]; intros [|t target] H;
    simpl in H; try discriminate; [reflexivity|].
  unfold soft_update in *. simpl. f_equal; [lra|]. apply IH. lia.
Qed.

Lemma soft_update_zero (online target : list R) :
  length online = length target -> soft_update 0 online target = target.
Proof.
  revert target. induction online as [|o online IH]; intros [|t target] H;
    simpl in H; try discriminate; [reflexivity|].
  unfold soft_update in *. simpl. f_equal; [lra|]. apply IH. lia.
Qed.

Lemma zip_with_aligned_l (f : list R -> list R -> list R) (on tg : list (list R)) :
  aligned on tg ->
  (forall o t, length o = length t -> f o t = o) -> zip_with f on tg = on.
Proof.
  intros H Hf. induction H as [|o t on tg Hl _ IH]; [reflexivity|].
  simpl. rewrite (Hf o t Hl), IH. reflexivity.
Qed.

Lemma zip_with_aligned_r (f : list R -> list R -> list R) (on tg : list (list R)) :
  aligned on tg ->
  (forall o t, length o = length t -> f o t = t) -> zip_with f on tg = tg.
Proof.
  intros H Hf. induction H as [|o t on tg Hl _ IH]; [reflexivity|].
  simpl. rewrite (Hf o t Hl), IH. reflexivity.
Qed.

(** C7: on aligned ensembles [_update_target] returns normally; member
    [i] of the target becomes [tau * online_i + (1 - tau) * target_i],
    weight by weight and for every member on its own; nothing else of the
    agent changes.  With [tau = 1] the target weights become the online
    weights, with [tau = 0] they stay what they were. *)
Theorem target_soft_update (self : SAC) :
  aligned (model (_critic_approximator self))
          (model (_target_critic_approximator self)) ->
  exists self',
    _update_target self = Ok self' /\
    length (model (_target_critic_approximator self'))
      = length (model (_target_critic_approximator self)) /\
    (forall i online target,
       model (_critic_approximator self) !! i = Some online ->
       model (_target_critic_approximator self) !! i = Some target ->
       model (_target_critic_approximator self') !! i
         = Some (soft_update (_tau self) online target)) /\
    self' = with_target_critic (_target_critic_approximator self') self /\
    (_tau self = 1 ->
       model (_target_critic_approximator self')
         = model (_critic_approximator self)) /\
    (_tau self = 0 ->
       model (_target_critic_approximator self')
         = model (_target_critic_approximator self)).
Proof.
  intros Hal. eexists. split; [apply _update_target_exec; exact Hal|].
  simpl. split.
  { rewrite length_zip_with. pose proof (Forall2_length _ _ _ Hal). lia. }
  split.
  { intros i online target Ho Ht. rewrite lookup_zip_with, Ho, Ht. reflexivity. }
  split; [reflexivity|]. split; intros ->.
  - apply zip_with_aligned_l; [exact Hal|]. apply soft_update_one.
  - apply zip_with_aligned_r; [exact Hal|]. apply soft_update_zero.
Qed.

Lemma zip_with_fst {A B} (x : list A) (y : list B) :
  length x = length y -> zip_with (fun a _ => a) x y = x.
Proof.
  revert y. induction x as [|a x IH]; intros [|b y] H; simpl in H;
    try discriminate; [reflexivity|]. simpl. f_equal. apply IH. lia.
Qed.

Lemma _init_target_exec (self : SAC) :
  length (model (_critic_approximator self))
    = length (model (_target_critic_approximator self)) ->
  _init_target self
  = Ok (with_target_critic
          (MkRegressor (params (_target_critic_approximator self))
             (model (_critic_approximator self)))
          self).
Proof.
  intros Hn. unfold _init_target. rewrite Hn.
  set (on := model (_critic_approximator self)) in *.
  rewrite (for_range_all _
    (fun i t => match on !! i with Some o => o | None => [] end)).
  - rewrite (imap_zip_with (fun o _ : list R => o) on
               (model (_target_critic_approximator self)) [])
      by exact Hn.
    rewrite zip_with_fst by exact Hn. reflexivity.
  - intros i r' t Hlen Ht Ht'.
    destruct (lookup_lt_is_Some_2 on i) as [o Ho].
    { rewrite Hn. eapply lookup_lt_Some. exact Ht'. }
    unfold get_weights. fold on. rewrite Ho. simpl.
    rewrite (set_weights_Ok _ _ t) by exact Ht. reflexivity.
Qed.

End Targets.

(** ** The checks of the constructor on the store *)

Lemma py_eq_int x z : py_eq x (PInt z) = true -> z <> 0%Z -> z <> 1%Z -> x = PInt z.
Proof.
  destruct x as [y| |b| |]; simpl; try discriminate.
  - intros H _ _. apply bool_decide_eq_true in H. congruence.
  - intros H H0 H1. apply bool_decide_eq_true in H. destruct b; simpl in H; congruence.
Qed.

Lemma py_eq_str x s : py_eq x (PStr s) = true -> x = PStr s.
Proof.
  destruct x as [| t | | |]; simpl; try discriminate.
  intros H. apply bool_decide_eq_true in H. congruence.
Qed.

Lemma py_eq_refl x : py_eq x x = true.
Proof. destruct x; simpl; try reflexivity; apply bool_decide_eq_true; reflexivity. Qed.

(** The three ways [assert_or_set] ends. *)
Lemma assert_or_set_cases (h : store) (l : ref) (k : string) (v : pyval) :
  (forall x, py_eq x v = true -> x = v) ->
  let d : pydict := h !!! l in
  (violates k v d /\ assert_or_set h l k v = Raise AssertionError)
  \/ (d !! k = Some v /\ assert_or_set h l k v = Ok h)
  \/ (d !! k = None /\ assert_or_set h l k v = Ok (<[l := <[k := v]> d]> h)).
Proof.
  intros Hv d. unfold assert_or_set. fold d.
  destruct (d !! k) as [x|] eqn:E.
  - destruct (py_eq x v) eqn:Ex.
    + right. left. apply Hv in Ex. subst. split; reflexivity.
    + left. split; [|reflexivity]. exists x. split; [exact E|].
      intros ->. rewrite py_eq_refl in Ex. discriminate.
  - right. right. split; reflexivity.
Qed.

Lemma violates_dec k v (d : pydict) :
  d !! k = Some v \/ d !! k = None -> ~ violates k v d.
Proof. intros [H|H] (x & Hx & Hne); rewrite H in Hx; congruence. Qed.

(** What a passed [assert_or_set] leaves in the store. *)
Lemma assert_or_set_Ok (h h' : store) (l : ref) (k : string) (v : pyval) :
  (forall x, py_eq x v = true -> x = v) ->
  assert_or_set h l k v = Ok h' ->
  ~ violates k v (h !!! l) /\
  h' !!! l = <[k := v]> (h !!! l : pydict) /\
  (forall l', l' <> l -> h' !! l' = h !! l') /\
  (is_Some (h !! l) -> h' !! l = Some (<[k := v]> (h !!! l : pydict))) /\
  dom h ⊆ dom h'.
Proof.
  intros Hv H.
  destruct (assert_or_set_cases h l k v Hv) as [(_ & E)|[(Hk & E)|(Hk & E)]];
    rewrite E in H; try discriminate; injection H as <-.
  - split; [apply violates_dec; auto|].
    rewrite (insert_id _ _ _ Hk).
    split; [reflexivity|]. split; [reflexivity|]. split; [|reflexivity].
    intros [d Hd]. rewrite (lookup_total_correct _ _ _ Hd). exact Hd.
  - split; [apply violates_dec; auto|].
    split; [apply lookup_total_insert_eq|].
    split; [intros l' Hl'; apply lookup_insert_ne; congruence|].
    split; [intros _; apply lookup_insert_eq|].
    rewrite dom_insert. set_solver.
Qed.

Lemma int2_eq x : py_eq x (PInt 2) = true -> x = PInt 2.
Proof. intros H. apply py_eq_int; [exact H|lia|lia]. Qed.

Lemma forced_lookup_n_models (d : pydict) :
  forced d !! "n_models"%string = Some (PInt 2).
Proof. unfold forced. rewrite lookup_insert_ne by discriminate. apply lookup_insert_eq. Qed.

Lemma forced_lookup_prediction (d : pydict) :
  forced d !! "prediction"%string = Some (PStr "min").
Proof. unfold forced. apply lookup_insert_eq. Qed.

(** The two checks of the constructor, when neither key is violated. *)
Lemma asserts_pass (h1 : store) (lc : ref) :
  let d : pydict := h1 !!! lc in
  ~ violates "n_models" (PInt 2) d ->
  ~ violates "prediction" (PStr "min") d ->
  exists h3 : store,
    (forall X (K : store -> outcome X),
       (h ← assert_or_set h1 lc "n_models" (PInt 2);
        h ← assert_or_set h lc "prediction" (PStr "min"); K h) = K h3) /\
    h3 !!! lc = forced d /\
    (is_Some (h1 !! lc) -> h3 !! lc = Some (forced d)) /\
    (forall l, l <> lc -> h3 !! l = h1 !! l) /\
    dom h1 ⊆ dom h3.
Proof.
  intros d Hn Hp.
  destruct (assert_or_set h1 lc "n_models" (PInt 2)) as [h2| |] eqn:E2.
  2,3: destruct (assert_or_set_cases h1 lc "n_models" (PInt 2) int2_eq)
         as [(Hv & _)|[(_ & E)|(_ & E)]]; [contradiction|congruence|congruence].
  destruct (assert_or_set_Ok _ _ _ _ _ int2_eq E2) as (_ & T2 & O2 & L2 & D2).
  assert (Hp2 : ~ violates "prediction" (PStr "min") (h2 !!! lc)).
  { rewrite T2. intros (x & Hx & Hne). apply Hp. exists x. split; [|exact Hne].
    rewrite lookup_insert_ne in Hx by discriminate. exact Hx. }
  destruct (assert_or_set h2 lc "prediction" (PStr "min")) as [h3| |] eqn:E3.
  2,3: destruct (assert_or_set_cases h2 lc "prediction" (PStr "min") (fun x => py_eq_str x "min"))
         as [(Hv & _)|[(_ & E)|(_ & E)]]; [contradiction|congruence|congruence].
  destruct (assert_or_set_Ok _ _ _ _ _ (fun x => py_eq_str x "min") E3)
    as (_ & T3 & O3 & L3 & D3).
  exists h3. split; [intros X K; simpl; rewrite E3; reflexivity|].
  split; [rewrite T3, T2; reflexivity|].
  split.
  { intros Hl. rewrite L3.
    - rewrite T2. reflexivity.
    - rewrite L2 by exact Hl. eauto. }
  split; [intros l Hl; rewrite O3, O2 by exact Hl; reflexivity|].
  set_solver.
Qed.

(** The two checks of the constructor, when a key is violated. *)
Lemma asserts_fail {X} (h1 : store) (lc : ref) (K : store -> outcome X) :
  let d : pydict := h1 !!! lc in
  violates "n_models" (PInt 2) d \/ violates "prediction" (PStr "min") d ->
  (h ← assert_or_set h1 lc "n_models" (PInt 2);
   h ← assert_or_set h lc "prediction" (PStr "min"); K h) = Raise AssertionError.
Proof.
  intros d Hv.
  destruct (assert_or_set_cases h1 lc "n_models" (PInt 2) int2_eq)
    as [(_ & E)|[(Hk & E)|(Hk & E)]]; rewrite E; [reflexivity| |]; simpl.
  - destruct Hv as [Hv|Hv]; [exfalso; revert Hv; apply violates_dec; auto|].
    destruct (assert_or_set_cases h1 lc "prediction" (PStr "min") (fun x => py_eq_str x "min"))
      as [(_ & E')|[(Hk' & _)|(Hk' & _)]];
      [rewrite E'; reflexivity| |]; exfalso; revert Hv; apply violates_dec; auto.
  - destruct Hv as [Hv|Hv]; [exfalso; revert Hv; apply violates_dec; auto|].
    set (h2 := <[lc := _]> h1).
    assert (Hv2 : violates "prediction" (PStr "min") (h2 !!! lc)).
    { unfold h2. rewrite lookup_total_insert_eq.
      destruct Hv as (x & Hx & Hne). exists x. split; [|exact Hne].
      rewrite lookup_insert_ne by discriminate. exact Hx. }
    destruct (assert_or_set_cases h2 lc "prediction" (PStr "min") (fun x => py_eq_str x "min"))
      as [(_ & E')|[(Hk' & _)|(Hk' & _)]];
      [rewrite E'; reflexivity| |]; exfalso; revert Hv2; apply violates_dec; auto.
Qed.

Section ConstructionLemmas.
Context {C : Collaborators}.

Lemma Regressor_new_length (p : pydict) (seed : nat) :
  length (model (Regressor_new p seed)) = n_models p.
Proof. unfold Regressor_new. simpl. rewrite length_fmap, length_seq. reflexivity. Qed.

Lemma network_parameters_single (p : pydict) (seed : nat) :
  n_models p = 1%nat ->
  network_parameters (Regressor_new p seed) = Ok (init_weights p (seed + 0)).
Proof.
  intros H. unfold network_parameters, Regressor_new. cbn [model].
  rewrite H. reflexivity.
Qed.

Lemma network_parameters_ensemble (p : pydict) (seed : nat) :
  n_models p <> 1%nat ->
  network_parameters (Regressor_new p seed) = Raise AttributeError.
Proof.
  intros H. unfold network_parameters, Regressor_new. cbn [model].
  destruct (n_models p) as [|[|n]]; [reflexivity|contradiction|reflexivity].
Qed.

Lemma network_parameters_outcome (r : Regressor) :
  (exists w, network_parameters r = Ok w)
  \/ network_parameters r = Raise AttributeError.
Proof.
  unfold network_parameters. destruct (model r) as [|w [|w' l]]; eauto.
Qed.

Lemma n_models_forced (d : pydict) : n_models (forced d) = 2%nat.
Proof. unfold n_models. rewrite forced_lookup_n_models. reflexivity. Qed.

(** The store the checks run on holds the caller's dictionaries. *)
Lemma store_with_fit_params (h : store) (a : init_args) :
  let h1 := match arg_critic_fit_params a with
            | Some _ => h
            | None => (alloc h ∅).1
            end in
  (forall l : ref, (h1 !!! l : pydict) = h !!! l) /\
  (forall l, is_Some (h !! l) -> h1 !! l = h !! l) /\
  dom h ⊆ dom h1.
Proof.
  destruct (arg_critic_fit_params a) as [lf|]; simpl.
  - repeat split; auto.
  - pose proof (is_fresh (dom h)) as Hf.
    split; [|split].
    + intros l. destruct (decide (l = fresh (dom h))) as [->|Hne].
      * rewrite lookup_total_insert_eq.
        apply not_elem_of_dom in Hf.
        rewrite lookup_total_alt, Hf. reflexivity.
      * rewrite lookup_total_insert_ne by congruence. reflexivity.
    + intros l Hl. apply lookup_insert_ne. intros <-.
      apply elem_of_dom in Hl. contradiction.
    + rewrite dom_insert. set_solver.
Qed.

Lemma SAC_init_no_violation (h : store) (a : init_args) :
  let d : pydict := h !!! arg_critic_params a in
  ~ violates "n_models" (PInt 2) d ->
  ~ violates "prediction" (PStr "min") d ->
  exists (h4 : store) (lt fit_ref : ref),
    h !! lt = None /\
    h4 !! lt = Some (forced d) /\
    h4 !!! arg_critic_params a = forced d /\
    (is_Some (h !! arg_critic_params a) ->
       h4 !! arg_critic_params a = Some (forced d)) /\
    (forall l, is_Some (h !! l) -> l <> arg_critic_params a -> h4 !! l = h !! l) /\
    SAC_init h a =
      (policy ← SACPolicy_init
                  (Regressor_new (h4 !!! arg_actor_mu_params a) (seed_mu a))
                  (Regressor_new (h4 !!! arg_actor_sigma_params a) (seed_sigma a))
                  (action_low (arg_mdp_info a)) (action_high (arg_mdp_info a));
       _ ← network_parameters
             (Regressor_new (h4 !!! arg_actor_mu_params a) (seed_mu a));
       _ ← network_parameters
             (Regressor_new (h4 !!! arg_actor_sigma_params a) (seed_sigma a));
       Ok (h4,
           with_target_critic
             (MkRegressor (forced d)
                (model (Regressor_new (forced d) (seed_critic a))))
             (MkSAC fit_ref (arg_batch_size a) (arg_warmup_transitions a)
                (arg_tau a) (- Z.of_nat (length (action_low (arg_mdp_info a))))
                (rm_new (arg_initial_replay_size a) (arg_max_replay_size a))
                (Regressor_new (forced d) (seed_critic a))
                (Regressor_new (forced d) (seed_target a))
                0 (adam_new (arg_lr_alpha a)) policy
                (actor_optimizer_new (h4 !!! arg_actor_optimizer a))
                (arg_mdp_info a)))).
Proof.
  intros d Hn Hp.
  destruct (store_with_fit_params h a) as (T1 & L1 & D1).
  set (h1 := match arg_critic_fit_params a with
             | Some _ => h | None => (alloc h ∅).1 end) in *.
  set (lc := arg_critic_params a) in *.
  destruct (asserts_pass h1 lc) as (h3 & EK & T3 & L3 & O3 & D3);
    [rewrite T1; exact Hn|rewrite T1; exact Hp|].
  rewrite T1 in T3, L3. fold d in T3, L3.
  set (lt := fresh (dom h3)).
  pose proof (is_fresh (dom h3)) as Hf. fold lt in Hf.
  set (h4 := <[lt := forced d]> h3).
  set (fit_ref := match arg_critic_fit_params a with
                  | Some l => l | None => (alloc h ∅).2 end).
  exists h4, lt, fit_ref.
  assert (Hlt : h !! lt = None).
  { apply not_elem_of_dom. set_solver. }
  assert (T4 : forall l : ref, l = lc \/ l = lt -> (h4 !!! l : pydict) = forced d).
  { intros l Hl. unfold h4. destruct (decide (l = lt)) as [->|Hne].
    - apply lookup_total_insert_eq.
    - rewrite lookup_total_insert_ne by congruence.
      destruct Hl as [->|?]; [exact T3|contradiction]. }
  assert (O4 : forall l, is_Some (h !! l) -> h4 !! l = h3 !! l).
  { intros l Hl. unfold h4. apply lookup_insert_ne. intros <-.
    rewrite Hlt in Hl. destruct Hl; discriminate. }
  split; [exact Hlt|].
  split; [unfold h4; apply lookup_insert_eq|].
  split; [apply T4; auto|].
  split.
  { intros Hl. rewrite O4 by exact Hl. apply L3. rewrite L1; exact Hl. }
  split.
  { intros l Hl Hne. rewrite O4, O3, L1 by assumption. reflexivity. }
  unfold SAC_init.
  assert (E0 : match arg_critic_fit_params a with
               | Some l => (h, l) | None => alloc h ∅ end = (h1, fit_ref)).
  { unfold h1, fit_ref. destruct (arg_critic_fit_params a); reflexivity. }
  rewrite E0.
  change (of_option IndexError (action_shape (arg_mdp_info a) !! 0%nat))
    with (Ok (length (action_low (arg_mdp_info a)))).
  cbn [mbind outcome_bind]. fold lc.
  rewrite EK. unfold alloc. fold lt. rewrite T3. fold h4.
  rewrite !(T4 lc), !(T4 lt) by auto.
  destruct (SACPolicy_init _ _ _ _) as [p| |]; try reflexivity.
  cbn [mbind outcome_bind].
  rewrite _init_target_exec.
  - reflexivity.
  - cbn [_critic_approximator _target_critic_approximator].
    rewrite !Regressor_new_length. reflexivity.
Qed.

End ConstructionLemmas.

(** ** The constructor *)

Lemma violates_cases k v (d : pydict) :
  violates k v d \/ ~ violates k v d.
Proof.
  destruct (d !! k) as [x|] eqn:E.
  - destruct (decide (x = v)) as [->|Hne].
    + right. apply violates_dec. auto.
    + left. exists x. auto.
  - right. apply violates_dec. auto.
Qed.

Lemma np_binop_outcome f (x y : list R) :
  (exists z, np_binop f x y = Ok z) \/ np_binop f x y = Raise ValueError.
Proof.
  unfold np_binop, bcast2, pure2.
  destruct (decide (length x = length y)).
  - left. rewrite for_each_pure. eauto.
  - destruct x as [|a [|a' x]], y as [|b [|b' y]];
      try (right; reflexivity); left; rewrite for_each_pure; eauto.
Qed.

Lemma SACPolicy_init_outcome mu sigma (min_a max_a : list R) :
  (exists p, SACPolicy_init mu sigma min_a max_a = Ok p)
  \/ SACPolicy_init mu sigma min_a max_a = Raise ValueError.
Proof.
  unfold SACPolicy_init.
  destruct (np_binop_outcome Rminus max_a min_a) as [(z & ->)| ->]; [|right; reflexivity].
  destruct (np_binop_outcome Rplus max_a min_a) as [(z' & ->)| ->]; [|right; reflexivity].
  left. eexists. reflexivity.
Qed.

Section ConstructionClaims.
Context {C : Collaborators}.

Lemma SAC_init_violation (h : store) (a : init_args) :
  let d : pydict := h !!! arg_critic_params a in
  violates "n_models" (PInt 2) d \/ violates "prediction" (PStr "min") d ->
  SAC_init h a = Raise AssertionError.
Proof.
  intros d Hv.
  destruct (store_with_fit_params h a) as (T1 & _ & _).
  set (h1 := match arg_critic_fit_params a with
             | Some _ => h | None => (alloc h ∅).1 end) in *.
  set (fit_ref := match arg_critic_fit_params a with
                  | Some l => l | None => (alloc h ∅).2 end).
  unfold SAC_init.
  assert (E0 : match arg_critic_fit_params a with
               | Some l => (h, l) | None => alloc h ∅ end = (h1, fit_ref)).
  { unfold h1, fit_ref. destruct (arg_critic_fit_params a); reflexivity. }
  rewrite E0.
  change (of_option IndexError (action_shape (arg_mdp_info a) !! 0%nat))
    with (Ok (length (action_low (arg_mdp_info a)))).
  cbn [mbind outcome_bind].
  apply asserts_fail. rewrite T1. exact Hv.
Qed.

(** What a successful construction returns. *)
Lemma SAC_init_Ok_inv (h h' : store) (a : init_args) (self : SAC) :
  SAC_init h a = Ok (h', self) ->
  let d : pydict := h !!! arg_critic_params a in
  ~ violates "n_models" (PInt 2) d /\
  ~ violates "prediction" (PStr "min") d /\
  params (_critic_approximator self) = forced d /\
  params (_target_critic_approximator self) = forced d /\
  model (_critic_approximator self)
    = model (Regressor_new (forced d) (seed_critic a)) /\
  model (_target_critic_approximator self) = model (_critic_approximator self) /\
  (exists lt, h !! lt = None /\ h' !! lt = Some (forced d)) /\
  h' !!! arg_critic_params a = forced d /\
  (is_Some (h !! arg_critic_params a) ->
     h' !! arg_critic_params a = Some (forced d)) /\
  (forall l, is_Some (h !! l) -> l <> arg_critic_params a -> h' !! l = h !! l).
Proof.
  intros H d.
  destruct (violates_cases "n_models" (PInt 2) d) as [Vn|Vn].
  { rewrite SAC_init_violation in H by (left; exact Vn). discriminate. }
  destruct (violates_cases "prediction" (PStr "min") d) as [Vp|Vp].
  { rewrite SAC_init_violation in H by (right; exact Vp). discriminate. }
  destruct (SAC_init_no_violation h a Vn Vp)
    as (h4 & lt & fit_ref & Hlt & H4lt & T4 & L4 & O4 & E).
  rewrite E in H.
  apply bind_Ok_inv in H as (p & _ & H).
  apply bind_Ok_inv in H as (w_mu & _ & H).
  apply bind_Ok_inv in H as (w_sigma & _ & H).
  injection H as <- <-.
  cbn [with_target_critic _critic_approximator _target_critic_approximator
       params model].
  repeat (split; [first [assumption|reflexivity]|]).
  split; [exists lt; auto|]. auto.
Qed.


(** C9: the constructor raises [AssertionError] exactly when the
    dictionary of the critic has ["n_models"] with a value other than 2 or
    ["prediction"] with a value other than ["min"].  Otherwise, with bounds
    of one length and dictionaries of the actor that ask for single
    networks, whose parameters line 154 reads, it returns, and both
    ensembles are built with ["n_models"] 2 and ["prediction"] ["min"],
    which is then also what the dictionary of the caller holds, whether
    the keys were absent or not. *)
Theorem construction_assertion (h : store) (a : init_args) :
  let d : pydict := h !!! arg_critic_params a in
  (SAC_init h a = Raise AssertionError <->
     violates "n_models" (PInt 2) d \/ violates "prediction" (PStr "min") d) /\
  (~ violates "n_models" (PInt 2) d ->
   ~ violates "prediction" (PStr "min") d ->
   length (action_low (arg_mdp_info a)) = length (action_high (arg_mdp_info a)) ->
   single_network h (arg_critic_params a) (arg_actor_mu_params a) ->
   single_network h (arg_critic_params a) (arg_actor_sigma_params a) ->
   exists h' self, SAC_init h a = Ok (h', self)) /\
  (forall h' self, SAC_init h a = Ok (h', self) ->
     (h' !!! arg_critic_params a : pydict) !! "n_models"%string = Some (PInt 2) /\
     (h' !!! arg_critic_params a : pydict) !! "prediction"%string
       = Some (PStr "min") /\
     params (_critic_approximator self) !! "n_models"%string = Some (PInt 2) /\
     params (_critic_approximator self) !! "prediction"%string
       = Some (PStr "min") /\
     params (_target_critic_approximator self) = params (_critic_approximator self)).
Proof.
  intros d. split; [|split].
  - split; [|apply SAC_init_violation].
    intros H.
    destruct (violates_cases "n_models" (PInt 2) d) as [Vn|Vn]; [auto|].
    destruct (violates_cases "prediction" (PStr "min") d) as [Vp|Vp]; [auto|].
    exfalso.
    destruct (SAC_init_no_violation h a Vn Vp) as (h4 & lt & fr & _ & _ & _ & _ & _ & E).
    rewrite E in H.
    destruct (SACPolicy_init_outcome
                (Regressor_new (h4 !!! arg_actor_mu_params a) (seed_mu a))
                (Regressor_new (h4 !!! arg_actor_sigma_params a) (seed_sigma a))
                (action_low (arg_mdp_info a)) (action_high (arg_mdp_info a)))
      as [(p & Ep)|Ep]; rewrite Ep in H; [|discriminate].
    cbn [mbind outcome_bind] in H.
    destruct (network_parameters_outcome
                (Regressor_new (h4 !!! arg_actor_mu_params a) (seed_mu a)))
      as [(w_mu & Em)|Em]; rewrite Em in H; [|discriminate].
    cbn [mbind outcome_bind] in H.
    destruct (network_parameters_outcome
                (Regressor_new (h4 !!! arg_actor_sigma_params a) (seed_sigma a)))
      as [(w_sigma & Es)|Es]; rewrite Es in H; discriminate.
  - intros Vn Vp Hlen (Lm & Nm & Sm) (Ls & Ns & Ss).
    destruct (SAC_init_no_violation h a Vn Vp) as (h4 & lt & fr & _ & _ & _ & _ & O & E).
    rewrite E, SACPolicy_init_Ok by exact Hlen.
    cbn [mbind outcome_bind].
    rewrite !lookup_total_alt, (O _ Lm Nm), (O _ Ls Ns), <- !lookup_total_alt.
    rewrite !network_parameters_single by assumption.
    eexists _, _. reflexivity.
  - intros h' self H.
    destruct (SAC_init_Ok_inv _ _ _ _ H) as (_ & _ & Pc & Pt & _ & _ & _ & T & _).
    fold d in Pc, Pt, T. rewrite T, Pc, Pt.
    rewrite forced_lookup_n_models, forced_lookup_prediction. auto.
Qed.

(** C10: the constructor writes the two keys into the dictionary object
    the caller passed as [critic_params]; the online critic is built from
    that content and the target critic from a new dictionary object of
    equal content; every other dictionary the caller holds, the two of the
    actor among them when they are other objects, is left as it was.  A
    key the caller had set is kept, a key the caller had not set is
    inserted. *)
Theorem constructor_mutates_critic_params (h h' : store) (a : init_args)
    (self : SAC) :
  is_Some (h !! arg_critic_params a) ->
  SAC_init h a = Ok (h', self) ->
  let d : pydict := h !!! arg_critic_params a in
  h' !! arg_critic_params a = Some (forced d) /\
  (forall k, k <> "n_models"%string -> k <> "prediction"%string ->
     forced d !! k = d !! k) /\
  forced d !! "n_models"%string = Some (PInt 2) /\
  forced d !! "prediction"%string = Some (PStr "min") /\
  params (_critic_approximator self) = forced d /\
  (exists lt, lt <> arg_critic_params a /\ h !! lt = None /\
     h' !! lt = Some (forced d) /\
     params (_target_critic_approximator self) = forced d) /\
  (forall l, is_Some (h !! l) -> l <> arg_critic_params a -> h' !! l = h !! l) /\
  (is_Some (h !! arg_actor_mu_params a) ->
   arg_actor_mu_params a <> arg_critic_params a ->
   h' !! arg_actor_mu_params a = h !! arg_actor_mu_params a) /\
  (is_Some (h !! arg_actor_sigma_params a) ->
   arg_actor_sigma_params a <> arg_critic_params a ->
   h' !! arg_actor_sigma_params a = h !! arg_actor_sigma_params a).
Proof.
  intros Hl H d.
  destruct (SAC_init_Ok_inv _ _ _ _ H)
    as (_ & _ & Pc & Pt & _ & _ & (lt & Hlt & Hlt') & _ & L & O).
  fold d in Pc, Pt, Hlt', L.
  split; [auto|]. split.
  { intros k Hn Hp. unfold forced. rewrite !lookup_insert_ne by congruence.
    reflexivity. }
  split; [apply forced_lookup_n_models|].
  split; [apply forced_lookup_prediction|].
  split; [exact Pc|]. split.
  { exists lt. repeat split; auto. intros ->. rewrite Hlt in Hl.
    destruct Hl; discriminate. }
  split; [exact O|]. split; apply O.
Qed.

End ConstructionClaims.

(** ** The regression target and the steps of [fit] *)

Lemma concat_imap_singleton {A X} (f : nat -> X -> A) (l : list X) :
  concat (imap (fun i s => [f i s]) l) = imap f l.
Proof.
  revert f. induction l as [|x l IH]; intros f; [reflexivity|].
  simpl. f_equal. apply IH.
Qed.

Lemma length_foldl_zip_with (f : R -> R -> R) (qs : list (list R)) (q : list R) :
  Forall (fun q' => length q' = length q) qs ->
  length (foldl (zip_with f) q qs) = length q.
Proof.
  revert q. induction qs as [|q' qs IH]; intros q H; [reflexivity|].
  inversion H as [|? ? Hq Hqs]; subst. simpl. rewrite IH.
  - rewrite length_zip_with. lia.
  - eapply Forall_impl; [exact Hqs|]. intros x Hx. simpl in Hx.
    rewrite length_zip_with. lia.
Qed.

Lemma np_binop_same f (x y : list R) :
  length x = length y -> np_binop f x y = Ok (zip_with f x y).
Proof. intros H. unfold np_binop. apply bcast2_pure. exact H. Qed.

Section FitLemmas.
Context {C : Collaborators}.

Lemma compute_action_and_log_prob_exec p (state : list (list R)) (eps : noise)
    w_mu w_sigma half_range center :
  well_shaped p state w_mu w_sigma half_range center ->
  let mu := forward (params (_mu_approximator p)) w_mu in
  let log_sigma := forward (params (_sigma_approximator p)) w_sigma in
  compute_action_and_log_prob p state eps
  = Ok (imap (fun i s => squash_row half_range center
                           (raw_row (mu s) (log_sigma s) (eps i))) state,
        imap (fun i s => log_prob_row (mu s) (log_sigma s)
                           (raw_row (mu s) (log_sigma s) (eps i))) state).
Proof.
  intros Hw mu log_sigma. unfold compute_action_and_log_prob.
  rewrite (policy_exec _ _ _ _ _ _ Hw). cbn [mbind outcome_bind].
  unfold flatten, detach, to_numpy1. cbn [data fst snd concat].
  rewrite app_nil_r, concat_imap_singleton. do 2 f_equal.
  apply imap_ext. intros i s _. simpl. unfold log_prob_row.
  rewrite code_cells_spec. reflexivity.
Qed.

Lemma predict_min_exec (r : Regressor) (state action : list (list R)) :
  model r <> [] -> length action = length state ->
  exists predicted, predict_min r state action = Ok predicted /\
                    length predicted = length state.
Proof.
  intros Hm Hlen. unfold predict_min.
  destruct (model r) as [|w ws]; [contradiction|]. simpl.
  eexists. split; [reflexivity|].
  rewrite length_foldl_zip_with.
  - rewrite length_zip_with. lia.
  - apply Forall_fmap, Forall_forall. intros w' _. simpl.
    rewrite !length_zip_with. lia.
Qed.

Lemma critic_target_exec (self : SAC) (batch : list transition) (eps : noise)
    w_mu w_sigma half_range center :
  let next_state := t_next_state <$> batch in
  well_shaped (policy self) next_state w_mu w_sigma half_range center ->
  model (_target_critic_approximator self) <> [] ->
  exists a' log_prob' predicted,
    compute_action_and_log_prob (policy self) next_state eps = Ok (a', log_prob') /\
    predict_min (_target_critic_approximator self) next_state a' = Ok predicted /\
    length log_prob' = length batch /\
    length predicted = length batch /\
    critic_target self (t_reward <$> batch) next_state (t_absorbing <$> batch) eps
    = Ok (zip_with Rplus (t_reward <$> batch)
            (np_scale (gamma (mdp_info self))
               (zip_with Rmult
                  (zip_with Rminus predicted (np_scale (_alpha_np self) log_prob'))
                  ((fun b => 1 - b) <$> (t_absorbing <$> batch))))).
Proof.
  intros next_state Hw Hm.
  pose proof (compute_action_and_log_prob_exec _ _ eps _ _ _ _ Hw) as E.
  cbv zeta in E. fold next_state in E.
  eexists _, _.
  destruct (predict_min_exec (_target_critic_approximator self) next_state
              (imap (fun i s => squash_row half_range center
                 (raw_row (forward (params (_mu_approximator (policy self))) w_mu s)
                    (forward (params (_sigma_approximator (policy self))) w_sigma s)
                    (eps i))) next_state) Hm) as (predicted & Ep & Lp).
  { rewrite length_imap. reflexivity. }
  exists predicted. split; [exact E|]. split; [exact Ep|].
  assert (LN : length next_state = length batch) by (unfold next_state; apply length_fmap).
  split; [rewrite length_imap; exact LN|]. split; [lia|].
  unfold critic_target, _next_q. rewrite E. cbn [mbind outcome_bind].
  rewrite Ep. cbn [mbind outcome_bind].
  rewrite np_binop_same by (unfold np_scale; rewrite length_fmap, length_imap; lia).
  cbn [mbind outcome_bind].
  rewrite np_inplace_same
    by (unfold np_scale; rewrite length_zip_with, !length_fmap, length_imap; lia).
  cbn [mbind outcome_bind].
  rewrite np_binop_same
    by (unfold np_scale; rewrite !length_fmap, !length_zip_with, !length_fmap,
          length_imap; lia).
  reflexivity.
Qed.

Lemma fit_collecting (h : store) (self : SAC) (dataset : list transition)
    (rnd : draws) :
  rm_initialized (rm_add (_replay_memory self) dataset) = false ->
  fit h self dataset rnd
  = Ok (with_replay_memory (rm_add (_replay_memory self) dataset) self).
Proof. intros H. unfold fit. cbn [with_replay_memory _replay_memory]. rewrite H. reflexivity. Qed.

Lemma fit_initialized (h : store) (self self1 : SAC) (dataset : list transition)
    (rnd : draws) (q : list R) :
  let mem := rm_add (_replay_memory self) dataset in
  let self0 := with_replay_memory mem self in
  let batch := rm_get mem (_batch_size self) (batch_seed rnd) in
  rm_initialized mem = true ->
  (if bool_decide (_warmup_transitions self < rm_size mem)%Z
   then update_actor_and_alpha self0 (t_state <$> batch) (actor_noise rnd)
   else Ok self0) = Ok self1 ->
  critic_target self1 (t_reward <$> batch) (t_next_state <$> batch)
    (t_absorbing <$> batch) (next_noise rnd) = Ok q ->
  fit h self dataset rnd
  = _update_target
      (with_critic
         (Regressor_fit (_critic_approximator self1)
            (h !!! _critic_fit_params self1) (t_state <$> batch)
            (t_action <$> batch) q)
         self1).
Proof.
  intros mem self0 batch Hi Hp Hq. unfold fit.
  cbn [with_replay_memory _replay_memory _batch_size _warmup_transitions].
  fold mem. rewrite Hi. fold batch. fold self0.
  rewrite Hp. cbn [mbind outcome_bind]. rewrite Hq. reflexivity.
Qed.

End FitLemmas.

(** ** [fit] while collecting and the target it fits the critic to *)

Section FitClaims.
Context {C : Collaborators}.

(** The actor and temperature updates leave the critics, the replay
    memory and the configuration alone. *)
Lemma update_actor_and_alpha_frame (self self1 : SAC) (state : list (list R))
    (eps : noise) :
  update_actor_and_alpha self state eps = Ok self1 ->
  _critic_approximator self1 = _critic_approximator self /\
  _target_critic_approximator self1 = _target_critic_approximator self /\
  _replay_memory self1 = _replay_memory self /\
  _critic_fit_params self1 = _critic_fit_params self /\
  _tau self1 = _tau self /\
  mdp_info self1 = mdp_info self.
Proof.
  intros H.
  unfold update_actor_and_alpha, _optimize_actor_parameters, _update_alpha,
    mbind, outcome_bind in H.
  repeat case_match; simplify_eq. repeat split; reflexivity.
Qed.

(** C4, amended: a call of [fit] after whose append of the dataset the
    replay memory is still not initialized returns the agent with the
    dataset appended to its replay memory and nothing else changed: the
    policy with its two networks, both critic ensembles, [log_alpha] and
    the two optimizers are what they were. *)
Theorem fit_while_collecting (h : store) (self : SAC)
    (dataset : list transition) (rnd : draws) :
  rm_initialized (rm_add (_replay_memory self) dataset) = false ->
  exists self',
    fit h self dataset rnd = Ok self' /\
    self' = with_replay_memory (rm_add (_replay_memory self) dataset) self /\
    _replay_memory self' = rm_add (_replay_memory self) dataset /\
    policy self' = policy self /\
    _critic_approximator self' = _critic_approximator self /\
    _target_critic_approximator self' = _target_critic_approximator self /\
    _log_alpha self' = _log_alpha self /\
    _optimizer self' = _optimizer self /\
    _alpha_optim self' = _alpha_optim self.
Proof.
  intros H. eexists. split; [apply fit_collecting; exact H|].
  repeat split; reflexivity.
Qed.


End FitClaims.

(** ** [fit] during warm-up *)

Section WarmupClaim.
Context {C : Collaborators}.

(** C3, amended: in a call of [fit] that finds the replay memory
    initialized and of a size at most [warmup_transitions] (both read once
    the dataset is appended), the policy with its two networks,
    [log_alpha] and the two optimizers are left as they were.  The online
    critic becomes the ensemble fitted to the regression target, and
    member [i] of the target ensemble becomes
    [tau * online_i + (1 - tau) * target_i] over the fitted online
    weights.  Whether these differ from the old weights is up to the
    regression step and to [tau]. *)
Theorem fit_during_warmup (h : store) (self : SAC)
    (dataset : list transition) (rnd : draws)
    w_mu w_sigma half_range center :
  let mem := rm_add (_replay_memory self) dataset in
  let self0 := with_replay_memory mem self in
  let batch := rm_get mem (_batch_size self) (batch_seed rnd) in
  rm_initialized mem = true ->
  (rm_size mem <= _warmup_transitions self)%Z ->
  well_shaped (policy self) (t_next_state <$> batch)
    w_mu w_sigma half_range center ->
  model (_target_critic_approximator self) <> [] ->
  (forall self', fit h self dataset rnd = Ok self' ->
     policy self' = policy self /\
     _log_alpha self' = _log_alpha self /\
     _optimizer self' = _optimizer self /\
     _alpha_optim self' = _alpha_optim self /\
     _replay_memory self' = mem) /\
  exists q,
    critic_target self0 (t_reward <$> batch) (t_next_state <$> batch)
      (t_absorbing <$> batch) (next_noise rnd) = Ok q /\
    let fitted :=
      Regressor_fit (_critic_approximator self) (h !!! _critic_fit_params self)
        (t_state <$> batch) (t_action <$> batch) q in
    (aligned (model fitted) (model (_target_critic_approximator self)) ->
     exists self',
       fit h self dataset rnd = Ok self' /\
       _critic_approximator self' = fitted /\
       model (_target_critic_approximator self')
       = zip_with (soft_update (_tau self)) (model fitted)
           (model (_target_critic_approximator self))).
Proof.
  intros mem self0 batch Hi Hs Hw Hm.
  assert (Hp : (if bool_decide (_warmup_transitions self < rm_size mem)%Z
                then update_actor_and_alpha self0 (t_state <$> batch) (actor_noise rnd)
                else Ok self0) = Ok self0).
  { rewrite bool_decide_eq_false_2 by lia. reflexivity. }
  destruct (critic_target_exec self0 batch (next_noise rnd) _ _ _ _ Hw Hm)
    as (a' & lp & predicted & _ & _ & _ & _ & Eq).
  pose proof (fit_initialized h self self0 dataset rnd _ Hi Hp Eq) as Efit.
  fold mem batch in Efit.
  split.
  - intros self' H'. rewrite Efit in H'. unfold _update_target in H'.
    unfold mbind, outcome_bind in H'. case_match; simplify_eq.
    repeat split; reflexivity.
  - eexists. split; [exact Eq|]. intros fitted Hal.
    rewrite Efit. eexists. split; [apply _update_target_exec; exact Hal|].
    split; reflexivity.
Qed.

End WarmupClaim.

(** ** Concrete runs *)

Lemma example_well_shaped (state : list (list R)) :
  well_shaped (C := small_collaborators) example_policy state [1] [0]
    (np_scale 0.5 (zip_with Rminus [1] [-1]))
    (np_scale 0.5 (zip_with Rplus [1] [-1])).
Proof.
  unfold well_shaped, networks_shaped.
  repeat split; try reflexivity.
  apply Forall_forall. intros s _. split; reflexivity.
Defined.

Lemma log_prob_formula_and_finite_witness :
  exists a_true log_prob,
    compute_action_and_log_prob_t (C := small_collaborators) example_policy
      example_state true example_noise = Ok (a_true, log_prob) /\
    data log_prob =
      imap (fun i s => [log_prob_row [1] [0] (raw_row [1] [0] (example_noise i))])
        example_state.
Proof.
  destruct (log_prob_formula_and_finite (C := small_collaborators)
              example_policy example_state example_noise _ _ _ _
              (example_well_shaped example_state)) as (H & _).
  exact H.
Defined.

Lemma sampled_action_is_detached_witness :
  exists p,
    SACPolicy_init example_mu example_sigma [-1] [1] = Ok p /\
    exists a_true log_prob,
      compute_action_and_log_prob_t (C := small_collaborators) p example_state
        true example_noise = Ok (a_true, log_prob) /\
      data a_true =
        imap (fun i s =>
                squash_row (np_scale 0.5 (zip_with Rminus [1] [-1]))
                           (np_scale 0.5 (zip_with Rplus [1] [-1]))
                  (raw_row [1] [0] (example_noise i))) example_state /\
      graph a_true = ∅ /\
      graph log_prob = {[ MuWeights; SigmaWeights ]}.
Proof.
  eexists. split; [reflexivity|].
  exact (sampled_action_is_detached (C := small_collaborators) example_mu
           example_sigma [-1] [1] _ example_state example_noise [1] [0]
           eq_refl eq_refl example_networks_shaped).
Defined.

Lemma target_soft_update_witness :
  aligned [[0]; [0]] [[0]; [0]] /\
  exists self',
    _update_target (example_agent 0 (1 / 2) []) = Ok self' /\
    length (model (_target_critic_approximator self')) = 2%nat /\
    (1 / 2 = 1 -> model (_target_critic_approximator self') = [[0]; [0]]).
Proof.
  assert (Hal : aligned [[0]; [0]] [[0]; [0]]) by (repeat constructor).
  split; [exact Hal|].
  destruct (target_soft_update (example_agent 0 (1 / 2) []) Hal)
    as (self' & E & Hl & _ & _ & H1 & _).
  exists self'. split; [exact E|]. split; [exact Hl|exact H1].
Defined.

Lemma fit_while_collecting_witness :
  rm_initialized (Collaborators := small_collaborators)
    (rm_add (_replay_memory (example_agent 5 (1 / 2) [])) [terminal_transition]) = false /\
  exists self',
    fit example_store (example_agent 5 (1 / 2) []) [terminal_transition] example_draws
      = Ok self' /\
    policy self' = example_policy /\
    _log_alpha self' = 0.
Proof.
  split; [reflexivity|].
  destruct (fit_while_collecting example_store (example_agent 5 (1 / 2) [])
              [terminal_transition] example_draws eq_refl)
    as (self' & E & _ & _ & Hp & _ & _ & Ha & _).
  exists self'. split; [exact E|]. split; [exact Hp|exact Ha].
Defined.


Lemma constructor_mutates_critic_params_witness :
  is_Some (example_store !! 1%positive) /\
  exists h' self,
    SAC_init (C := small_collaborators) example_store example_args = Ok (h', self) /\
    h' !! 1%positive = Some (forced (example_store !!! 1%positive)) /\
    params (_critic_approximator self) = forced (example_store !!! 1%positive) /\
    h' !! 2%positive = example_store !! 2%positive /\
    h' !! 3%positive = example_store !! 3%positive.
Proof.
  assert (Hl : is_Some (example_store !! 1%positive)) by (eexists; reflexivity).
  split; [exact Hl|].
  eexists _, _. split; [reflexivity|].
  destruct (constructor_mutates_critic_params (C := small_collaborators)
              example_store _ example_args _ Hl eq_refl)
    as (H1 & _ & _ & _ & H2 & _ & _ & H3 & H4).
  split; [exact H1|]. split; [exact H2|].
  split; [apply H3|apply H4]; try (eexists; reflexivity); discriminate.
Defined.

(** The constructor on a dictionary with ["n_models"] 3. *)
Example three_models_rejected :
  SAC_init (C := small_collaborators) three_models_store example_args
  = Raise AssertionError.
Proof. reflexivity. Qed.

(** The constructor on a dictionary without the two keys. *)
Example defaults_inserted :
  exists h' self,
    SAC_init (C := small_collaborators) example_store example_args = Ok (h', self) /\
    h' !! 1%positive
    = Some {[ "network"%string := PObj 1; "output_shape"%string := PInt 1;
              "n_models"%string := PInt 2; "prediction"%string := PStr "min" ]} /\
    model (_critic_approximator self) = [[INR 7]; [INR 8]] /\
    model (_target_critic_approximator self) = [[INR 7]; [INR 8]].
Proof.
  eexists _, _. split; [reflexivity|]. repeat split; reflexivity.
Qed.


Lemma fit_during_warmup_witness :
  rm_initialized (Collaborators := small_collaborators)
    (rm_add (_replay_memory (example_agent 0 (1 / 2) [terminal_transition])) [terminal_transition]) = true /\
  (rm_size (Collaborators := small_collaborators)
     (rm_add (_replay_memory (example_agent 0 (1 / 2) [terminal_transition])) [terminal_transition])
   <= _warmup_transitions (example_agent 0 (1 / 2) [terminal_transition]))%Z /\
  forall self',
    fit example_store (example_agent 0 (1 / 2) [terminal_transition]) [terminal_transition] example_draws
      = Ok self' ->
    policy self' = example_policy /\ _log_alpha self' = 0.
Proof.
  assert (Hs : (rm_size (Collaborators := small_collaborators)
                  (rm_add (_replay_memory (example_agent 0 (1 / 2) [terminal_transition])) [terminal_transition])
                <= _warmup_transitions (example_agent 0 (1 / 2) [terminal_transition]))%Z)
    by (vm_compute; discriminate).
  split; [reflexivity|]. split; [exact Hs|].
  destruct (fit_during_warmup (C := small_collaborators) example_store
              (example_agent 0 (1 / 2) [terminal_transition]) [terminal_transition] example_draws _ _ _ _
              eq_refl Hs (example_well_shaped _) ltac:(discriminate))
    as (Hframe & _).
  intros self' H. destruct (Hframe self' H) as (Hp & Ha & _).
  split; [exact Hp|exact Ha].
Defined.

(** A call of [fit] in warm-up, before and after the append, that changes
    neither critic: with [tau = 1/2], the critics are at zero and the
    sampled transition is absorbing with reward 0, so the regression
    target is 0, the regression step has nothing to correct and the soft
    update averages equal weights. *)
Lemma quiet_warmup_fit :
  rm_initialized (_replay_memory quiet_agent) = true /\
  (rm_size (_replay_memory quiet_agent) <= _warmup_transitions quiet_agent)%Z /\
  rm_initialized (rm_add (_replay_memory quiet_agent) [terminal_transition])
    = true /\
  (rm_size (rm_add (_replay_memory quiet_agent) [terminal_transition])
   <= _warmup_transitions quiet_agent)%Z /\
  exists self',
    fit example_store quiet_agent [terminal_transition] example_draws = Ok self' /\
    model (_critic_approximator self') = model (_critic_approximator quiet_agent) /\
    model (_target_critic_approximator self')
      = model (_target_critic_approximator quiet_agent).
Proof.
  split; [reflexivity|]. split; [vm_compute; discriminate|].
  split; [reflexivity|]. split; [vm_compute; discriminate|].
  set (self0 := with_replay_memory
                  (rm_add (_replay_memory quiet_agent) [terminal_transition])
                  quiet_agent).
  destruct (critic_target_exec (C := small_collaborators) self0
              [terminal_transition] example_noise _ _ _ _
              (example_well_shaped _) ltac:(discriminate))
    as (a' & lp & predicted & _ & _ & Ll & Lp & Eq).
  destruct lp as [|l [|? ?]]; try discriminate.
  destruct predicted as [|p [|? ?]]; try discriminate.
  pose proof (fit_initialized (C := small_collaborators) example_store
                quiet_agent self0 [terminal_transition]
                example_draws _ eq_refl eq_refl Eq) as Efit.
  rewrite Efit. rewrite _update_target_exec by (repeat constructor).
  eexists. split; [reflexivity|].
  cbn. unfold soft_update, half_step. cbn.
  split; repeat f_equal; lra.
Qed.

(** A call of [fit] in warm-up with [tau = 0]: the soft update keeps the
    target weights whatever the regression step did. *)
Lemma frozen_target_fit :
  rm_initialized (rm_add (_replay_memory frozen_agent) [rewarded_transition])
    = true /\
  (rm_size (rm_add (_replay_memory frozen_agent) [rewarded_transition])
   <= _warmup_transitions frozen_agent)%Z /\
  exists self',
    fit example_store frozen_agent [rewarded_transition] example_draws = Ok self' /\
    model (_target_critic_approximator self')
      = model (_target_critic_approximator frozen_agent).
Proof.
  split; [reflexivity|]. split; [vm_compute; discriminate|].
  set (self0 := with_replay_memory
                  (rm_add (_replay_memory frozen_agent) [rewarded_transition])
                  frozen_agent).
  destruct (critic_target_exec (C := small_collaborators) self0
              [rewarded_transition] example_noise _ _ _ _
              (example_well_shaped _) ltac:(discriminate))
    as (a' & lp & predicted & _ & _ & Ll & Lp & Eq).
  destruct lp as [|l [|? ?]]; try discriminate.
  destruct predicted as [|p [|? ?]]; try discriminate.
  pose proof (fit_initialized (C := small_collaborators) example_store
                frozen_agent self0 [rewarded_transition]
                example_draws _ eq_refl eq_refl Eq) as Efit.
  rewrite Efit. rewrite _update_target_exec by (repeat constructor).
  eexists. split; [reflexivity|].
  cbn. unfold soft_update, half_step. cbn.
  repeat f_equal; lra.
Qed.

(** C4 as stated fails on the call that initializes the replay memory:
    the memory is not initialized when [fit] is called, the dataset makes
    it so, and the same call fits the critic and moves the target. *)
Lemma fit_on_the_initializing_call :
  rm_initialized (_replay_memory filling_agent) = false /\
  exists self',
    fit example_store filling_agent [paying_terminal_transition] example_draws
      = Ok self' /\
    model (_critic_approximator self')
      <> model (_critic_approximator filling_agent) /\
    model (_target_critic_approximator self')
      <> model (_target_critic_approximator filling_agent).
Proof.
  split; [reflexivity|].
  set (self0 := with_replay_memory
                  (rm_add (_replay_memory filling_agent)
                     [paying_terminal_transition]) filling_agent).
  destruct (critic_target_exec (C := small_collaborators) self0
              [paying_terminal_transition] example_noise _ _ _ _
              (example_well_shaped _) ltac:(discriminate))
    as (a' & lp & predicted & _ & _ & Ll & Lp & Eq).
  destruct lp as [|l [|? ?]]; try discriminate.
  destruct predicted as [|p [|? ?]]; try discriminate.
  pose proof (fit_initialized (C := small_collaborators) example_store
                filling_agent self0 [paying_terminal_transition]
                example_draws _ eq_refl eq_refl Eq) as Efit.
  rewrite Efit. rewrite _update_target_exec by (repeat constructor).
  eexists. split; [reflexivity|].
  cbn. unfold soft_update, half_step. cbn.
  split; intros H; injection H as H _; lra.
Qed.

(** ** [fit] on the call that ends the warm-up *)

Lemma div_checked_nonzero (x y : R) : y <> 0 -> div_checked x y = Ok (x / y).
Proof.
  intros H. unfold div_checked. destruct (Req_dec_T y 0); [contradiction|reflexivity].
Qed.

Lemma tanh_0 : tanh 0 = 0.
Proof. unfold tanh. rewrite sinh_0, cosh_0. lra. Qed.

(** The log-probability of the raw sample 0 under the standard normal
    distribution is negative. *)
Lemma log_prob_at_zero : log_prob_row [1] [0] [0] < 0.
Proof.
  unfold log_prob_row. simpl. unfold log_prob_cell.
  rewrite ln_normal_density. rewrite tanh_0, exp_0, ln_1.
  assert (H1 : 0 < ln (sqrt (2 * PI))).
  { pose proof (sqrt_lt_1 1 (2 * PI)) as H. rewrite sqrt_1 in H.
    pose proof PI2_1.
    pose proof (ln_increasing 1 (sqrt (2 * PI))) as L. rewrite ln_1 in L.
    apply L; [lra|]. apply H; lra. }
  assert (H2 : 0 < ln (1 - 0 ^ 2 + 1e-6)).
  { pose proof (ln_increasing 1 (1 - 0 ^ 2 + 1e-6)) as L. rewrite ln_1 in L.
    apply L; unfold pow; lra. }
  unfold pow in *. lra.
Qed.

Lemma bcast2_single_l {A B D} (F : A -> B -> outcome D) (a : A) (y : list B) :
  bcast2 F [a] y = for_each (fun b => F a b) y.
Proof.
  unfold bcast2. destruct (decide (length [a] = length y)) as [e|n].
  - destruct y as [|b [|b' y]]; simpl in e; try discriminate. reflexivity.
  - destruct y as [|b [|b' y]]; reflexivity.
Qed.

Section Learning.
Context {C : Collaborators}.

(** The actor loss: the mean over all pairs of a row [i] of the
    log-probability and a row [j] of the critic values of
    [alpha * log_prob_i - min(q_0, q_1)_j], since a column minus a vector
    broadcasts to a square. *)
Lemma _loss_exec (self : SAC) (state : list (list R)) (action_new : tensor)
    (g : gset leaf) (lps : list R) w0 w1 :
  model (_critic_approximator self) !! 0%nat = Some w0 ->
  model (_critic_approximator self) !! 1%nat = Some w1 ->
  lps <> [] -> state <> [] -> data action_new <> [] ->
  let q k := zip_with (q_value (params (_critic_approximator self)) k) state
               (data action_new) in
  let cells :=
    concat ((fun l => (fun b => exp (_log_alpha self) * l - b) <$>
                        zip_with Rmin (q w0) (q w1)) <$> lps) in
  exists g',
    _loss self state action_new (Tensor ((fun l => [l]) <$> lps) g)
    = Ok (scalar (sum_list_R cells / INR (length cells)) g').
Proof.
  intros H0 H1 Hl Hs Ha q cells.
  unfold _loss, predict_idx.
  rewrite (get_weights_lookup _ _ _ H0), (get_weights_lookup _ _ _ H1).
  cbn [mbind outcome_bind]. fold (q w0) (q w1).
  unfold torch_min, t_mul, t_sub, t_binop, _alpha, torch_exp, t_map, scalar.
  cbn [data graph fmap list_fmap].
  rewrite bcast2_single.
  cbn [for_each mbind outcome_bind].
  rewrite bcast2_pure by (unfold q; rewrite !length_zip_with; reflexivity).
  cbn [mbind outcome_bind data graph].
  rewrite bcast2_single_l.
  rewrite (for_each_fmap _ _ (fun l => [exp (_log_alpha self) * l])).
  2:{ intros l. rewrite bcast2_single. reflexivity. }
  cbn [mbind outcome_bind data graph].
  rewrite bcast2_single.
  rewrite (for_each_fmap _ _
             (fun l => (fun b => exp (_log_alpha self) * l - b) <$>
                         zip_with Rmin (q w0) (q w1))).
  2:{ intros l. rewrite bcast2_single_l.
      unfold pure2. rewrite for_each_pure. reflexivity. }
  cbn [mbind outcome_bind]. unfold mean. cbn [data graph]. fold cells.
  rewrite div_checked_nonzero.
  - eexists. reflexivity.
  - apply not_0_INR. unfold cells.
    destruct lps as [|l lps]; [contradiction|].
    destruct state as [|s state]; [contradiction|].
    destruct (data action_new) as [|a an]; [contradiction|].
    unfold q. simpl. discriminate.
Qed.

Lemma concat_singletons (f : R -> R) (lps : list R) :
  concat (fmap (M := list) (fmap (M := list) f) ((fun l => [l]) <$> lps))
  = f <$> lps.
Proof.
  induction lps as [|l lps IH]; [reflexivity|].
  cbn [fmap list_fmap concat app]. f_equal. exact IH.
Qed.

(** The actor and temperature updates on a well-shaped policy, a batch
    with a row and a critic of two members: they return, the weights of
    the two networks of the policy are those the actor optimizer steps
    to, and [log_alpha] is the one Adam steps to along
    [-(log_prob + target_entropy).mean()]. *)
Lemma update_actor_and_alpha_exec (self : SAC) (state : list (list R))
    (eps : noise) w_mu w_sigma half_range center w0 w1 :
  well_shaped (policy self) state w_mu w_sigma half_range center ->
  model (_critic_approximator self) !! 0%nat = Some w0 ->
  model (_critic_approximator self) !! 1%nat = Some w1 ->
  state <> [] ->
  let mu := forward (params (_mu_approximator (policy self))) w_mu in
  let log_sigma := forward (params (_sigma_approximator (policy self))) w_sigma in
  let lps := imap (fun i s => log_prob_row (mu s) (log_sigma s)
                                (raw_row (mu s) (log_sigma s) (eps i))) state in
  let m := sum_list_R ((fun l => l + IZR (_target_entropy self)) <$> lps)
           / INR (length lps) in
  exists self1 loss,
    update_actor_and_alpha self state eps = Ok self1 /\
    _log_alpha self1
      = (adam_step (_alpha_optim self) (_log_alpha self) (- (m + 0))).1 /\
    let stepped :=
      actor_optimizer_step (_optimizer self)
        (ActorLossInputs state eps (model (_critic_approximator self))
           (_log_alpha self) loss) (w_mu, w_sigma) in
    model (_mu_approximator (policy self1))
      = <[0%nat := stepped.1.1]> (model (_mu_approximator (policy self))) /\
    model (_sigma_approximator (policy self1))
      = <[0%nat := stepped.1.2]> (model (_sigma_approximator (policy self))) /\
    params (_mu_approximator (policy self1))
      = params (_mu_approximator (policy self)) /\
    params (_sigma_approximator (policy self1))
      = params (_sigma_approximator (policy self)) /\
    _delta_a (policy self1) = _delta_a (policy self) /\
    _central_a (policy self1) = _central_a (policy self).
Proof.
  intros Hw H0 H1 Hs mu log_sigma lps m.
  unfold update_actor_and_alpha.
  rewrite (policy_exec _ _ _ _ _ _ Hw). cbn [mbind outcome_bind].
  assert (El : imap (fun i s =>
                 [sum_list_R (code_cells (mu s) (log_sigma s)
                                (raw_row (mu s) (log_sigma s) (eps i)))]) state
               = (fun l => [l]) <$> lps).
  { unfold lps. rewrite map_imap. apply imap_ext. intros i s _. simpl.
    unfold log_prob_row. rewrite code_cells_spec. reflexivity. }
  fold mu log_sigma. rewrite El.
  assert (Hlps : lps <> []).
  { unfold lps. destruct state; [contradiction|discriminate]. }
  edestruct (_loss_exec self state) as (g' & ->); try eassumption.
  { cbn [data]. destruct state; [contradiction|discriminate]. }
  cbn [mbind outcome_bind].
  unfold _optimize_actor_parameters.
  destruct Hw as ((Hm & Hsg & _) & _).
  rewrite (get_weights_lookup _ _ _ Hm), (get_weights_lookup _ _ _ Hsg).
  cbn [mbind outcome_bind].
  match goal with
  | |- context [actor_optimizer_step ?o ?i ?w] =>
      destruct (actor_optimizer_step o i w) as [[w_mu' w_sigma'] opt] eqn:Estep
  end.
  rewrite (set_weights_Ok _ _ _ _ Hm), (set_weights_Ok _ _ _ _ Hsg).
  cbn [mbind outcome_bind].
  unfold _update_alpha, mean, detach, t_map.
  cbn [data graph with_actor _target_entropy _alpha_optim _log_alpha].
  rewrite concat_singletons.
  rewrite div_checked_nonzero.
  2:{ apply not_0_INR. rewrite length_fmap.
      destruct lps; [contradiction|discriminate]. }
  cbn [mbind outcome_bind scalar data concat app sum_list_R foldr].
  rewrite length_fmap. fold m.
  destruct (adam_step (_alpha_optim self) (_log_alpha self) (- (m + 0)))
    as [la opt'] eqn:Eadam.
  eexists _, _. split; [reflexivity|].
  cbn [with_alpha _log_alpha policy with_actor _mu_approximator
       _sigma_approximator _delta_a _central_a model params fst snd].
  split; [reflexivity|].
  cbn zeta. rewrite Estep. repeat split; reflexivity.
Qed.

End Learning.


Lemma half_step_length (w target : list R) :
  length (half_step w target) = length w.
Proof. destruct w as [|w0 [|? ?]], target; reflexivity. Qed.

(** A call of [fit] made in warm-up whose dataset takes the replay memory
    past the warm-up: the same call updates the temperature. *)
Lemma fit_on_the_call_that_ends_warmup :
  rm_initialized (_replay_memory crossing_agent) = true /\
  (rm_size (_replay_memory crossing_agent)
   <= _warmup_transitions crossing_agent)%Z /\
  exists self',
    fit example_store crossing_agent [terminal_transition] crossing_draws
      = Ok self' /\
    _log_alpha self' <> _log_alpha crossing_agent.
Proof.
  split; [reflexivity|]. split; [vm_compute; discriminate|].
  set (self0 := with_replay_memory
                  (rm_add (_replay_memory crossing_agent) [terminal_transition])
                  crossing_agent).
  destruct (update_actor_and_alpha_exec (C := small_collaborators) self0
              [[0]] (fun _ _ => -1) _ _ _ _ [0] [0]
              (example_well_shaped _) eq_refl eq_refl ltac:(discriminate))
    as (self1 & loss & E1 & Hla & Hmu & Hsg & Pmu & Psg & Hd & Hc).
  destruct (update_actor_and_alpha_frame _ _ _ _ E1) as (Fc & Ft & _ & _ & Ftau & _).
  assert (Hw : well_shaped (C := small_collaborators) (policy self1) [[0]]
                 [1 - loss] [0]
                 (np_scale 0.5 (zip_with Rminus [1] [-1]))
                 (np_scale 0.5 (zip_with Rplus [1] [-1]))).
  { unfold well_shaped, networks_shaped. rewrite Hmu, Hsg, Hd, Hc.
    split; [split; [reflexivity|split; [reflexivity|]]|];
      [apply Forall_forall; intros s _; split; reflexivity
      |repeat split; reflexivity]. }
  destruct (critic_target_exec (C := small_collaborators) self1
              [terminal_transition] example_noise _ _ _ _ Hw
              ltac:(rewrite Ft; discriminate))
    as (a' & lp & predicted & _ & _ & Ll & Lp & Eq).
  pose proof (fit_initialized (C := small_collaborators) example_store
                crossing_agent self1 [terminal_transition] crossing_draws _
                eq_refl E1 Eq) as Efit.
  rewrite Efit. rewrite _update_target_exec.
  2:{ cbn [with_critic _critic_approximator _target_critic_approximator].
      rewrite Fc, Ft.
      repeat (constructor; [apply half_step_length|]). constructor. }
  eexists. split; [reflexivity|].
  cbn [with_target_critic with_critic _log_alpha]. rewrite Hla.
  pose proof log_prob_at_zero as Hneg.
  cbn. cbn in Hneg. rewrite exp_0.
  replace (1 + 1 * -1) with 0 by lra. lra.
Qed.

(** C3 as stated fails, in two calls of [fit] made while the replay memory
    is initialized and of a size at most [warmup_transitions].  In the
    first the agent is still in warm-up after the append and neither
    critic changes.  In the second the append ends the warm-up and the
    call updates the temperature. *)
Lemma warmup_claim_fails :
  (rm_initialized (_replay_memory quiet_agent) = true /\
   (rm_size (_replay_memory quiet_agent) <= _warmup_transitions quiet_agent)%Z /\
   rm_initialized (rm_add (_replay_memory quiet_agent) [terminal_transition])
     = true /\
   (rm_size (rm_add (_replay_memory quiet_agent) [terminal_transition])
    <= _warmup_transitions quiet_agent)%Z /\
   exists self',
     fit example_store quiet_agent [terminal_transition] example_draws
       = Ok self' /\
     model (_critic_approximator self')
       = model (_critic_approximator quiet_agent) /\
     model (_target_critic_approximator self')
       = model (_target_critic_approximator quiet_agent)) /\
  (rm_initialized (_replay_memory crossing_agent) = true /\
   (rm_size (_replay_memory crossing_agent)
    <= _warmup_transitions crossing_agent)%Z /\
   exists self',
     fit example_store crossing_agent [terminal_transition] crossing_draws
       = Ok self' /\
     _log_alpha self' <> _log_alpha crossing_agent).
Proof.
  split; [exact quiet_warmup_fit|exact fit_on_the_call_that_ends_warmup].
Qed.

(** ** The policy: bounds, shapes and the two ways of drawing an action *)

Lemma bounds_round_trip (min_a max_a : list R) :
  length min_a = length max_a ->
  zip_with Rminus (np_scale 0.5 (zip_with Rplus max_a min_a))
                  (np_scale 0.5 (zip_with Rminus max_a min_a)) = min_a /\
  zip_with Rplus (np_scale 0.5 (zip_with Rplus max_a min_a))
                 (np_scale 0.5 (zip_with Rminus max_a min_a)) = max_a.
Proof.
  revert max_a. induction min_a as [|lo min_a IH]; intros [|hi max_a] H;
    try discriminate; [split; reflexivity|].
  injection H as H. destruct (IH _ H) as [E1 E2].
  unfold np_scale in *. cbn [zip_with fmap list_fmap].
  split; f_equal; first [lra | assumption].
Qed.

Lemma half_range_nonnegative (min_a max_a : list R) :
  Forall2 Rle min_a max_a ->
  Forall (Rle 0) (np_scale 0.5 (zip_with Rminus max_a min_a)).
Proof.
  induction 1 as [|lo hi min_a max_a Hle _ IH]; [constructor|].
  unfold np_scale in *. cbn [zip_with fmap list_fmap].
  constructor; [lra|exact IH].
Qed.

Lemma np_binop_error f (x y : list R) :
  np_binop f x y = Raise ValueError <->
  length x <> length y /\ length x <> 1%nat /\ length y <> 1%nat.
Proof.
  unfold np_binop, bcast2, pure2.
  destruct (decide (length x = length y)) as [e|n].
  - rewrite for_each_pure. split; [discriminate|]. intros (H & _). contradiction.
  - destruct x as [|a [|a' x]], y as [|b [|b' y]];
      try rewrite for_each_pure; simpl in *;
      split; try discriminate; try (intros (_ & H1 & H2); congruence);
      intros _; repeat split; congruence.
Qed.

Section PolicyUse.
Context {C : Collaborators}.

Lemma bounds_cells (min_a max_a : list R) :
  np_scale 0.5 (zip_with Rminus max_a min_a)
    = zip_with (delta_cell real_arithmetic) min_a max_a /\
  np_scale 0.5 (zip_with Rplus max_a min_a)
    = zip_with (central_cell real_arithmetic) min_a max_a.
Proof.
  unfold np_scale.
  revert max_a. induction min_a as [|lo min_a IH]; intros [|hi max_a];
    try (split; reflexivity).
  destruct (IH max_a) as [E1 E2].
  cbn [zip_with fmap list_fmap]. split; f_equal; try assumption;
    unfold delta_cell, central_cell;
    cbn [n_add n_sub n_mul n_ratio real_arithmetic]; lra.
Qed.

(** X1: over the reals, the policy keeps the bounds as a center and a half
    range, from which they are recovered: [center - half_range] is [min_a]
    and [center + half_range] is [max_a], component by component; both
    are constants for the gradient, and the half range is not negative
    when [min_a <= max_a].  In double precision the same arithmetic need
    not give the bounds back: for the bounds 0.1 and 0.5 it gives a
    number below 0.1. *)
Theorem bounds_recovered_from_policy mu sigma (min_a max_a : list R) p :
  length min_a = length max_a ->
  SACPolicy_init mu sigma min_a max_a = Ok p ->
  (exists half_range center,
     data (_delta_a p) = [half_range] /\
     data (_central_a p) = [center] /\
     half_range = zip_with (delta_cell real_arithmetic) min_a max_a /\
     center = zip_with (central_cell real_arithmetic) min_a max_a /\
     zip_with Rminus center half_range = min_a /\
     zip_with Rplus center half_range = max_a /\
     graph (_delta_a p) = ∅ /\
     graph (_central_a p) = ∅ /\
     (Forall2 Rle min_a max_a -> Forall (Rle 0) half_range)) /\
  (let double := ieee binary64 in
   let low := n_ratio double 1 10 in
   let high := n_ratio double 1 2 in
   SFltb (n_sub double (central_cell double low high)
            (delta_cell double low high)) low = true).
Proof.
  intros Hlen Hp. split; [|vm_compute; reflexivity].
  rewrite SACPolicy_init_Ok in Hp by exact Hlen.
  injection Hp as <-. cbn [_delta_a _central_a from_numpy data graph].
  destruct (bounds_round_trip _ _ Hlen) as [E1 E2].
  destruct (bounds_cells min_a max_a) as [B1 B2].
  eexists _, _. repeat split; try reflexivity; try assumption.
  apply half_range_nonnegative.
Qed.

Lemma SACPolicy_init_error mu sigma (min_a max_a : list R) :
  SACPolicy_init mu sigma min_a max_a = Raise ValueError <->
  length min_a <> length max_a /\
  length min_a <> 1%nat /\ length max_a <> 1%nat.
Proof.
  unfold SACPolicy_init.
  pose proof (np_binop_error Rminus max_a min_a) as E1.
  pose proof (np_binop_error Rplus max_a min_a) as E2.
  destruct (np_binop_outcome Rminus max_a min_a) as [(z & Hz)|Hz];
    rewrite Hz in *; cbn [mbind outcome_bind].
  - destruct (np_binop_outcome Rplus max_a min_a) as [(z' & Hz')|Hz'];
      rewrite Hz' in *; cbn [mbind outcome_bind].
    + split; [discriminate|]. intros (H1 & H2 & H3).
      destruct E1 as [_ E1]. discriminate E1. repeat split; congruence.
    + split; [|reflexivity]. intros _.
      destruct E2 as [E2 _]. destruct (E2 eq_refl) as (H1 & H2 & H3).
      repeat split; congruence.
  - split; [|reflexivity]. intros _.
    destruct E1 as [E1 _]. destruct (E1 eq_refl) as (H1 & H2 & H3).
    repeat split; congruence.
Qed.

(** X2: the constructor of the policy fails exactly when the two bounds
    cannot be broadcast, that is when their lengths differ and neither is
    of length 1; the failure is a [ValueError], and otherwise the policy
    is built around the two approximators it was given. *)
Theorem policy_bounds_shape_error mu sigma (min_a max_a : list R) :
  let unfit := length min_a <> length max_a /\
               length min_a <> 1%nat /\ length max_a <> 1%nat in
  (SACPolicy_init mu sigma min_a max_a = Raise ValueError <-> unfit) /\
  (~ unfit ->
   exists p, SACPolicy_init mu sigma min_a max_a = Ok p /\
             _mu_approximator p = mu /\ _sigma_approximator p = sigma).
Proof.
  intros unfit.
  split; [apply SACPolicy_init_error|].
  intros Hfit.
  destruct (SACPolicy_init_outcome mu sigma min_a max_a) as [(p & Hp)|Hp].
  - exists p. split; [exact Hp|].
    unfold SACPolicy_init in Hp.
    destruct (np_binop Rminus max_a min_a); try discriminate.
    destruct (np_binop Rplus max_a min_a); try discriminate.
    cbn [mbind outcome_bind] in Hp. injection Hp as <-. split; reflexivity.
  - apply SACPolicy_init_error in Hp. contradiction.
Qed.

(** X3: the action [draw_action] returns is the action
    [compute_action_and_log_prob] evaluates: whenever the latter returns
    an action and its log-probability for a state batch and a draw of the
    noise, the former returns that same action for them. *)
Theorem draw_action_is_the_evaluated_action (p : SACPolicy)
    (state : list (list R)) (eps : noise) (a : list (list R)) (lp : list R) :
  compute_action_and_log_prob p state eps = Ok (a, lp) ->
  draw_action p state eps = Ok a.
Proof.
  unfold compute_action_and_log_prob, draw_action,
    compute_action_and_log_prob_t.
  destruct (distribution p state) as [dist| |]; try discriminate.
  cbn [mbind outcome_bind].
  destruct (t_mul _ _) as [scaled| |]; try discriminate.
  cbn [mbind outcome_bind].
  destruct (t_add _ _) as [a_true| |]; try discriminate.
  cbn [mbind outcome_bind].
  destruct (Normal_log_prob _ _) as [l1| |]; try discriminate.
  cbn [mbind outcome_bind].
  destruct (torch_log _) as [c| |]; try discriminate.
  cbn [mbind outcome_bind].
  destruct (t_inplace _ _ _) as [l2| |]; try discriminate.
  cbn [mbind outcome_bind fst snd].
  intros H. injection H as <- _. reflexivity.
Qed.

(** X4: for a policy built from bounds with [min_a <= max_a] and networks
    that fit the batch, [draw_action] returns one action per state, each
    with one component per bound, every component within its bounds. *)
Theorem draw_action_shape_and_bounds mu sigma (min_a max_a : list R) p
    (state : list (list R)) (eps : noise) w_mu w_sigma :
  SACPolicy_init mu sigma min_a max_a = Ok p ->
  Forall2 Rle min_a max_a ->
  networks_shaped mu sigma state w_mu w_sigma (length min_a) ->
  exists a,
    draw_action p state eps = Ok a /\
    length a = length state /\
    Forall (fun row => length row = length min_a /\
                       Forall2 (fun x bound => bound.1 <= x <= bound.2)
                         row (zip min_a max_a)) a.
Proof.
  intros Hp Hle Hn.
  pose proof (Forall2_length _ _ _ Hle) as Hlen.
  destruct (init_well_shaped _ _ _ _ _ _ _ _ Hp Hlen Hn) as (Hw & _ & _).
  destruct (action_exec _ state _ _ _ _ Hw false eps) as (r & Hr & Ha).
  unfold draw_action. rewrite Hr. cbn [mbind outcome_bind].
  eexists. split; [reflexivity|].
  cbn [returned_action] in Ha. rewrite Ha. cbn [detach data].
  split; [apply length_imap|].
  apply Forall_lookup. intros i row Hi.
  rewrite list_lookup_imap in Hi.
  destruct (state !! i) as [s|] eqn:Es; [|discriminate].
  injection Hi as <-.
  assert (HB : Forall2 (fun x bound => bound.1 <= x <= bound.2)
                 (squash_row (np_scale 0.5 (zip_with Rminus max_a min_a))
                    (np_scale 0.5 (zip_with Rplus max_a min_a))
                    (raw_row (forward (params (_mu_approximator p)) w_mu s)
                       (forward (params (_sigma_approximator p)) w_sigma s)
                       (eps i)))
                 (zip min_a max_a)).
  { apply squash_row_bounds; [exact Hle|].
    destruct Hw as ((_ & _ & HF) & _). rewrite Forall_lookup in HF.
    destruct (HF i s Es) as [H1 H2].
    unfold np_scale in H1, H2. rewrite length_fmap, length_zip_with in H1, H2.
    rewrite length_raw_row; lia. }
  split; [|exact HB].
  apply Forall2_length in HB. rewrite HB, length_zip. lia.
Qed.

End PolicyUse.

(** The normal log-density of a raw sample [m + sigma * e] does not depend
    on the mean. *)
Lemma ln_normal_density_of_noise (m ls e : R) :
  ln (normal_density m (exp ls) (m + exp ls * e))
  = - e ^ 2 / 2 - ls - ln (sqrt (2 * PI)).
Proof.
  rewrite ln_normal_density, ln_exp.
  pose proof (exp_pos ls) as Hpos.
  replace (- (m + exp ls * e - m) ^ 2 / (2 * exp ls ^ 2)) with (- e ^ 2 / 2);
    [reflexivity|].
  unfold pow. field. lra.
Qed.

Lemma zip_with_over_raw {A} (F : R -> R * R -> A) (G : nat -> R * R -> R)
    (mu ls : list R) :
  zip_with F (imap G (zip mu (exp <$> ls))) (zip mu ls)
  = imap (fun j p => F (G j (p.1, exp p.2)) p) (zip mu ls).
Proof.
  revert ls G. induction mu as [|m mu IH]; intros [|l ls] G; try reflexivity.
  cbn [fmap list_fmap zip zip_with imap]. f_equal. apply IH.
Qed.

Lemma log_prob_row_of_noise (mu ls : list R) (e : nat -> R) :
  log_prob_row mu ls (raw_row mu ls e) = log_prob_of_noise mu ls e.
Proof.
  unfold log_prob_row, raw_row, log_prob_of_noise.
  rewrite zip_with_over_raw. f_equal. apply imap_ext. intros j [m l] _.
  cbn [fst snd]. unfold log_prob_cell.
  rewrite ln_normal_density_of_noise. reflexivity.
Qed.

Section PolicyNoise.
Context {C : Collaborators}.

(** X5: in terms of the noise [e] behind the raw sample, the
    log-probability of a row is the sum over the action dimension of
    [- e^2 / 2 - log_sigma - ln (sqrt (2 pi))
     - ln (1 - tanh(mu + exp(log_sigma) * e)^2 + 1e-6)]:
    the mean enters through the squashing correction only. *)
Theorem log_prob_in_terms_of_noise p (state : list (list R)) (eps : noise)
    w_mu w_sigma half_range center :
  well_shaped p state w_mu w_sigma half_range center ->
  let mu := forward (params (_mu_approximator p)) w_mu in
  let log_sigma := forward (params (_sigma_approximator p)) w_sigma in
  exists a,
    compute_action_and_log_prob p state eps
    = Ok (a, imap (fun i s => log_prob_of_noise (mu s) (log_sigma s) (eps i))
               state).
Proof.
  intros Hw mu log_sigma.
  rewrite (compute_action_and_log_prob_exec _ _ _ _ _ _ _ Hw).
  eexists. f_equal. f_equal. apply imap_ext. intros i s _.
  apply log_prob_row_of_noise.
Qed.

End PolicyNoise.

Lemma bounds_recovered_from_policy_witness :
  exists p,
    SACPolicy_init example_mu example_sigma [-1] [1] = Ok p /\
    exists half_range center,
      data (_delta_a p) = [half_range] /\
      data (_central_a p) = [center] /\
      zip_with Rminus center half_range = [-1] /\
      zip_with Rplus center half_range = [1].
Proof.
  eexists. split; [reflexivity|].
  destruct (bounds_recovered_from_policy example_mu example_sigma [-1] [1] _
              eq_refl eq_refl)
    as ((hr & c & H1 & H2 & _ & _ & H3 & H4 & _) & _).
  exists hr, c. auto.
Defined.

Lemma draw_action_is_the_evaluated_action_witness :
  exists a lp,
    compute_action_and_log_prob (C := small_collaborators) example_policy
      example_state example_noise = Ok (a, lp) /\
    draw_action (C := small_collaborators) example_policy example_state
      example_noise = Ok a.
Proof.
  pose proof (compute_action_and_log_prob_exec (C := small_collaborators)
                example_policy example_state example_noise _ _ _ _
                (example_well_shaped example_state)) as H.
  cbv zeta in H.
  eexists _, _. split; [exact H|].
  exact (draw_action_is_the_evaluated_action _ _ _ _ _ H).
Defined.

Lemma draw_action_shape_and_bounds_witness :
  exists p,
    SACPolicy_init example_mu example_sigma [-1] [1] = Ok p /\
    Forall2 Rle [-1] [1] /\
    exists a,
      draw_action (C := small_collaborators) p example_state example_noise
        = Ok a /\
      length a = 2%nat.
Proof.
  assert (Hle : Forall2 Rle [-1] [1]) by (repeat constructor; lra).
  eexists. split; [reflexivity|]. split; [exact Hle|].
  destruct (draw_action_shape_and_bounds (C := small_collaborators) example_mu
              example_sigma [-1] [1] _ example_state example_noise [1] [0]
              eq_refl Hle example_networks_shaped)
    as (a & Ha & Hlen & _).
  exists a. split; [exact Ha|exact Hlen].
Defined.

Lemma log_prob_in_terms_of_noise_witness :
  exists a,
    compute_action_and_log_prob (C := small_collaborators) example_policy
      example_state example_noise
    = Ok (a, imap (fun i _ => log_prob_of_noise [1] [0] (example_noise i))
               example_state).
Proof.
  exact (log_prob_in_terms_of_noise (C := small_collaborators) example_policy
           example_state example_noise _ _ _ _
           (example_well_shaped example_state)).
Defined.

(** ** The target critic under repeated updates *)

Lemma zip_with_diag {A} (f : A -> A -> A) (l : list A) :
  (forall x, f x x = x) -> zip_with f l l = l.
Proof.
  intros H. induction l as [|x l IH]; [reflexivity|].
  cbn [zip_with]. rewrite H, IH. reflexivity.
Qed.

Lemma zip_with_zip_with_r {A B D} (f : A -> B -> D) (g : A -> B -> B)
    (x : list A) (y : list B) :
  zip_with f x (zip_with g x y) = zip_with (fun a b => f a (g a b)) x y.
Proof.
  revert y. induction x as [|a x IH]; intros [|b y]; try reflexivity.
  cbn [zip_with]. rewrite IH. reflexivity.
Qed.

Lemma aligned_refl (on : list (list R)) : aligned on on.
Proof. unfold aligned. induction on; constructor; auto. Qed.

Lemma aligned_soft_update (tau : R) (on tg : list (list R)) :
  aligned on tg -> aligned on (zip_with (soft_update tau) on tg).
Proof.
  unfold aligned. induction 1 as [|o t on tg H _ IH]; [constructor|].
  cbn [zip_with]. constructor; [|exact IH].
  unfold soft_update. rewrite length_zip_with. lia.
Qed.

Lemma decayed_zero (tau : R) (o t : list R) :
  length o = length t -> decayed tau 0 o t = t.
Proof.
  revert t. induction o as [|a o IH]; intros [|b t] H; try discriminate;
    [reflexivity|].
  injection H as H. unfold decayed in *. cbn [zip_with].
  rewrite IH by exact H. f_equal. unfold pow. lra.
Qed.

Lemma decayed_step (tau : R) (n : nat) (o t : list R) :
  decayed tau n o (soft_update tau o t) = decayed tau (S n) o t.
Proof.
  unfold decayed, soft_update. rewrite zip_with_zip_with_r.
  apply zip_with_ext; try reflexivity. intros a b.
  change ((1 - tau) ^ S n) with ((1 - tau) * (1 - tau) ^ n). ring.
Qed.

Section TargetRuns.
Context {C : Collaborators}.

Lemma with_target_critic_same (self : SAC) :
  with_target_critic
    (MkRegressor (params (_target_critic_approximator self))
       (model (_target_critic_approximator self))) self = self.
Proof. destruct self as [? ? ? ? ? ? ? [? ?] ? ? ? ? ?]. reflexivity. Qed.

(** X6: over the reals, once [_init_target] has run, the target is a
    fixed point of the soft update: for ensembles of as many members,
    [_init_target] gives the target the weights of the online critic and
    keeps its parameters, and on the agent it returns both
    [_update_target], whatever [tau] is, and a second [_init_target]
    change nothing at all.  In single precision the soft update of a
    weight equal to its online weight can move it by a rounding: with
    [tau = 0.1] the weight 0.1 becomes a smaller number. *)
Theorem update_after_init_changes_nothing (self : SAC) :
  length (model (_critic_approximator self))
    = length (model (_target_critic_approximator self)) ->
  (exists s1,
     _init_target self = Ok s1 /\
     model (_target_critic_approximator s1)
       = model (_critic_approximator self) /\
     params (_target_critic_approximator s1)
       = params (_target_critic_approximator self) /\
     _update_target s1 = Ok s1 /\
     _init_target s1 = Ok s1) /\
  (forall tau w : R, soft_update_cell real_arithmetic tau (1 - tau) w w = w) /\
  (let single := ieee binary32 in
   let tenth := n_ratio single 1 10 in
   SFltb (soft_update_cell single tenth (n_ratio single 9 10) tenth tenth)
     tenth = true).
Proof.
  intros Hlen. split; [|split; [|vm_compute; reflexivity]].
  2:{ intros tau w. change (tau * w + (1 - tau) * w = w). ring. }
  rewrite _init_target_exec by exact Hlen.
  eexists. split; [reflexivity|].
  cbn [with_target_critic _target_critic_approximator _critic_approximator
       model params].
  split; [reflexivity|]. split; [reflexivity|]. split.
  - rewrite _update_target_exec.
    + cbn [with_target_critic _target_critic_approximator
           _critic_approximator model params _tau].
      rewrite zip_with_diag; [reflexivity|].
      intros w. unfold soft_update. apply zip_with_diag. intros x. ring.
    + cbn [with_target_critic _target_critic_approximator
           _critic_approximator model]. apply aligned_refl.
  - rewrite _init_target_exec; reflexivity.
Qed.

Lemma soft_updates_exec (n : nat) (self : SAC) :
  aligned (model (_critic_approximator self))
          (model (_target_critic_approximator self)) ->
  exists self_n,
    soft_updates n self = Ok self_n /\
    model (_target_critic_approximator self_n)
      = zip_with (decayed (_tau self) n)
          (model (_critic_approximator self))
          (model (_target_critic_approximator self)) /\
    params (_target_critic_approximator self_n)
      = params (_target_critic_approximator self) /\
    self_n = with_target_critic (_target_critic_approximator self_n) self.
Proof.
  revert self. induction n as [|n IH]; intros self Hal.
  - exists self. split; [reflexivity|]. split; [|split].
    + symmetry. apply zip_with_aligned_r; [exact Hal|].
      intros o t. apply decayed_zero.
    + reflexivity.
    + symmetry. destruct self as [? ? ? ? ? ? ? [? ?] ? ? ? ? ?]. reflexivity.
  - cbn [soft_updates]. rewrite _update_target_exec by exact Hal.
    cbn [mbind outcome_bind].
    edestruct IH as (self_n & Hn & Hm & Hp & Hs); [|rewrite Hn].
    { cbn [with_target_critic _target_critic_approximator
           _critic_approximator model].
      apply aligned_soft_update. exact Hal. }
    exists self_n. split; [reflexivity|].
    cbn [with_target_critic _target_critic_approximator
         _critic_approximator model params _tau] in Hm, Hp.
    split; [|split].
    + rewrite Hm, zip_with_zip_with_r.
      apply zip_with_ext; try reflexivity. intros o t. apply decayed_step.
    + exact Hp.
    + rewrite Hs at 1. destruct self; reflexivity.
Qed.

(** X7: over the reals, [n] soft updates in a row against an online
    critic that stays as it is multiply the distance of every target
    weight to its online weight by [(1 - tau)^n]: each target weight
    becomes [online + (1 - tau)^n * (target - online)], which for one
    update is the arithmetic of lines 209 and 210 on the weight, and
    nothing but the target changes.  In single precision every update is
    rounded and the closed form is not exact: one update with
    [tau = 0.1] of a weight 0.1 equal to its online weight, which the
    closed form leaves as it is, gives a smaller number. *)
Theorem soft_updates_decay (n : nat) (self : SAC) :
  aligned (model (_critic_approximator self))
          (model (_target_critic_approximator self)) ->
  (exists self_n,
     soft_updates n self = Ok self_n /\
     model (_target_critic_approximator self_n)
       = zip_with (decayed (_tau self) n)
           (model (_critic_approximator self))
           (model (_target_critic_approximator self)) /\
     params (_target_critic_approximator self_n)
       = params (_target_critic_approximator self) /\
     self_n = with_target_critic (_target_critic_approximator self_n) self) /\
  (forall tau o t : R,
     decayed tau 1 [o] [t] = [soft_update_cell real_arithmetic tau (1 - tau) o t]) /\
  (let single := ieee binary32 in
   let tenth := n_ratio single 1 10 in
   SFltb (soft_update_cell single tenth (n_ratio single 9 10) tenth tenth)
     tenth = true).
Proof.
  intros Hal. split; [apply soft_updates_exec; exact Hal|].
  split; [|vm_compute; reflexivity].
  intros tau o t. unfold decayed. cbn [zip_with]. f_equal.
  change (o + (1 - tau) ^ 1 * (t - o) = tau * o + (1 - tau) * t).
  unfold pow. ring.
Qed.

End TargetRuns.

Lemma update_after_init_changes_nothing_witness :
  exists s1,
    _init_target drifted_agent = Ok s1 /\
    model (_target_critic_approximator s1) = [[2]; [4]] /\
    _update_target s1 = Ok s1.
Proof.
  destruct (update_after_init_changes_nothing drifted_agent eq_refl)
    as ((s1 & H1 & H2 & _ & H3 & _) & _).
  exists s1. split; [exact H1|]. split; [exact H2|exact H3].
Defined.

Lemma example_aligned : aligned [[0]; [0]] [[0]; [0]].
Proof. repeat constructor. Qed.

Lemma drifted_aligned : aligned [[2]; [4]] [[0]; [10]].
Proof. repeat constructor. Qed.

Lemma soft_updates_decay_witness :
  exists self_n,
    soft_updates 3 drifted_agent = Ok self_n /\
    model (_target_critic_approximator self_n)
      = zip_with (decayed (1 / 2) 3) [[2]; [4]] [[0]; [10]] /\
    zip_with (decayed (1 / 2) 3) [[2]; [4]] [[0]; [10]]
      = [[2 - 2 / 8]; [4 + 6 / 8]].
Proof.
  destruct (soft_updates_decay 3 drifted_agent drifted_aligned)
    as ((s & H1 & H2 & _) & _).
  exists s. split; [exact H1|]. split; [exact H2|].
  unfold decayed. cbn [zip_with]. repeat f_equal; lra.
Defined.

(** ** The actor loss and the temperature loss *)

Lemma sum_list_R_app (x y : list R) :
  sum_list_R (x ++ y) = sum_list_R x + sum_list_R y.
Proof.
  unfold sum_list_R. induction x as [|a x IH]; simpl; [lra|].
  rewrite IH. lra.
Qed.

Lemma sum_list_R_cons (a : R) (x : list R) :
  sum_list_R (a :: x) = a + sum_list_R x.
Proof. reflexivity. Qed.

Lemma sum_of_differences (c : R) (q : list R) :
  sum_list_R ((fun b => c - b) <$> q) = INR (length q) * c - sum_list_R q.
Proof.
  induction q as [|b q IH]; [cbn; lra|].
  cbn [fmap list_fmap length]. rewrite !sum_list_R_cons, S_INR.
  change (list_fmap R R (fun b => c - b) q) with ((fun b => c - b) <$> q).
  rewrite IH. lra.
Qed.

Lemma sum_of_square (alpha : R) (lps q : list R) :
  let cells := concat ((fun l => (fun b => alpha * l - b) <$> q) <$> lps) in
  sum_list_R cells
    = INR (length q) * (alpha * sum_list_R lps) - INR (length lps) * sum_list_R q
  /\ length cells = (length lps * length q)%nat.
Proof.
  induction lps as [|l lps [IH1 IH2]]; [cbn; split; [lra|reflexivity]|].
  cbn [fmap list_fmap concat length].
  change (list_fmap R (list R) (fun l => (fun b => alpha * l - b) <$> q) lps)
    with ((fun l => (fun b => alpha * l - b) <$> q) <$> lps).
  split.
  - rewrite sum_list_R_app, IH1, sum_list_R_cons, S_INR.
    change (list_fmap R R (fun b => alpha * l - b) q)
      with ((fun b => alpha * l - b) <$> q).
    rewrite sum_of_differences. lra.
  - rewrite length_app, IH2.
    change (list_fmap R R (fun b => alpha * l - b) q)
      with ((fun b => alpha * l - b) <$> q).
    rewrite length_fmap. lia.
Qed.

Lemma mean_of_square (alpha : R) (lps q : list R) :
  lps <> [] -> q <> [] ->
  let cells := concat ((fun l => (fun b => alpha * l - b) <$> q) <$> lps) in
  sum_list_R cells / INR (length cells)
  = alpha * (sum_list_R lps / INR (length lps)) - sum_list_R q / INR (length q).
Proof.
  intros Hl Hq cells.
  destruct (sum_of_square alpha lps q) as [E1 E2]. fold cells in E1, E2.
  rewrite E1, E2, mult_INR.
  assert (INR (length lps) <> 0).
  { apply not_0_INR. destruct lps; [contradiction|discriminate]. }
  assert (INR (length q) <> 0).
  { apply not_0_INR. destruct q; [contradiction|discriminate]. }
  field. split; assumption.
Qed.

Lemma sum_of_scaled (la te : R) (lps : list R) :
  sum_list_R ((fun l => la * (l + te)) <$> lps)
  = la * (sum_list_R lps + INR (length lps) * te).
Proof.
  induction lps as [|l lps IH]; [cbn; lra|].
  cbn [fmap list_fmap length]. rewrite !sum_list_R_cons, S_INR.
  change (list_fmap R R (fun l => la * (l + te)) lps)
    with ((fun l => la * (l + te)) <$> lps).
  rewrite IH. lra.
Qed.

Lemma sum_of_shifted (te : R) (lps : list R) :
  sum_list_R ((fun l => l + te) <$> lps)
  = sum_list_R lps + INR (length lps) * te.
Proof.
  induction lps as [|l lps IH]; [cbn; lra|].
  cbn [fmap list_fmap length]. rewrite !sum_list_R_cons, S_INR.
  change (list_fmap R R (fun l => l + te) lps) with ((fun l => l + te) <$> lps).
  rewrite IH. lra.
Qed.

Lemma derivative_of_linear (c x : R) :
  derivable_pt_lim (fun y => - (y * c)) x (- c).
Proof.
  intros eps Heps. exists (mkposreal 1 Rlt_0_1). intros h Hh _.
  replace ((- ((x + h) * c) - - (x * c)) / h - - c) with 0 by (field; exact Hh).
  rewrite Rabs_R0. exact Heps.
Qed.

Section Losses.
Context {C : Collaborators}.

(** X8: the actor loss of a batch is [alpha] times the mean of the
    log-probabilities minus the mean over the batch of the smaller of the
    two critic values, [min(Q0, Q1)], of the new actions. *)
Theorem actor_loss_is_difference_of_means (self : SAC)
    (state : list (list R)) (action_new : tensor) (g : gset leaf)
    (lps : list R) w0 w1 :
  model (_critic_approximator self) !! 0%nat = Some w0 ->
  model (_critic_approximator self) !! 1%nat = Some w1 ->
  lps <> [] -> state <> [] -> data action_new <> [] ->
  let q k := zip_with (q_value (params (_critic_approximator self)) k) state
               (data action_new) in
  let q_min := zip_with Rmin (q w0) (q w1) in
  exists g',
    _loss self state action_new (Tensor ((fun l => [l]) <$> lps) g)
    = Ok (scalar (exp (_log_alpha self) * (sum_list_R lps / INR (length lps))
                  - sum_list_R q_min / INR (length q_min)) g').
Proof.
  intros H0 H1 Hl Hs Ha q q_min.
  destruct (_loss_exec self state action_new g lps w0 w1 H0 H1 Hl Hs Ha)
    as (g' & E).
  exists g'. rewrite E. cbv zeta. fold (q w0) (q w1). fold q_min.
  rewrite mean_of_square; [reflexivity|exact Hl|].
  unfold q_min, q.
  destruct state as [|s state]; [contradiction|].
  destruct (data action_new) as [|a an]; [contradiction|]. discriminate.
Qed.

(** X9: the gradient along which [_update_alpha] steps is the derivative
    of the loss it writes.  For a batch of log-probabilities of mean [m],
    the loss [-(log_alpha * (log_prob + target_entropy)).mean()] is
    [- log_alpha * (m + target_entropy)], a function of [log_alpha] whose
    derivative is [- (m + target_entropy)] everywhere, and the update is
    one step of the optimizer of the temperature along that number, which
    changes [log_alpha] and that optimizer and nothing else. *)
Theorem temperature_step_follows_its_loss (self : SAC) (lps : list R)
    (g : gset leaf) :
  lps <> [] ->
  let log_prob := Tensor ((fun l => [l]) <$> lps) g in
  let c := sum_list_R lps / INR (length lps) + IZR (_target_entropy self) in
  (forall la, alpha_loss self la log_prob
              = Ok (scalar (- (la * c)) ({[ LogAlpha ]} ∪ g))) /\
  (forall la, derivable_pt_lim (fun x => - (x * c)) la (- c)) /\
  _update_alpha self log_prob
  = Ok (with_alpha
          (adam_step (_alpha_optim self) (_log_alpha self) (- c)).1
          (adam_step (_alpha_optim self) (_log_alpha self) (- c)).2 self).
Proof.
  intros Hl log_prob c.
  assert (Hn : INR (length lps) <> 0).
  { apply not_0_INR. destruct lps; [contradiction|discriminate]. }
  split; [|split].
  - intros la. unfold alpha_loss, log_prob, t_mul, t_binop, t_map, scalar.
    cbn [data graph]. rewrite bcast2_single_l.
    rewrite <- list_fmap_compose.
    rewrite (for_each_fmap _ _
               (fun l => [la * (l + IZR (_target_entropy self))])).
    2:{ intros l. cbn [compose fmap list_fmap]. rewrite bcast2_single.
        reflexivity. }
    cbn [mbind outcome_bind]. unfold mean. cbn [data graph].
    assert (Ec : concat ((fun l => [la * (l + IZR (_target_entropy self))])
                           <$> lps)
                 = (fun l => la * (l + IZR (_target_entropy self))) <$> lps).
    { clear. induction lps as [|l lps IH]; [reflexivity|].
      cbn [fmap list_fmap concat app]. f_equal. exact IH. }
    rewrite Ec, length_fmap, div_checked_nonzero by exact Hn.
    cbn [mbind outcome_bind]. unfold t_map, scalar.
    cbn [data graph fmap list_fmap]. do 4 f_equal.
    rewrite sum_of_scaled. unfold c. field. exact Hn.
  - intros la. apply derivative_of_linear.
  - unfold _update_alpha, log_prob, mean, t_map. cbn [data graph].
    rewrite concat_singletons, length_fmap, div_checked_nonzero by exact Hn.
    cbn [mbind outcome_bind scalar data concat app].
    replace (- sum_list_R
                 [sum_list_R ((fun x => x + IZR (_target_entropy self)) <$> lps)
                  / INR (length lps)])
      with (- c).
    2:{ rewrite sum_list_R_cons, sum_of_shifted. unfold c. cbn. field.
        exact Hn. }
    destruct (adam_step _ _ _) as [la opt]. reflexivity.
Qed.

End Losses.

(** ** What [fit] never changes *)

Lemma for_range_inv {S} (P : S -> Prop) (body : nat -> S -> outcome S)
    (range : list nat) (s s' : S) :
  (forall i s1 s2, P s1 -> body i s1 = Ok s2 -> P s2) ->
  P s -> for_range body range s = Ok s' -> P s'.
Proof.
  intros Hbody. revert s. induction range as [|i range IH]; intros s Hs H.
  - injection H as <-. exact Hs.
  - cbn [for_range] in H. apply bind_Ok_inv in H as (s1 & H1 & H2).
    eapply IH; [|exact H2]. eapply Hbody; eassumption.
Qed.

Section FitFrame.
Context {C : Collaborators}.

Lemma set_weights_inv (r r' : Regressor) i w :
  set_weights r i w = Ok r' ->
  params r' = params r /\ length (model r') = length (model r).
Proof.
  unfold set_weights. destruct (decide _); [|discriminate].
  intros H. injection H as <-. cbn [params model].
  rewrite length_insert. auto.
Qed.

Lemma same_configuration_refl (self : SAC) : same_configuration self self.
Proof. unfold same_configuration. repeat split; repeat constructor; auto. Qed.

Lemma same_configuration_trans (s1 s2 s3 : SAC) :
  same_configuration s1 s2 -> same_configuration s2 s3 ->
  same_configuration s1 s3.
Proof.
  unfold same_configuration.
  intros (A1 & A2 & A3 & A4 & A5 & A6 & A7 & A8 & A9)
         (B1 & B2 & B3 & B4 & B5 & B6 & B7 & B8 & B9).
  repeat (split; [congruence|]).
  repeat match goal with
         | H : Forall2 _ (_ :: _) (_ :: _) |- _ =>
             apply Forall2_cons in H; destruct H as [[? ?] H]
         end.
  repeat (constructor; [split; congruence|]). constructor.
Qed.

Lemma _update_target_inv (self self' : SAC) :
  _update_target self = Ok self' ->
  exists t,
    self' = with_target_critic t self /\
    params t = params (_target_critic_approximator self) /\
    length (model t) = length (model (_target_critic_approximator self)).
Proof.
  unfold _update_target. intros H.
  apply bind_Ok_inv in H as (t & Ht & H). injection H as <-.
  exists t. split; [reflexivity|].
  eapply (for_range_inv
            (fun r => params r = params (_target_critic_approximator self) /\
                      length (model r)
                      = length (model (_target_critic_approximator self))));
    [|split; reflexivity|exact Ht].
  intros i r1 r2 [P1 P2] Hb.
  apply bind_Ok_inv in Hb as (online & _ & Hb).
  apply bind_Ok_inv in Hb as (old & _ & Hb).
  apply bind_Ok_inv in Hb as (w & _ & Hb).
  apply set_weights_inv in Hb as [Q1 Q2]. split; congruence.
Qed.

Lemma _update_target_configuration (self self' : SAC) :
  _update_target self = Ok self' ->
  same_configuration self self' /\
  _replay_memory self' = _replay_memory self /\
  _critic_approximator self' = _critic_approximator self /\
  policy self' = policy self /\
  _log_alpha self' = _log_alpha self.
Proof.
  intros H. apply _update_target_inv in H as (t & -> & P1 & P2).
  unfold same_configuration. cbn.
  repeat (split; [reflexivity|]).
  split; [|auto].
  repeat (constructor; [split; auto|]). constructor.
Qed.

Lemma _optimize_actor_parameters_configuration (self self' : SAC) inputs :
  _optimize_actor_parameters self inputs = Ok self' ->
  same_configuration self self' /\
  _replay_memory self' = _replay_memory self.
Proof.
  unfold _optimize_actor_parameters. intros H.
  apply bind_Ok_inv in H as (w_mu & _ & H).
  apply bind_Ok_inv in H as (w_sigma & _ & H).
  destruct (actor_optimizer_step _ _ _) as [[w_mu' w_sigma'] opt].
  apply bind_Ok_inv in H as (mu & Hmu & H).
  apply bind_Ok_inv in H as (sigma & Hsigma & H).
  injection H as <-.
  apply set_weights_inv in Hmu as [M1 M2].
  apply set_weights_inv in Hsigma as [S1 S2].
  unfold same_configuration. cbn.
  repeat (split; [reflexivity|]).
  split; [|reflexivity].
  repeat (constructor; [split; auto|]). constructor.
Qed.

Lemma _update_alpha_configuration (self self' : SAC) log_prob :
  _update_alpha self log_prob = Ok self' ->
  same_configuration self self' /\
  _replay_memory self' = _replay_memory self.
Proof.
  unfold _update_alpha. intros H.
  apply bind_Ok_inv in H as (m & _ & H).
  destruct (adam_step _ _ _) as [la opt]. injection H as <-.
  split; [|reflexivity].
  unfold same_configuration. cbn.
  repeat (split; [reflexivity|]).
  repeat (constructor; [split; auto|]). constructor.
Qed.

Lemma update_actor_and_alpha_configuration (self self' : SAC) state eps :
  update_actor_and_alpha self state eps = Ok self' ->
  same_configuration self self' /\
  _replay_memory self' = _replay_memory self.
Proof.
  unfold update_actor_and_alpha. intros H.
  apply bind_Ok_inv in H as ([action_new log_prob] & _ & H).
  apply bind_Ok_inv in H as (loss & _ & H).
  apply bind_Ok_inv in H as (s1 & H1 & H).
  apply _optimize_actor_parameters_configuration in H1 as [C1 M1].
  apply _update_alpha_configuration in H as [C2 M2].
  split; [eapply same_configuration_trans; eassumption|congruence].
Qed.

(** X10: a call of [fit] that returns has appended the dataset to the
    replay memory and has kept the configuration of the agent: the batch
    size, the warm-up, [tau], the target entropy, the MDP information,
    the reference to the fit parameters, the bounds of the policy, and,
    for the online critic, the target critic and the two networks of the
    policy, the parameters they were built from and their numbers of
    members.  Only weights, [log_alpha], the two optimizers and the replay
    memory can differ after the call. *)
Theorem fit_keeps_the_configuration (h : store) (self self' : SAC)
    (dataset : list transition) (rnd : draws) :
  fit h self dataset rnd = Ok self' ->
  _replay_memory self' = rm_add (_replay_memory self) dataset /\
  same_configuration self self'.
Proof.
  unfold fit. cbn [with_replay_memory _replay_memory _batch_size
                   _warmup_transitions].
  set (mem := rm_add (_replay_memory self) dataset).
  set (self0 := with_replay_memory mem self).
  assert (C0 : same_configuration self self0).
  { unfold same_configuration. cbn.
    repeat (split; [reflexivity|]).
    repeat (constructor; [split; auto|]). constructor. }
  assert (M0 : _replay_memory self0 = mem) by reflexivity.
  change (MkSAC (_critic_fit_params self) (_batch_size self)
            (_warmup_transitions self) (_tau self) (_target_entropy self) mem
            (_critic_approximator self) (_target_critic_approximator self)
            (_log_alpha self) (_alpha_optim self) (policy self)
            (_optimizer self) (mdp_info self)) with self0.
  destruct (rm_initialized mem).
  2:{ intros H. injection H as <-. auto. }
  intros H. apply bind_Ok_inv in H as (self1 & H1 & H).
  assert (C1 : same_configuration self0 self1 /\
               _replay_memory self1 = _replay_memory self0).
  { destruct (bool_decide _).
    - eapply update_actor_and_alpha_configuration. exact H1.
    - injection H1 as <-. split; [apply same_configuration_refl|reflexivity]. }
  destruct C1 as [C1 M1].
  apply bind_Ok_inv in H as (q & _ & H).
  apply _update_target_configuration in H as (C2 & M2 & _).
  split.
  - rewrite M2. cbn [with_critic _replay_memory]. congruence.
  - eapply same_configuration_trans; [exact C0|].
    eapply same_configuration_trans; [exact C1|].
    eapply same_configuration_trans; [|exact C2].
    unfold same_configuration. cbn. unfold Regressor_fit. cbn.
    repeat (split; [reflexivity|]).
    constructor; [split; [reflexivity|apply length_fmap]|].
    repeat (constructor; [split; auto|]). constructor.
Qed.

End FitFrame.

(** ** More on the constructor *)

Section ConstructorMore.
Context {C : Collaborators}.


(** X11: what a successful construction starts from: [log_alpha] is 0,
    so the temperature [alpha] is 1; the target entropy is minus the
    number of action dimensions; the replay memory is a new one of the
    sizes asked for; the batch size, the warm-up and [tau] are the
    arguments; the temperature has an optimizer of learning rate
    [lr_alpha]; and the policy is the one [SACPolicy] builds over the
    action box from networks built from the two dictionaries of the
    actor as the returned store holds them. *)
Theorem construction_starts_from (h h' : store) (a : init_args) (self : SAC) :
  SAC_init h a = Ok (h', self) ->
  _log_alpha self = 0 /\
  _alpha_np self = 1 /\
  _target_entropy self
    = (- Z.of_nat (length (action_low (arg_mdp_info a))))%Z /\
  _replay_memory self
    = rm_new (arg_initial_replay_size a) (arg_max_replay_size a) /\
  _batch_size self = arg_batch_size a /\
  _warmup_transitions self = arg_warmup_transitions a /\
  _tau self = arg_tau a /\
  mdp_info self = arg_mdp_info a /\
  _alpha_optim self = adam_new (arg_lr_alpha a) /\
  _optimizer self = actor_optimizer_new (h' !!! arg_actor_optimizer a) /\
  SACPolicy_init
    (Regressor_new (h' !!! arg_actor_mu_params a) (seed_mu a))
    (Regressor_new (h' !!! arg_actor_sigma_params a) (seed_sigma a))
    (action_low (arg_mdp_info a)) (action_high (arg_mdp_info a))
  = Ok (policy self).
Proof.
  intros H.
  set (d := (h !!! arg_critic_params a : pydict)).
  destruct (violates_cases "n_models" (PInt 2) d) as [Vn|Vn].
  { rewrite SAC_init_violation in H by (left; exact Vn). discriminate. }
  destruct (violates_cases "prediction" (PStr "min") d) as [Vp|Vp].
  { rewrite SAC_init_violation in H by (right; exact Vp). discriminate. }
  destruct (SAC_init_no_violation h a Vn Vp)
    as (h4 & lt & fit_ref & _ & _ & _ & _ & _ & E).
  rewrite E in H.
  apply bind_Ok_inv in H as (p & Ep & H).
  apply bind_Ok_inv in H as (w_mu & _ & H).
  apply bind_Ok_inv in H as (w_sigma & _ & H).
  injection H as <- <-.
  cbn [with_target_critic _log_alpha _target_entropy _replay_memory
       _batch_size _warmup_transitions _tau mdp_info _alpha_optim _optimizer
       policy].
  unfold _alpha_np. cbn [with_target_critic _log_alpha].
  rewrite exp_0. repeat split; first [reflexivity|exact Ep].
Qed.


(** X13: with approximators that are built without a failure of their
    own, from dictionaries of the actor that are live dictionaries of the
    caller and ask for at least one member, the constructor has four
    outcomes, decided in this order.  It raises [AssertionError] exactly
    when a key of the critic is set to another value than the forced one;
    a [ValueError] exactly when no key is and the bounds of the action
    box cannot be broadcast (their lengths differ and neither is 1); an
    [AttributeError] exactly when neither holds and a regressor of the
    actor is an ensemble, its dictionary, read after the keys of the
    critic were forced, asking for more than one member, as the
    dictionary of the critic itself does; and it returns an agent exactly
    in the remaining case. *)
Theorem construction_outcomes (h : store) (a : init_args) :
  is_Some (h !! arg_actor_mu_params a) ->
  is_Some (h !! arg_actor_sigma_params a) ->
  let lc := arg_critic_params a in
  let d : pydict := h !!! lc in
  let low := action_low (arg_mdp_info a) in
  let high := action_high (arg_mdp_info a) in
  let violated :=
    violates "n_models" (PInt 2) d \/ violates "prediction" (PStr "min") d in
  let unfit := length low <> length high /\
               length low <> 1%nat /\ length high <> 1%nat in
  let built_from (l : ref) : pydict :=
    if decide (l = lc) then forced d else h !!! l in
  let ensemble :=
    (1 < n_models (built_from (arg_actor_mu_params a)))%nat \/
    (1 < n_models (built_from (arg_actor_sigma_params a)))%nat in
  (1 <= n_models (built_from (arg_actor_mu_params a)))%nat ->
  (1 <= n_models (built_from (arg_actor_sigma_params a)))%nat ->
  (SAC_init h a = Raise AssertionError <-> violated) /\
  (SAC_init h a = Raise ValueError <-> ~ violated /\ unfit) /\
  (SAC_init h a = Raise AttributeError <->
     ~ violated /\ ~ unfit /\ ensemble) /\
  ((exists h' self, SAC_init h a = Ok (h', self)) <->
     ~ violated /\ ~ unfit /\ ~ ensemble) /\
  (SAC_init h a = Raise AssertionError \/
   SAC_init h a = Raise ValueError \/
   SAC_init h a = Raise AttributeError \/
   exists h' self, SAC_init h a = Ok (h', self)).
Proof.
  intros Lm Ls lc d low high violated unfit built_from ensemble Gm Gs.
  assert (Dv : violated \/ ~ violated).
  { unfold violated.
    destruct (violates_cases "n_models" (PInt 2) d);
      destruct (violates_cases "prediction" (PStr "min") d); tauto. }
  assert (Du : unfit \/ ~ unfit).
  { unfold unfit.
    destruct (decide (length low = length high));
      destruct (decide (length low = 1%nat));
      destruct (decide (length high = 1%nat)); tauto. }
  assert (De : ensemble \/ ~ ensemble) by (unfold ensemble; lia).
  (* the outcome in each of the four cases *)
  assert (Cv : violated -> SAC_init h a = Raise AssertionError)
    by (apply SAC_init_violation).
  assert (Rest : ~ violated ->
            (unfit -> SAC_init h a = Raise ValueError) /\
            (~ unfit -> ensemble -> SAC_init h a = Raise AttributeError) /\
            (~ unfit -> ~ ensemble ->
               exists h' self, SAC_init h a = Ok (h', self))).
  { intros Hv.
    assert (Vn : ~ violates "n_models" (PInt 2) d)
      by (intros V; apply Hv; left; exact V).
    assert (Vp : ~ violates "prediction" (PStr "min") d)
      by (intros V; apply Hv; right; exact V).
    destruct (SAC_init_no_violation h a Vn Vp)
      as (h4 & lt & fit_ref & _ & _ & T & _ & O & E).
    fold lc d in T.
    assert (B : forall l, is_Some (h !! l) -> h4 !!! l = built_from l).
    { intros l Hl. unfold built_from. destruct (decide (l = lc)) as [->|Hne].
      - exact T.
      - rewrite !lookup_total_alt, (O _ Hl Hne). reflexivity. }
    rewrite E, (B _ Lm), (B _ Ls).
    match goal with
    | |- context [SACPolicy_init ?m ?s ?lo ?hi] =>
        pose proof (SACPolicy_init_error m s lo hi) as Herr;
        destruct (SACPolicy_init_outcome m s lo hi) as [(p & Hp)|Hp];
        rewrite Hp in *; cbn [mbind outcome_bind]
    end.
    - assert (Hfit : ~ unfit) by (intros U; apply Herr in U; discriminate).
      split; [intros U; contradiction|].
      split.
      + intros _ [Hm|Hsg].
        * assert (Hm' : n_models (built_from (arg_actor_mu_params a)) <> 1%nat)
            by lia.
          rewrite (network_parameters_ensemble _ _ Hm'). reflexivity.
        * assert (Hsg' : n_models (built_from (arg_actor_sigma_params a))
                         <> 1%nat) by lia.
          destruct (network_parameters_outcome
                      (Regressor_new (built_from (arg_actor_mu_params a))
                         (seed_mu a))) as [(w & ->)| ->]; [|reflexivity].
          cbn [mbind outcome_bind].
          rewrite (network_parameters_ensemble _ _ Hsg'). reflexivity.
      + intros _ Hne.
        assert (Hm : n_models (built_from (arg_actor_mu_params a)) = 1%nat)
          by (unfold ensemble in Hne; lia).
        assert (Hsg : n_models (built_from (arg_actor_sigma_params a)) = 1%nat)
          by (unfold ensemble in Hne; lia).
        rewrite (network_parameters_single _ _ Hm). cbn [mbind outcome_bind].
        rewrite (network_parameters_single _ _ Hsg). cbn [mbind outcome_bind].
        eexists _, _. reflexivity.
    - assert (U : unfit) by (apply Herr; reflexivity).
      split; [reflexivity|]. split; intros Hfit; contradiction. }
  split; [|split; [|split; [|split]]].
  - split; [|exact Cv]. intros H.
    destruct Dv as [V|V]; [exact V|]. exfalso.
    destruct (Rest V) as (R1 & R2 & R3).
    destruct Du as [U|U]; [rewrite (R1 U) in H; discriminate|].
    destruct De as [En|En]; [rewrite (R2 U En) in H; discriminate|].
    destruct (R3 U En) as (h' & self & R). rewrite R in H. discriminate.
  - split.
    + intros H.
      destruct Dv as [V|V]; [rewrite (Cv V) in H; discriminate|].
      split; [exact V|].
      destruct (Rest V) as (R1 & R2 & R3).
      destruct Du as [U|U]; [exact U|]. exfalso.
      destruct De as [En|En]; [rewrite (R2 U En) in H; discriminate|].
      destruct (R3 U En) as (h' & self & R). rewrite R in H. discriminate.
    + intros [V U]. apply (Rest V). exact U.
  - split.
    + intros H.
      destruct Dv as [V|V]; [rewrite (Cv V) in H; discriminate|].
      split; [exact V|].
      destruct (Rest V) as (R1 & R2 & R3).
      destruct Du as [U|U]; [rewrite (R1 U) in H; discriminate|].
      split; [exact U|].
      destruct De as [En|En]; [exact En|]. exfalso.
      destruct (R3 U En) as (h' & self & R). rewrite R in H. discriminate.
    + intros (V & U & En). apply (Rest V); assumption.
  - split.
    + intros (h' & self & H).
      destruct Dv as [V|V]; [rewrite (Cv V) in H; discriminate|].
      split; [exact V|].
      destruct (Rest V) as (R1 & R2 & R3).
      destruct Du as [U|U]; [rewrite (R1 U) in H; discriminate|].
      split; [exact U|].
      intros En. rewrite (R2 U En) in H. discriminate.
    + intros (V & U & En). apply (Rest V); assumption.
  - destruct Dv as [V|V]; [left; exact (Cv V)|].
    destruct (Rest V) as (R1 & R2 & R3).
    destruct Du as [U|U]; [right; left; exact (R1 U)|].
    destruct De as [En|En]; [right; right; left; exact (R2 U En)|].
    right; right; right. exact (R3 U En).
Qed.

End ConstructorMore.

(** ** A construction that fails after it has changed the caller's
       dictionary *)

Lemma checked_critic_params_agrees (h : store) (l : ref) :
  (h' ← assert_or_set h l "n_models" (PInt 2);
   assert_or_set h' l "prediction" (PStr "min"))
  = (_ ← (checked_critic_params h l).2; Ok (checked_critic_params h l).1).
Proof.
  unfold checked_critic_params.
  destruct (assert_or_set h l "n_models" (PInt 2)) as [h1| |];
    cbn [mbind outcome_bind]; try reflexivity.
  destruct (assert_or_set h1 l "prediction" (PStr "min")) as [h2| |];
    reflexivity.
Qed.

Section FailedConstruction.
Context {C : Collaborators}.

(** X14: a construction that fails can have changed the dictionary of the
    caller.  When [critic_params] has no ["n_models"] and has a
    ["prediction"] other than ["min"], the constructor raises
    [AssertionError] on the second check, after the first has inserted
    ["n_models"] = 2: the store left behind holds the caller's dictionary
    with that key added, and every other dictionary as it was. *)
Theorem failed_construction_leaves_n_models (h : store) (a : init_args) :
  let l := arg_critic_params a in
  let d : pydict := h !!! l in
  let h1 : store := match arg_critic_fit_params a with
                    | Some _ => h
                    | None => (alloc h ∅).1
                    end in
  d !! "n_models"%string = None ->
  violates "prediction" (PStr "min") d ->
  SAC_init h a = Raise AssertionError /\
  (forall (h0 : store) (l0 : ref),
     (h' ← assert_or_set h0 l0 "n_models" (PInt 2);
      assert_or_set h' l0 "prediction" (PStr "min"))
     = (_ ← (checked_critic_params h0 l0).2;
        Ok (checked_critic_params h0 l0).1)) /\
  exists h2 : store,
    checked_critic_params h1 l = (h2, Raise AssertionError) /\
    h2 !! l = Some (<["n_models"%string := PInt 2]> d) /\
    forall l', l' <> l -> h2 !! l' = h1 !! l'.
Proof.
  intros l d h1 Hn Hp.
  split; [apply SAC_init_violation; right; exact Hp|].
  split; [apply checked_critic_params_agrees|].
  destruct (store_with_fit_params h a) as (T1 & _ & _).
  fold h1 in T1. specialize (T1 l). fold d in T1.
  exists (<[l := <["n_models"%string := PInt 2]> d]> h1).
  unfold checked_critic_params, assert_or_set at 1.
  rewrite T1, Hn.
  unfold assert_or_set.
  rewrite lookup_total_insert_eq.
  rewrite lookup_insert_ne by discriminate.
  destruct Hp as (x & Hx & Hne). rewrite Hx.
  destruct (py_eq x (PStr "min")) eqn:E.
  { apply py_eq_str in E. contradiction. }
  split; [reflexivity|].
  split; [apply lookup_insert_eq|].
  intros l' Hl'. apply lookup_insert_ne. congruence.
Qed.

End FailedConstruction.

Lemma failed_construction_leaves_n_models_witness :
  SAC_init (C := small_collaborators) wrong_prediction_store example_args
    = Raise AssertionError /\
  exists h2 : store,
    checked_critic_params (alloc wrong_prediction_store ∅).1 1%positive
      = (h2, Raise AssertionError) /\
    h2 !! 1%positive
      = Some (<["n_models"%string := PInt 2]>
                {[ "prediction"%string := PStr "max" ]}).
Proof.
  assert (Hn : (wrong_prediction_store !!! 1%positive : pydict)
                 !! "n_models"%string = None) by reflexivity.
  assert (Hp : violates "prediction" (PStr "min")
                 (wrong_prediction_store !!! 1%positive)).
  { exists (PStr "max"). split; [reflexivity|discriminate]. }
  destruct (failed_construction_leaves_n_models (C := small_collaborators)
              wrong_prediction_store example_args Hn Hp)
    as (H1 & _ & h2 & H2 & H3 & _).
  split; [exact H1|]. exists h2. split; [exact H2|exact H3].
Defined.

(** ** Runs of the further properties on the small instance *)

Lemma actor_loss_is_difference_of_means_witness :
  exists g',
    _loss (example_agent 0 (1 / 2) []) example_state (Tensor [[0]; [0]] ∅)
      (Tensor ((fun l => [l]) <$> [1; 3]) ∅)
    = Ok (scalar
            (exp 0 * (sum_list_R [1; 3] / INR 2)
             - sum_list_R (zip_with Rmin [0 + 0; 0 + 0] [0 + 0; 0 + 0]) / INR 2)
            g').
Proof.
  exact (actor_loss_is_difference_of_means (example_agent 0 (1 / 2) [])
           example_state (Tensor [[0]; [0]] ∅) ∅ [1; 3] [0] [0]
           eq_refl eq_refl ltac:(discriminate) ltac:(discriminate)
           ltac:(discriminate)).
Defined.

Lemma temperature_step_follows_its_loss_witness :
  exists self',
    _update_alpha (example_agent 0 (1 / 2) []) (Tensor [[1]; [3]] ∅) = Ok self' /\
    _log_alpha self' = 0 - 0.0003 * - (sum_list_R [1; 3] / INR 2 + IZR (-1)).
Proof.
  destruct (temperature_step_follows_its_loss (example_agent 0 (1 / 2) [])
              [1; 3] ∅ ltac:(discriminate)) as (_ & _ & H).
  eexists. split; [exact H|]. reflexivity.
Defined.

Lemma fit_keeps_the_configuration_witness :
  exists self',
    fit example_store quiet_agent [terminal_transition] example_draws = Ok self' /\
    _replay_memory self'
      = rm_add (_replay_memory quiet_agent) [terminal_transition] /\
    same_configuration quiet_agent self'.
Proof.
  destruct quiet_warmup_fit as (_ & _ & _ & _ & s & Hs & _).
  exists s. split; [exact Hs|].
  exact (fit_keeps_the_configuration _ _ _ _ _ Hs).
Defined.

Lemma construction_starts_from_witness :
  exists h' self,
    SAC_init (C := small_collaborators) example_store example_args
      = Ok (h', self) /\
    _log_alpha self = 0 /\
    _alpha_np self = 1 /\
    _target_entropy self = (-1)%Z.
Proof.
  eexists _, _. split; [reflexivity|].
  destruct (construction_starts_from (C := small_collaborators) example_store
              _ example_args _ eq_refl) as (H1 & H2 & H3 & _).
  split; [exact H1|]. split; [exact H2|exact H3].
Defined.


Lemma construction_outcomes_witness :
  is_Some (example_store !! 2%positive) /\
  is_Some (example_store !! 3%positive) /\
  (SAC_init (C := small_collaborators) example_store example_args
     = Raise AssertionError \/
   SAC_init (C := small_collaborators) example_store example_args
     = Raise ValueError \/
   SAC_init (C := small_collaborators) example_store example_args
     = Raise AttributeError \/
   exists h' self,
     SAC_init (C := small_collaborators) example_store example_args
       = Ok (h', self)).
Proof.
  assert (Lm : is_Some (example_store !! 2%positive)) by (eexists; reflexivity).
  assert (Ls : is_Some (example_store !! 3%positive)) by (eexists; reflexivity).
  split; [exact Lm|]. split; [exact Ls|].
  destruct (construction_outcomes (C := small_collaborators) example_store
              example_args Lm Ls ltac:(vm_compute; lia) ltac:(vm_compute; lia))
    as (_ & _ & _ & _ & H).
  exact H.
Defined.

(** ** The distribution of the policy and the learning phase of [fit] *)

Section LearningPhase.
Context {C : Collaborators}.

(** X15: over the reals, on networks that fit the batch, [distribution]
    returns a normal distribution with one row per state, whose mean is
    the output of the mean network, attached to its weights, and whose
    scale is the exponential of the output of the log-scale network,
    attached to its weights: the scale is positive in every cell, so that
    the validation of the scale by [Normal] passes, whatever the
    log-scale.  A scale that is zero is refused with a [ValueError], which
    is what a log-scale of -200 gives in single precision, where its
    exponential, below half of the least positive number, is rounded to
    zero. *)
Theorem distribution_has_positive_scale p (state : list (list R))
    w_mu w_sigma half_range center :
  well_shaped p state w_mu w_sigma half_range center ->
  (exists d,
     distribution p state = Ok d /\
     data (loc d) = forward (params (_mu_approximator p)) w_mu <$> state /\
     data (scale d)
       = (fun s => exp <$> forward (params (_sigma_approximator p)) w_sigma s)
           <$> state /\
     Forall (Forall (fun x => 0 < x)) (data (scale d)) /\
     graph (loc d) = {[ MuWeights ]} /\
     graph (scale d) = {[ SigmaWeights ]}) /\
  Normal_new (Tensor [[0]] ∅) (Tensor [[0]] ∅) = Raise ValueError /\
  0 < exp (-200) < (/ 2) ^ 150.
Proof.
  intros Hw. split; [|split; [|apply exp_underflows]].
  - rewrite (distribution_exec _ _ _ _ _ _ Hw).
    eexists. split; [reflexivity|]. cbn [loc scale data graph].
    rewrite <- !map_as_imap.
    repeat split; try reflexivity.
    apply Forall_fmap, Forall_forall. intros s _.
    apply Forall_fmap, Forall_forall. intros x _. apply exp_pos.
  - unfold Normal_new. cbn [data].
    rewrite !bcast2_single. cbn [for_each mbind outcome_bind].
    rewrite !bcast2_single. cbn [for_each mbind outcome_bind].
    unfold validate_positive.
    destruct (Rlt_dec 0 0) as [H|_]; [lra|reflexivity].
Qed.

Lemma fit_initialized_inv (h : store) (self self1 self' : SAC)
    (dataset : list transition) (rnd : draws) :
  let mem := rm_add (_replay_memory self) dataset in
  let self0 := with_replay_memory mem self in
  let batch := rm_get mem (_batch_size self) (batch_seed rnd) in
  rm_initialized mem = true ->
  (if bool_decide (_warmup_transitions self < rm_size mem)%Z
   then update_actor_and_alpha self0 (t_state <$> batch) (actor_noise rnd)
   else Ok self0) = Ok self1 ->
  fit h self dataset rnd = Ok self' ->
  exists q,
    critic_target self1 (t_reward <$> batch) (t_next_state <$> batch)
      (t_absorbing <$> batch) (next_noise rnd) = Ok q /\
    _update_target
      (with_critic
         (Regressor_fit (_critic_approximator self1)
            (h !!! _critic_fit_params self1) (t_state <$> batch)
            (t_action <$> batch) q)
         self1) = Ok self'.
Proof.
  intros mem self0 batch Hi Hp. unfold fit.
  cbn [with_replay_memory _replay_memory _batch_size _warmup_transitions].
  fold mem. rewrite Hi. fold batch. fold self0.
  rewrite Hp. cbn [mbind outcome_bind]. intros H.
  apply bind_Ok_inv in H as (q & Hq & H). eauto.
Qed.

(** X16: the learning phase of [fit].  On a call that, once the dataset
    is appended, finds the replay memory initialized and larger than the
    warm-up, with a policy that fits the sampled batch, a batch that is
    not empty and a critic of two members, the actor and the temperature
    are stepped first: the actor optimizer steps the weights of the two
    networks, and [log_alpha] steps along
    [-(mean log-probability + target_entropy)] of the batch under the
    policy before its step.  What the call returns has the stepped policy
    and temperature, and its critic is the critic before the call fitted
    to the target computed with the stepped policy and the stepped
    temperature. *)
Theorem fit_when_learning (h : store) (self : SAC)
    (dataset : list transition) (rnd : draws)
    w_mu w_sigma half_range center w0 w1 :
  let mem := rm_add (_replay_memory self) dataset in
  let self0 := with_replay_memory mem self in
  let batch := rm_get mem (_batch_size self) (batch_seed rnd) in
  let state := t_state <$> batch in
  let mu := forward (params (_mu_approximator (policy self))) w_mu in
  let log_sigma := forward (params (_sigma_approximator (policy self))) w_sigma in
  let lps := imap (fun i s => log_prob_row (mu s) (log_sigma s)
                                (raw_row (mu s) (log_sigma s)
                                   (actor_noise rnd i))) state in
  rm_initialized mem = true ->
  (_warmup_transitions self < rm_size mem)%Z ->
  well_shaped (policy self) state w_mu w_sigma half_range center ->
  model (_critic_approximator self) !! 0%nat = Some w0 ->
  model (_critic_approximator self) !! 1%nat = Some w1 ->
  batch <> [] ->
  exists self1 loss,
    update_actor_and_alpha self0 state (actor_noise rnd) = Ok self1 /\
    _log_alpha self1
      = (adam_step (_alpha_optim self) (_log_alpha self)
           (- (sum_list_R lps / INR (length lps)
               + IZR (_target_entropy self)))).1 /\
    (let stepped :=
       actor_optimizer_step (_optimizer self)
         (ActorLossInputs state (actor_noise rnd)
            (model (_critic_approximator self)) (_log_alpha self) loss)
         (w_mu, w_sigma) in
     model (_mu_approximator (policy self1))
       = <[0%nat := stepped.1.1]> (model (_mu_approximator (policy self))) /\
     model (_sigma_approximator (policy self1))
       = <[0%nat := stepped.1.2]> (model (_sigma_approximator (policy self)))) /\
    forall self', fit h self dataset rnd = Ok self' ->
      policy self' = policy self1 /\
      _log_alpha self' = _log_alpha self1 /\
      exists q,
        critic_target self1 (t_reward <$> batch) (t_next_state <$> batch)
          (t_absorbing <$> batch) (next_noise rnd) = Ok q /\
        _critic_approximator self'
        = Regressor_fit (_critic_approximator self)
            (h !!! _critic_fit_params self) state (t_action <$> batch) q.
Proof.
  intros mem self0 batch state mu log_sigma lps Hi Hwarm Hw H0 H1 Hb.
  assert (Hs : state <> []).
  { unfold state. destruct batch; [contradiction|discriminate]. }
  destruct (update_actor_and_alpha_exec self0 state (actor_noise rnd)
              w_mu w_sigma half_range center w0 w1 Hw H0 H1 Hs)
    as (self1 & loss & E1 & Hla & Hmu & Hsg & _).
  destruct (update_actor_and_alpha_frame _ _ _ _ E1)
    as (Fc & _ & _ & Ff & _).
  exists self1, loss. split; [exact E1|]. split; [|split].
  - rewrite Hla. cbn [self0 with_replay_memory _alpha_optim _log_alpha
                      _target_entropy policy]. fold mu log_sigma. fold lps.
    do 2 f_equal.
    assert (Hn : INR (length lps) <> 0).
    { apply not_0_INR. unfold lps. rewrite length_imap.
      destruct state; [contradiction|discriminate]. }
    rewrite sum_of_shifted. field. exact Hn.
  - split; [exact Hmu|exact Hsg].
  - intros self' Hfit.
    assert (Hp : (if bool_decide (_warmup_transitions self < rm_size mem)%Z
                  then update_actor_and_alpha self0 (t_state <$> batch)
                         (actor_noise rnd)
                  else Ok self0) = Ok self1).
    { rewrite bool_decide_eq_true_2 by exact Hwarm. exact E1. }
    destruct (fit_initialized_inv h self self1 self' dataset rnd Hi Hp Hfit)
      as (q & Hq & Hu).
    apply _update_target_configuration in Hu as (_ & _ & Hc & Hpol & Hal).
    split; [exact Hpol|]. split; [exact Hal|].
    exists q. split; [exact Hq|].
    rewrite Hc. cbn [with_critic _critic_approximator].
    rewrite Fc, Ff. reflexivity.
Qed.

End LearningPhase.

Lemma distribution_has_positive_scale_witness :
  exists d,
    distribution (C := small_collaborators) example_policy example_state = Ok d /\
    data (scale d) = [[exp 0]; [exp 0]].
Proof.
  destruct (distribution_has_positive_scale (C := small_collaborators)
              example_policy example_state _ _ _ _
              (example_well_shaped example_state))
    as ((d & H1 & _ & H2 & _) & _).
  exists d. split; [exact H1|exact H2].
Defined.

Lemma fit_when_learning_witness :
  rm_initialized (rm_add (_replay_memory crossing_agent) [terminal_transition])
    = true /\
  (_warmup_transitions crossing_agent
   < rm_size (rm_add (_replay_memory crossing_agent) [terminal_transition]))%Z /\
  exists self1,
    update_actor_and_alpha
      (with_replay_memory
         (rm_add (_replay_memory crossing_agent) [terminal_transition])
         crossing_agent)
      [[0]] (fun _ _ => -1) = Ok self1 /\
    forall self',
      fit example_store crossing_agent [terminal_transition] crossing_draws
        = Ok self' ->
      policy self' = policy self1 /\ _log_alpha self' = _log_alpha self1.
Proof.
  assert (Hi : rm_initialized
                 (rm_add (_replay_memory crossing_agent) [terminal_transition])
               = true) by reflexivity.
  assert (Hwarm : (_warmup_transitions crossing_agent
                   < rm_size (rm_add (_replay_memory crossing_agent)
                                [terminal_transition]))%Z)
    by (vm_compute; reflexivity).
  split; [exact Hi|]. split; [exact Hwarm|].
  destruct (fit_when_learning example_store crossing_agent
              [terminal_transition] crossing_draws [1] [0] _ _ [0] [0]
              Hi Hwarm (example_well_shaped _) eq_refl eq_refl
              ltac:(discriminate))
    as (self1 & loss & E1 & _ & _ & Hall).
  exists self1. split; [exact E1|].
  intros self' Hfit. destruct (Hall self' Hfit) as (H1 & H2 & _).
  split; [exact H1|exact H2].
Defined.

(** ** Shared dictionaries and the range of a soft update *)

Lemma between_min_max (tau o t : R) :
  0 <= tau <= 1 -> Rmin o t <= tau * o + (1 - tau) * t <= Rmax o t.
Proof.
  intros [H0 H1]. unfold Rmin, Rmax. destruct (Rle_dec o t); nra.
Qed.

Section SharedAndRange.
Context {C : Collaborators}.

Lemma SACPolicy_init_approximators mu sigma (min_a max_a : list R) p :
  SACPolicy_init mu sigma min_a max_a = Ok p ->
  _mu_approximator p = mu /\ _sigma_approximator p = sigma.
Proof.
  unfold SACPolicy_init. intros H.
  apply bind_Ok_inv in H as (range & _ & H).
  apply bind_Ok_inv in H as (total & _ & H).
  injection H as <-. split; reflexivity.
Qed.

(** X17: the networks of the actor are built after the keys of the critic
    are forced, from the dictionaries as they then are.  A caller who
    passes the very dictionary of the critic as a dictionary of the actor
    gets no agent: with keys that pass the assertions and bounds that fit,
    the regressor of the actor is built with ["n_models"] = 2, as an
    ensemble of two members, and reading its network raises
    [AttributeError].  In an agent that is returned both regressors of the
    actor have one member, neither dictionary of the actor is the one of
    the critic, and a live one is read as the caller left it. *)
Theorem actor_reads_the_forced_dictionary (h : store) (a : init_args) :
  let lc := arg_critic_params a in
  let d : pydict := h !!! lc in
  let low := action_low (arg_mdp_info a) in
  let high := action_high (arg_mdp_info a) in
  (~ violates "n_models" (PInt 2) d ->
   ~ violates "prediction" (PStr "min") d ->
   length low = length high ->
   arg_actor_mu_params a = lc \/ arg_actor_sigma_params a = lc ->
   SAC_init h a = Raise AttributeError /\
   length (model (Regressor_new (forced d) (seed_mu a))) = 2%nat) /\
  (forall h' self, SAC_init h a = Ok (h', self) ->
     let mu := _mu_approximator (policy self) in
     let sigma := _sigma_approximator (policy self) in
     arg_actor_mu_params a <> lc /\
     arg_actor_sigma_params a <> lc /\
     length (model mu) = 1%nat /\
     length (model sigma) = 1%nat /\
     (is_Some (h !! arg_actor_mu_params a) ->
      params mu = h !!! arg_actor_mu_params a) /\
     (is_Some (h !! arg_actor_sigma_params a) ->
      params sigma = h !!! arg_actor_sigma_params a)).
Proof.
  intros lc d low high.
  assert (Hens : network_parameters (Regressor_new (forced d) (seed_mu a))
                 = Raise AttributeError /\
                 network_parameters (Regressor_new (forced d) (seed_sigma a))
                 = Raise AttributeError).
  { split; apply network_parameters_ensemble; rewrite n_models_forced;
      discriminate. }
  destruct Hens as [Hem Hes].
  split.
  - intros Vn Vp Hlen Hshared.
    split; [|rewrite Regressor_new_length; apply n_models_forced].
    destruct (SAC_init_no_violation h a Vn Vp)
      as (h4 & lt & fit_ref & _ & _ & T & _ & _ & E).
    fold lc d in T.
    rewrite E, SACPolicy_init_Ok by exact Hlen. cbn [mbind outcome_bind].
    destruct Hshared as [-> | ->]; rewrite T.
    + rewrite Hem. reflexivity.
    + destruct (network_parameters_outcome
                  (Regressor_new (h4 !!! arg_actor_mu_params a) (seed_mu a)))
        as [(w & ->)| ->]; [|reflexivity].
      cbn [mbind outcome_bind]. rewrite Hes. reflexivity.
  - intros h' self H mu sigma.
    destruct (SAC_init_Ok_inv _ _ _ _ H)
      as (Vn & Vp & _ & _ & _ & _ & _ & T & _ & O).
    fold lc d in T.
    destruct (SAC_init_no_violation h a Vn Vp)
      as (h4 & lt & fit_ref & _ & _ & _ & _ & _ & E).
    rewrite E in H.
    apply bind_Ok_inv in H as (p & Ep & H).
    apply bind_Ok_inv in H as (w_mu & Em & H).
    apply bind_Ok_inv in H as (w_sigma & Es & H).
    injection H as <- <-.
    apply SACPolicy_init_approximators in Ep as [Emu Esigma].
    cbn [with_target_critic policy] in mu, sigma.
    fold mu in Emu. fold sigma in Esigma.
    assert (Hone : forall r w, network_parameters r = Ok w ->
                               length (model r) = 1%nat).
    { intros r w. unfold network_parameters.
      destruct (model r) as [|? [|? ?]]; try discriminate. reflexivity. }
    assert (Nm : arg_actor_mu_params a <> lc).
    { intros Heq. rewrite Heq, T, Hem in Em. discriminate. }
    assert (Ns : arg_actor_sigma_params a <> lc).
    { intros Heq. rewrite Heq, T, Hes in Es. discriminate. }
    split; [exact Nm|]. split; [exact Ns|].
    split; [rewrite Emu; exact (Hone _ _ Em)|].
    split; [rewrite Esigma; exact (Hone _ _ Es)|].
    split; intros Hl.
    + rewrite Emu. cbn [params Regressor_new].
      rewrite !lookup_total_alt, (O _ Hl Nm). reflexivity.
    + rewrite Esigma. cbn [params Regressor_new].
      rewrite !lookup_total_alt, (O _ Hl Ns). reflexivity.
Qed.

(** X18: over the reals, with [tau] between 0 and 1 a soft update does
    not overshoot: on ensembles of one architecture [_update_target]
    returns, and every weight of the new target lies between the weight
    of the old target and the weight of the online critic at the same
    place.  In single precision a rounding can take the new weight out of
    that range: with [tau = 0.1], a target weight and an online weight
    both 0.1 give a smaller number. *)
Theorem soft_update_stays_between (self : SAC) :
  aligned (model (_critic_approximator self))
          (model (_target_critic_approximator self)) ->
  0 <= _tau self <= 1 ->
  (exists self',
     _update_target self = Ok self' /\
     forall i j (online target : list R) (o t : R),
       model (_critic_approximator self) !! i = Some online ->
       model (_target_critic_approximator self) !! i = Some target ->
       online !! j = Some o -> target !! j = Some t ->
       exists member,
         model (_target_critic_approximator self') !! i = Some member /\
         member !! j
           = Some (soft_update_cell real_arithmetic (_tau self)
                     (1 - _tau self) o t) /\
         Rmin o t <= soft_update_cell real_arithmetic (_tau self)
                       (1 - _tau self) o t <= Rmax o t) /\
  (let single := ieee binary32 in
   let tenth := n_ratio single 1 10 in
   SFltb (soft_update_cell single tenth (n_ratio single 9 10) tenth tenth)
     tenth = true).
Proof.
  intros Hal Htau. split; [|vm_compute; reflexivity].
  rewrite _update_target_exec by exact Hal.
  eexists. split; [reflexivity|].
  intros i j online target o t Hon Htg Ho Ht.
  cbn [with_target_critic _target_critic_approximator model].
  exists (soft_update (_tau self) online target).
  split; [|split].
  - rewrite lookup_zip_with, Hon. cbn [mbind option_bind].
    rewrite Htg. reflexivity.
  - unfold soft_update. rewrite lookup_zip_with, Ho. cbn [mbind option_bind].
    rewrite Ht. reflexivity.
  - change (Rmin o t <= _tau self * o + (1 - _tau self) * t <= Rmax o t).
    apply between_min_max. exact Htau.
Qed.

End SharedAndRange.

Lemma actor_reads_the_forced_dictionary_witness :
  SAC_init (C := small_collaborators) example_store shared_args
    = Raise AttributeError /\
  length (model (Regressor_new (C := small_collaborators)
                   (forced (example_store !!! 1%positive)) 1)) = 2%nat.
Proof.
  destruct (actor_reads_the_forced_dictionary (C := small_collaborators)
              example_store shared_args) as [H _].
  apply H.
  - intros (x & Hx & _). discriminate Hx.
  - intros (x & Hx & _). discriminate Hx.
  - reflexivity.
  - left. reflexivity.
Defined.

Lemma soft_update_stays_between_witness :
  aligned [[2]; [4]] [[0]; [10]] /\
  0 <= 1 / 2 <= 1 /\
  exists self' member,
    _update_target drifted_agent = Ok self' /\
    model (_target_critic_approximator self') !! 1%nat = Some member /\
    member !! 0%nat
      = Some (soft_update_cell real_arithmetic (1 / 2) (1 - 1 / 2) 4 10) /\
    Rmin 4 10 <= soft_update_cell real_arithmetic (1 / 2) (1 - 1 / 2) 4 10
      <= Rmax 4 10.
Proof.
  assert (Htau : 0 <= 1 / 2 <= 1) by lra.
  split; [exact drifted_aligned|]. split; [exact Htau|].
  destruct (soft_update_stays_between drifted_agent drifted_aligned Htau)
    as ((s & Hs & Hall) & _).
  destruct (Hall 1%nat 0%nat [4] [10] 4 10 eq_refl eq_refl eq_refl eq_refl)
    as (member & H1 & H2 & H3).
  exists s, member. auto.
Defined.

(** ** The policy in floating point *)

(** C6 as stated fails in floating point.  Take the bounds 0.1 and 0.5, a
    numpy array of double precision, and a state on which the mean
    network returns -100 and the log-scale network 0, with a draw of the
    noise of 0: the raw sample is -100, a finite number.  Its hyperbolic
    tangent is so near to -1 that -1 is the nearest number of single and
    of double precision, which is what [torch.tanh] returns.  The
    rescaled action, computed in double precision as the bounds are, is
    0.09999999999999998, below [min_a]. *)
Lemma action_below_min_a_in_floating_point :
  let single := ieee binary32 in
  let double := ieee binary64 in
  let min_a := n_ratio double 1 10 in
  let max_a := n_ratio double 1 2 in
  let a_raw := raw_cell single (float_of_Z binary32 (-100))
                 (float_of_Z binary32 1) (float_of_Z binary32 0) in
  a_raw = float_of_Z binary32 (-100) /\
  -1 < tanh (-100) < -1 + (/ 2) ^ 54 /\
  SFltb min_a max_a = true /\
  rescale_cell double (float_of_Z binary64 (-1)) min_a max_a
    = S754_finite false 7205759403792792 (-56) /\
  min_a = S754_finite false 7205759403792794 (-56) /\
  SFltb (rescale_cell double (float_of_Z binary64 (-1)) min_a max_a) min_a
    = true.
Proof.
  cbv zeta.
  split; [vm_compute; reflexivity|].
  split; [exact tanh_saturates|].
  repeat split; vm_compute; reflexivity.
Qed.

(** C5 as stated fails in floating point.  Take a state on which the mean
    network returns 0 and the log-scale network 50, with a draw of the
    noise of 1.  The scale is the exponential of 50, about 5.18e21, a
    number of single precision; the raw sample, [0 + scale * 1], is that
    same finite number.  The square of the scale is beyond the largest
    number of single precision, and so is the square of the distance of
    the sample to the mean: [Normal.log_prob] divides an infinity by an
    infinity, which is a NaN, and the log-probability is a NaN whatever
    the logarithms it subtracts are. *)
Lemma log_prob_is_nan_at_a_finite_sample :
  let single := ieee binary32 in
  let loc := float_of_Z binary32 0 in
  let eps := float_of_Z binary32 1 in
  let value := raw_cell single loc exp_50_single eps in
  (exp 50 < 2 ^ 127 /\ 2 ^ 128 < exp 50 * exp 50) /\
  valid_binary 24 128 exp_50_single = true /\
  value = exp_50_single /\
  n_mul single exp_50_single exp_50_single = S754_infinity false /\
  n_mul single (n_sub single value loc) (n_sub single value loc)
    = S754_infinity false /\
  (forall log_scale log_sqrt_2pi log_correction : spec_float,
     log_prob_cell_of single value loc exp_50_single
       log_scale log_sqrt_2pi log_correction = S754_nan).
Proof.
  cbv zeta.
  split; [exact exp_50_fits_and_its_square_does_not|].
  repeat (split; [vm_compute; reflexivity|]).
  intros log_scale log_sqrt_2pi log_correction.
  unfold log_prob_cell_of, normal_log_prob_cell.
  cbn [n_sub n_div n_opp n_mul n_ratio ieee precision exponent_max binary32].
  match goal with
  | |- SFsub _ _ (SFsub _ _ (SFsub _ _ ?q _) _) _ = _ =>
      replace q with S754_nan by (vm_compute; reflexivity)
  end.
  destruct log_scale, log_sqrt_2pi, log_correction; reflexivity.
Qed.
